(** * Prompt keyword analyzer: keyword matcher, scheduler, analytics and
    batch upload, embedded from [src/App.tsx] and the batch component.

    Texts are strings of 8-bit code units.  Numbers that the source uses as
    counts, lengths and offsets are [nat]; clock readings ([Date.now()]) are
    [Z].  Effects (React state, the clock, the text-generation provider) are
    threaded through an explicit [World]. *)

From Stdlib Require Import ZArith Lia Ascii String List Sorted.
From stdpp Require Import base list strings gmap pretty.
Import ListNotations.

Local Open Scope nat_scope.

(* ===================================================================== *)
(** * Results of running a piece of code *)
(* ===================================================================== *)

(** A value that was thrown or that a promise rejected with.  The source
    only asks [error instanceof Error] and then reads [error.message]. *)
Inductive thrown :=
| ErrorValue (message : string)
| OtherValue.

(** What evaluating a call gives: a value or an exception; [OutOfFuel] is
    the model's loops having been given too little fuel. *)
Inductive outcome (A : Type) :=
| Returned (a : A)
| Threw (e : thrown)
| OutOfFuel.
Arguments Returned {A} a.
Arguments Threw {A} e.
Arguments OutOfFuel {A}.

(* ===================================================================== *)
(** * The pattern engine behind [new RegExp(keyword, 'gi')] *)
(* ===================================================================== *)

(** The regular-expression engine is the platform's, not the repository's:
    it is taken as a parameter.  [compile src] is [new RegExp(src, 'gi')],
    which throws a [SyntaxError] on a malformed pattern; [matchAt p text i]
    runs the compiled matcher at offset [i] of [text] and gives the length of
    the match found there, if any. *)
Inductive compiled (P : Type) :=
| Pattern (p : P)
| SyntaxError (message : string).
Arguments Pattern {P} p.
Arguments SyntaxError {P} message.

Record Engine := {
  pattern : Type;
  compile : string -> compiled pattern;
  matchAt : pattern -> string -> nat -> option nat
}.

Section RegExpBuiltins.
Context (E : Engine).

(** The search of [RegExp.prototype.exec] on a global pattern: try offsets
    [i], [i+1], ... and stop at the first one where the matcher succeeds;
    [k] is the number of offsets still to try. *)
Fixpoint scanFrom (p : pattern E) (text : string) (k i : nat)
  : option (nat * nat) :=
  match k with
  | 0 => None
  | S k' =>
      match matchAt E p text i with
      | Some n => Some (i, n)
      | None => scanFrom p text k' (S i)
      end
  end.

(** [regex.exec(text)] with [regex.lastIndex = lastIndex]: offsets from
    [lastIndex] up to and including [text.length] are tried; the result is
    the match (its index and its length) or [None] for [null].  After a
    match, [regex.lastIndex] is the end of the match, index plus length. *)
Definition regExpBuiltinExec (p : pattern E) (text : string)
    (lastIndex : nat) : option (nat * nat) :=
  scanFrom p text (S (String.length text) - lastIndex) lastIndex.

(** [text.match(regex)] for a global pattern: the list of all matches.
    After an empty match the method itself advances [lastIndex] by one.
    [null] (no match at all) is the empty list, as in [... || []]. *)
Fixpoint matchLoop (fuel : nat) (p : pattern E) (text : string)
    (lastIndex : nat) : list (nat * nat) :=
  match fuel with
  | 0 => []
  | S fuel' =>
      match regExpBuiltinExec p text lastIndex with
      | None => []
      | Some (i, n) =>
          (i, n) :: matchLoop fuel' p text
                      (if n =? 0 then S (i + n) else i + n)
      end
  end.

(** Every iteration moves [lastIndex] forward, so [text.length + 2] rounds
    are always enough (see [matchLoop_fuel]). *)
Definition stringMatch (p : pattern E) (text : string) : list (nat * nat) :=
  matchLoop (String.length text + 2) p text 0.

(** What [positions.push] throws when the array cannot grow any more: a
    [RangeError], which is an [Error]. *)
Definition invalidArrayLength : thrown := ErrorValue "Invalid array length".

(** [while ((match = searchRegex.exec(text)) !== null)
       positions.push(match.index)]: nothing but [exec] moves [lastIndex]
    here.  After an empty match [exec] leaves [lastIndex] on the match, so
    the next round finds the same match again (see [exec_again]), and every
    round after it: the same index is pushed until the array is full and
    [push] throws.  Limits of size are not modelled otherwise (the matches
    of a text that is scanned to its end are at most [text.length + 1], and
    are taken to fit an array), so the model goes to that exception at the
    first empty match.  The other rounds move [lastIndex] forward:
    [text.length + 2] rounds are always enough (see [execLoop_total]), and
    [OutOfFuel] is only the model having been given less. *)
Fixpoint execLoop (fuel : nat) (p : pattern E) (text : string)
    (lastIndex : nat) : outcome (list nat) :=
  match fuel with
  | 0 => OutOfFuel
  | S fuel' =>
      match regExpBuiltinExec p text lastIndex with
      | None => Returned []
      | Some (i, n) =>
          if n =? 0 then Threw invalidArrayLength
          else
            match execLoop fuel' p text (i + n) with
            | Returned positions => Returned (i :: positions)
            | Threw e => Threw e
            | OutOfFuel => OutOfFuel
            end
      end
  end.
End RegExpBuiltins.

(* ===================================================================== *)
(** * KeywordMatch and findKeywordMatches *)
(* ===================================================================== *)

Record KeywordMatch := {
  keyword : string;
  count : nat;
  positions : list nat
}.

Section KeywordMatcher.
Context (E : Engine).

(** The body of the [keywords.map] callback for one keyword. *)
Definition scanKeyword (fuel : nat) (text kw : string)
  : outcome KeywordMatch :=
  match compile E kw with
  | SyntaxError msg => Threw (ErrorValue msg)
  | Pattern regex =>
      let matches := stringMatch E regex text in
      match compile E kw with
      | SyntaxError msg => Threw (ErrorValue msg)
      | Pattern searchRegex =>
          match execLoop E fuel searchRegex text 0 with
          | Returned ps =>
              Returned {| keyword := kw;
                          count := List.length matches;
                          positions := ps |}
          | Threw e => Threw e
          | OutOfFuel => OutOfFuel
          end
      end
  end.

(** [keywords.map(...)]: keywords are taken in order and the first one
    that throws ends the whole call. *)
Fixpoint mapKeywords (fuel : nat) (text : string) (keywords : list string)
  : outcome (list KeywordMatch) :=
  match keywords with
  | [] => Returned []
  | kw :: rest =>
      match scanKeyword fuel text kw with
      | Returned m =>
          match mapKeywords fuel text rest with
          | Returned ms => Returned (m :: ms)
          | Threw e => Threw e
          | OutOfFuel => OutOfFuel
          end
      | Threw e => Threw e
      | OutOfFuel => OutOfFuel
      end
  end.

(** [new RegExp(kw, 'gi')] does not throw. *)
Definition compiles (kw : string) : Prop :=
  exists p, compile E kw = Pattern p.

Definition findKeywordMatches (fuel : nat) (text : string)
    (keywords : list string) : outcome (list KeywordMatch) :=
  match mapKeywords fuel text keywords with
  | Returned ms => Returned (List.filter (fun m => 0 <? count m) ms)
  | Threw e => Threw e
  | OutOfFuel => OutOfFuel
  end.
End KeywordMatcher.

(* ===================================================================== *)
(** * A reference engine for a fragment of the pattern syntax *)
(* ===================================================================== *)

(** Concrete inputs need a concrete engine.  [Fragment] implements, with the
    backtracking semantics of the language standard and the flags [gi], the
    patterns made of literal characters, [.], [\]-escaped syntax characters,
    the greedy quantifiers [*], [+], [?] on a single character, and [|].
    Anything else (groups, classes, anchors, braces, lazy quantifiers) is
    outside the fragment: the reference engine rejects it like a malformed
    pattern, although the platform compiles much of it.  The text of the
    error is the reference engine's own; the platform words it in its own
    way. *)
Module Fragment.

Inductive atom :=
| Lit (c : ascii)
| AnyChar.

Inductive quantifier :=
| Once
| ZeroOrMore
| OneOrMore
| ZeroOrOne.

Definition term : Type := atom * quantifier.

(** Case folding of the [i] flag: a character is compared through its
    upper-case form (letters of the Latin-1 range). *)
Definition canonicalize (c : ascii) : ascii :=
  let n := nat_of_ascii c in
  if ((97 <=? n) && (n <=? 122))
     || ((224 <=? n) && (n <=? 254) && negb (n =? 247))
  then ascii_of_nat (n - 32)
  else c.

Definition isLineTerminator (c : ascii) : bool :=
  let n := nat_of_ascii c in (n =? 10) || (n =? 13).

(** The syntax characters of the pattern grammar: ^ $ \ . * + ? ( ) [ ] { } | *)
Definition isSyntaxCharacter (c : ascii) : bool :=
  existsb (Ascii.eqb c)
    ["^"; "$"; "\"; "."; "*"; "+"; "?"; "("; ")"; "["; "]"; "{"; "}"; "|"]%char.

Definition flush (pending : option atom) (cur : list term) : list term :=
  match pending with
  | Some a => (a, Once) :: cur
  | None => cur
  end.

(** One left-to-right pass.  [pending] is the atom read last, still
    waiting for a possible quantifier; [cur] is the current alternative and
    [alts] the finished ones, both reversed. *)
Fixpoint parseTerms (cs : list ascii) (pending : option atom)
    (cur : list term) (alts : list (list term))
  : option (list (list term)) :=
  match cs with
  | [] => Some (rev (rev (flush pending cur) :: alts))
  | c :: cs' =>
      if Ascii.eqb c "|" then
        parseTerms cs' None [] (rev (flush pending cur) :: alts)
      else if Ascii.eqb c "*" then
        match pending with
        | Some a => parseTerms cs' None ((a, ZeroOrMore) :: cur) alts
        | None => None
        end
      else if Ascii.eqb c "+" then
        match pending with
        | Some a => parseTerms cs' None ((a, OneOrMore) :: cur) alts
        | None => None
        end
      else if Ascii.eqb c "?" then
        match pending with
        | Some a => parseTerms cs' None ((a, ZeroOrOne) :: cur) alts
        | None => None
        end
      else if Ascii.eqb c "." then
        parseTerms cs' (Some AnyChar) (flush pending cur) alts
      else if Ascii.eqb c "\" then
        match cs' with
        | e :: cs'' =>
            if isSyntaxCharacter e
            then parseTerms cs'' (Some (Lit e)) (flush pending cur) alts
            else None
        | [] => None
        end
      else if isSyntaxCharacter c then None
      else parseTerms cs' (Some (Lit c)) (flush pending cur) alts
  end.

Definition parsePattern (src : string) : option (list (list term)) :=
  parseTerms (list_ascii_of_string src) None [] [].

Definition atomMatches (a : atom) (c : ascii) : bool :=
  match a with
  | Lit x => Ascii.eqb (canonicalize x) (canonicalize c)
  | AnyChar => negb (isLineTerminator c)
  end.

(** Match a sequence of terms at the head of [s]; the result is the number
    of characters consumed.  A quantified atom first takes as many
    characters as it can and gives them back one by one while the rest of
    the sequence fails. *)
Fixpoint matchTerms (ts : list term) : list ascii -> option nat :=
  match ts with
  | [] => fun _ => Some 0
  | (a, q) :: ts' =>
      let rest := matchTerms ts' in
      let star :=
        fix star (s : list ascii) : option nat :=
          match s with
          | c :: s' =>
              if atomMatches a c then
                match star s' with
                | Some n => Some (S n)
                | None => rest s
                end
              else rest s
          | [] => rest s
          end in
      match q with
      | Once => fun s =>
          match s with
          | c :: s' => if atomMatches a c then S <$> rest s' else None
          | [] => None
          end
      | ZeroOrMore => star
      | OneOrMore => fun s =>
          match s with
          | c :: s' => if atomMatches a c then S <$> star s' else None
          | [] => None
          end
      | ZeroOrOne => fun s =>
          match s with
          | c :: s' =>
              if atomMatches a c then
                match rest s' with
                | Some n => Some (S n)
                | None => rest s
                end
              else rest s
          | [] => rest s
          end
      end
  end.

(** Alternatives are tried from left to right. *)
Fixpoint matchAlternatives (alts : list (list term)) (s : list ascii)
  : option nat :=
  match alts with
  | [] => None
  | ts :: alts' =>
      match matchTerms ts s with
      | Some n => Some n
      | None => matchAlternatives alts' s
      end
  end.

Definition engine : Engine := {|
  pattern := list (list term);
  compile src :=
    match parsePattern src with
    | Some d => Pattern d
    | None => SyntaxError ("Invalid regular expression: /" +:+ src +:+ "/")
    end;
  matchAt p text i :=
    if i <=? String.length text
    then matchAlternatives p (drop i (list_ascii_of_string text))
    else None
|}.

End Fragment.

(** ** Literal keyword search, as the specification words it *)

(** Modelled from the spec's words, for comparison with the matcher of the
    source: case-insensitive substring matching of the keyword taken as
    literal text, occurrences found left to right, non-overlapping, each
    search starting past the end of the previous occurrence. *)
Fixpoint ciPrefix (kw s : list ascii) : bool :=
  match kw, s with
  | [], _ => true
  | k :: kw', c :: s' =>
      Ascii.eqb (Fragment.canonicalize k) (Fragment.canonicalize c)
      && ciPrefix kw' s'
  | _ :: _, [] => false
  end.

(** [i] is the offset of the head of [s]; [skip] characters are still
    covered by the occurrence found last. *)
Fixpoint literalScan (kw s : list ascii) (i skip : nat) : list nat :=
  match s with
  | [] => []
  | _ :: s' =>
      match skip with
      | S k => literalScan kw s' (S i) k
      | 0 =>
          if ciPrefix kw s
          then i :: literalScan kw s' (S i) (List.length kw - 1)
          else literalScan kw s' (S i) 0
      end
  end.

Definition literalOccurrences (kw text : string) : list nat :=
  literalScan (list_ascii_of_string kw) (list_ascii_of_string text) 0 0.

(** What a matcher that takes keywords literally returns: one record per
    keyword that occurs, in keyword order. *)
Definition literalKeywordMatches (text : string) (keywords : list string)
  : list KeywordMatch :=
  List.filter (fun m => 0 <? count m)
    (List.map (fun kw =>
       let occ := literalOccurrences kw text in
       {| keyword := kw; count := List.length occ; positions := occ |})
     keywords).

(* ===================================================================== *)
(** * Data model *)
(* ===================================================================== *)

Inductive Status := Pending | Processing | Completed | Error.

Inductive SessionStatus := Idle | Running | SessionCompleted | SessionError.

Definition Status_eqb (a b : Status) : bool :=
  match a, b with
  | Pending, Pending | Processing, Processing
  | Completed, Completed | Error, Error => true
  | _, _ => false
  end.

(** [PromptAnalysis]; [a_error] is the optional [error] field. *)
Record PromptAnalysis := {
  a_id : string;
  a_prompt : string;
  a_response : string;
  a_keywordMatches : list KeywordMatch;
  a_timestamp : Z;
  a_status : Status;
  a_error : option string
}.

Record AnalysisSession := {
  s_id : string;
  s_prompts : list string;
  s_keywords : list string;
  s_results : list PromptAnalysis;
  s_startTime : Z;
  s_endTime : option Z;
  s_status : SessionStatus
}.

Record AnalyticsData := {
  totalPrompts : nat;
  totalResponses : nat;
  totalKeywordMatches : nat;
  averageResponseLength : nat;
  keywordFrequency : gmap string nat;
  processingTime : Z
}.

Record BatchRow := {
  r_prompt : string;
  r_keywords : list string
}.

Record BatchAnalysisSession := {
  b_id : string;
  b_name : string;
  b_rows : list BatchRow;
  b_results : list PromptAnalysis;
  b_startTime : Z;
  b_endTime : option Z;
  b_status : SessionStatus;
  b_totalRows : nat;
  b_processedRows : nat
}.

(* ===================================================================== *)
(** * Analytics *)
(* ===================================================================== *)

(** [Math.round(sum / n)] for natural [sum] and positive [n]: the nearest
    integer, a half rounding up. *)
Definition roundDiv (sum n : nat) : nat := (2 * sum + n) / (2 * n).

Definition sumCounts (ms : list KeywordMatch) : nat :=
  fold_left (fun matchSum m => matchSum + count m) ms 0.

Definition addFrequencies (freq : gmap string nat) (ms : list KeywordMatch)
  : gmap string nat :=
  fold_left (fun fr m =>
    <[keyword m := default 0 (fr !! keyword m) + count m]> fr) ms freq.

(** The [analytics] object of [App]: recomputed from the state at every
    render.  [now] is what [Date.now()] reads at that moment; it is only
    looked at when the session has no (truthy) [endTime].  Keys of
    [keywordFrequency] are own properties of the object. *)
Definition analytics (now : Z) (analyses : list PromptAnalysis)
    (currentSession : option AnalysisSession) : AnalyticsData := {|
  totalPrompts := List.length analyses;
  totalResponses :=
    List.length
      (List.filter (fun a => Status_eqb (a_status a) Completed) analyses);
  totalKeywordMatches :=
    fold_left (fun sum a => sum + sumCounts (a_keywordMatches a)) analyses 0;
  averageResponseLength :=
    if 0 <? List.length analyses
    then roundDiv
           (fold_left (fun sum a => sum + String.length (a_response a))
                      analyses 0)
           (List.length analyses)
    else 0;
  keywordFrequency :=
    fold_left (fun freq a => addFrequencies freq (a_keywordMatches a))
              analyses ∅;
  processingTime :=
    match currentSession with
    | Some s =>
        (match s_endTime s with
         | Some e => if (e =? 0)%Z then now else e
         | None => now
         end - s_startTime s)%Z
    | None => 0%Z
    end
|}.

(** Modelled from the spec's words, for comparison with [analytics]:
    the mean character length of the responses of completed items only,
    rounded to the nearest integer; 0 when none is completed. *)
Definition completedItems (items : list PromptAnalysis) : list PromptAnalysis :=
  List.filter (fun a => Status_eqb (a_status a) Completed) items.

Definition totalLength (items : list PromptAnalysis) : nat :=
  list_sum (List.map (fun a => String.length (a_response a)) items).

Definition meanCompletedLength (items : list PromptAnalysis) : nat :=
  match completedItems items with
  | [] => 0
  | done => roundDiv (totalLength done) (List.length done)
  end.

(* ===================================================================== *)
(** * The world the components run in *)
(* ===================================================================== *)

(** What [blink.ai.generateText] settles with. *)
Inductive response :=
| Resolved (text : string)
| Rejected (e : thrown).

(** [generateTextWithOpenAI] of [lib/openai.ts], as a function of what the
    chat-completion request does: it gives a completion whose first choice
    may lack a content, or it fails.  A missing (or empty) content becomes
    the empty text; a failure is thrown again under a new message. *)
Inductive completion :=
| Completion (content : option string)
| RequestFailed (e : thrown).

Definition generateTextWithOpenAI (c : completion) : response :=
  match c with
  | Completion (Some content) => Resolved content
  | Completion None => Resolved EmptyString
  | RequestFailed e =>
      Rejected (ErrorValue ("Failed to generate response: "
                            +:+ match e with
                                | ErrorValue message => message
                                | OtherValue => "Unknown error"
                                end))
  end.

(** The outside: the [k]-th reading of the clock, the answer to the [k]-th
    provider call, and the locale rendering of a date. *)
Record Env := {
  clock : nat -> Z;
  provider : nat -> string -> response;
  toLocaleString : Z -> string
}.

(** State of [App]. *)
Record AppState := {
  prompts : list string;
  keywords : list string;
  analyses : list PromptAnalysis;
  isRunning : bool;
  currentSession : option AnalysisSession
}.

(** State of the batch component; [batchError] is its [error] state. *)
Record BatchState := {
  batchData : list BatchRow;
  batchSession : option BatchAnalysisSession;
  isProcessing : bool;
  batchError : option string
}.

(** [ticks] and [calls] count the clock readings and provider calls made so
    far; [history] records every value the [analyses] state was given,
    newest first. *)
Record World := {
  app : AppState;
  batch : BatchState;
  ticks : nat;
  calls : nat;
  history : list (list PromptAnalysis)
}.

(** A computation reads and updates the world.  Its value is [None] when a
    loop of the model ran out of fuel; the world is then the one reached at
    that point. *)
Definition M (A : Type) : Type := World -> option A * World.

Definition ret {A} (a : A) : M A := fun w => (Some a, w).

Definition bind {A B} (c : M A) (k : A -> M B) : M B :=
  fun w =>
    match c w with
    | (Some a, w') => k a w'
    | (None, w') => (None, w')
    end.

(** The model stops here: a loop was given too little fuel. *)
Definition noFuel {A} : M A := fun w => (None, w).

Notation "'do' x <- c ; k" := (bind c (fun x => k))
  (at level 10, x name, c at level 100, k at level 200).
Notation "c ;; k" := (bind c (fun _ => k))
  (at level 100, k at level 200, right associativity).

Definition modifyApp (f : AppState -> AppState) : M unit := fun w =>
  (Some tt, {| app := f (app w); batch := batch w; ticks := ticks w;
               calls := calls w; history := history w |}).

Definition modifyBatch (f : BatchState -> BatchState) : M unit := fun w =>
  (Some tt, {| app := app w; batch := f (batch w); ticks := ticks w;
               calls := calls w; history := history w |}).

Definition getApp : M AppState := fun w => (Some (app w), w).
Definition getBatch : M BatchState := fun w => (Some (batch w), w).

Section Components.
Context (E : Engine) (env : Env).

(** [Date.now()] *)
Definition now : M Z := fun w =>
  (Some (clock env (ticks w)),
   {| app := app w; batch := batch w; ticks := S (ticks w);
      calls := calls w; history := history w |}).

(** [await blink.ai.generateText({ prompt, model, maxTokens })] *)
Definition generateText (prompt : string) : M response := fun w =>
  (Some (provider env (calls w) prompt),
   {| app := app w; batch := batch w; ticks := ticks w;
      calls := S (calls w); history := history w |}).

Definition setAnalyses (f : list PromptAnalysis -> list PromptAnalysis)
  : M unit := fun w =>
  let new := f (analyses (app w)) in
  (Some tt,
   {| app := {| prompts := prompts (app w);
                keywords := keywords (app w);
                analyses := new;
                isRunning := isRunning (app w);
                currentSession := currentSession (app w) |};
      batch := batch w; ticks := ticks w; calls := calls w;
      history := new :: history w |}).

Definition setIsRunning (b : bool) : M unit :=
  modifyApp (fun a =>
    {| prompts := prompts a; keywords := keywords a;
       analyses := analyses a; isRunning := b;
       currentSession := currentSession a |}).

Definition setCurrentSession
    (f : option AnalysisSession -> option AnalysisSession) : M unit :=
  modifyApp (fun a =>
    {| prompts := prompts a; keywords := keywords a;
       analyses := analyses a; isRunning := isRunning a;
       currentSession := f (currentSession a) |}).

(** [error instanceof Error ? error.message : 'Unknown error occurred'] *)
Definition errorMessage (e : thrown) : string :=
  match e with
  | ErrorValue message => message
  | OtherValue => "Unknown error occurred"
  end.

Definition withStatus (a : PromptAnalysis) (st : Status) : PromptAnalysis :=
  {| a_id := a_id a; a_prompt := a_prompt a; a_response := a_response a;
     a_keywordMatches := a_keywordMatches a; a_timestamp := a_timestamp a;
     a_status := st; a_error := a_error a |}.

(** [prev => prev.map(a => a.id === analysisId
                            ? { ...a, status: 'processing' } : a)] *)
Definition markProcessing (analysisId : string)
    (prev : list PromptAnalysis) : list PromptAnalysis :=
  List.map (fun a =>
    if String.eqb (a_id a) analysisId then withStatus a Processing else a)
    prev.

(** [prev => prev.map(a => a.id === result.id ? result : a)] *)
Definition replaceById (result : PromptAnalysis)
    (prev : list PromptAnalysis) : list PromptAnalysis :=
  List.map (fun a => if String.eqb (a_id a) (a_id result) then result else a)
    prev.

(** The [catch] branch of [processPrompt]. *)
Definition errorAnalysis (analysisId prompt : string) (e : thrown)
  : M PromptAnalysis :=
  do t <- now;
  ret {| a_id := analysisId; a_prompt := prompt; a_response := "";
         a_keywordMatches := []; a_timestamp := t; a_status := Error;
         a_error := Some (errorMessage e) |}.

(** [processPrompt(prompt, index, analysisId)]; [kws] is the [keywords]
    state the closure was created with.  The whole body sits in one
    [try]: a rejected provider call and an exception of the keyword
    matcher both end in the [catch] branch. *)
Definition processPrompt (fuel : nat) (kws : list string)
    (prompt : string) (index : nat) (analysisId : string)
  : M PromptAnalysis :=
  setAnalyses (markProcessing analysisId);;
  do r <- generateText prompt;
  match r with
  | Resolved text =>
      match findKeywordMatches E fuel text kws with
      | Returned keywordMatches =>
          do t <- now;
          ret {| a_id := analysisId; a_prompt := prompt;
                 a_response := text; a_keywordMatches := keywordMatches;
                 a_timestamp := t; a_status := Completed;
                 a_error := None |}
      | Threw e => errorAnalysis analysisId prompt e
      | OutOfFuel => noFuel
      end
  | Rejected e => errorAnalysis analysisId prompt e
  end.

(** [prompts.map((prompt, index) => ({ id: `analysis-${Date.now()}-${index}`,
    ..., timestamp: Date.now(), status: 'pending' }))] *)
Fixpoint initialAnalysesFrom (ps : list string) (index : nat)
  : M (list PromptAnalysis) :=
  match ps with
  | [] => ret []
  | prompt :: rest =>
      do t1 <- now;
      do t2 <- now;
      do items <- initialAnalysesFrom rest (S index);
      ret ({| a_id := "analysis-" +:+ pretty t1 +:+ "-" +:+ pretty index;
              a_prompt := prompt; a_response := "";
              a_keywordMatches := []; a_timestamp := t2;
              a_status := Pending; a_error := None |} :: items)
  end.

(** The [for] loop of [startAnalysis], from index [i] on: [todo] pairs
    [prompts[i]] with [initialAnalyses[i]] for the indices left.  The
    one-second pause between two requests changes no state. *)
Fixpoint processAll (fuel : nat) (kws : list string)
    (todo : list (string * PromptAnalysis)) (i : nat)
    (results : list PromptAnalysis) : M (list PromptAnalysis) :=
  match todo with
  | [] => ret results
  | (prompt, initial) :: rest =>
      let analysisId := a_id initial in
      do result <- processPrompt fuel kws prompt i analysisId;
      let results' := results ++ [result] in
      setAnalyses (replaceById result);;
      processAll fuel kws rest (S i) results'
  end.

Definition startAnalysis (fuel : nat) : M unit :=
  do st <- getApp;
  if (List.length (prompts st) =? 0) || (List.length (keywords st) =? 0)
  then ret tt
  else
    setIsRunning true;;
    do t0 <- now;
    let sessionId := "session-" +:+ pretty t0 in
    do startTime <- now;
    let session :=
      {| s_id := sessionId; s_prompts := prompts st;
         s_keywords := keywords st; s_results := [];
         s_startTime := startTime; s_endTime := None;
         s_status := Running |} in
    setCurrentSession (fun _ => Some session);;
    do initialAnalyses <- initialAnalysesFrom (prompts st) 0;
    setAnalyses (fun _ => initialAnalyses);;
    do results <-
      processAll fuel (keywords st)
                 (combine (prompts st) initialAnalyses) 0 [];
    do endTime <- now;
    setCurrentSession (fun prev =>
      match prev with
      | Some s =>
          Some {| s_id := s_id s; s_prompts := s_prompts s;
                  s_keywords := s_keywords s; s_results := results;
                  s_startTime := s_startTime s; s_endTime := Some endTime;
                  s_status := SessionCompleted |}
      | None => None
      end);;
    setIsRunning false.

(** [setPrompts] and [setKeywords], the callbacks given to the two input
    components. *)
Definition setPrompts (ps : list string) : M unit :=
  modifyApp (fun a =>
    {| prompts := ps; keywords := keywords a; analyses := analyses a;
       isRunning := isRunning a; currentSession := currentSession a |}).

Definition setKeywords (kws : list string) : M unit :=
  modifyApp (fun a =>
    {| prompts := prompts a; keywords := kws; analyses := analyses a;
       isRunning := isRunning a; currentSession := currentSession a |}).

Definition resetAnalysis : M unit :=
  setAnalyses (fun _ => []);;
  setCurrentSession (fun _ => None);;
  setIsRunning false.
End Components.

(* ===================================================================== *)
(** * Batch upload *)
(* ===================================================================== *)

(** ** String methods used by [parseCSV] *)

Definition dquote : ascii := ascii_of_nat 34.
Definition comma : ascii := ","%char.
Definition newline : ascii := ascii_of_nat 10.

(** White space and line terminators, as [trim] sees them. *)
Definition isWhiteSpace (c : ascii) : bool :=
  let n := nat_of_ascii c in
  (n =? 9) || (n =? 10) || (n =? 11) || (n =? 12) || (n =? 13)
  || (n =? 32) || (n =? 160).

Definition isEmpty (s : string) : bool :=
  match s with
  | EmptyString => true
  | String _ _ => false
  end.

Fixpoint trimStart (s : string) : string :=
  match s with
  | EmptyString => EmptyString
  | String c s' => if isWhiteSpace c then trimStart s' else s
  end.

Fixpoint trimEnd (s : string) : string :=
  match s with
  | EmptyString => EmptyString
  | String c s' =>
      let t := trimEnd s' in
      if isWhiteSpace c && isEmpty t then EmptyString else String c t
  end.

Definition trim (s : string) : string := trimEnd (trimStart s).

(** [s.split(sep)] for a one-character separator. *)
Fixpoint split (sep : ascii) (s : string) : list string :=
  match s with
  | EmptyString => [EmptyString]
  | String c s' =>
      if Ascii.eqb c sep then EmptyString :: split sep s'
      else
        match split sep s' with
        | x :: xs => String c x :: xs
        | [] => [String c EmptyString]
        end
  end.

(** The [replace] call that deletes every double quote of [s]. *)
Fixpoint removeQuotes (s : string) : string :=
  match s with
  | EmptyString => EmptyString
  | String c s' =>
      if Ascii.eqb c dquote then removeQuotes s' else String c (removeQuotes s')
  end.

Definition includes (x : string) (l : list string) : bool :=
  existsb (String.eqb x) l.

(** [l.indexOf(x)], for an [x] that [l] includes. *)
Fixpoint indexOf (x : string) (l : list string) : nat :=
  match l with
  | [] => 0
  | y :: l' => if String.eqb y x then 0 else S (indexOf x l')
  end.

(** The character loop of [parseCSV] over one line: a quote toggles
    [inQuotes], a comma outside quotes ends the field. *)
Fixpoint splitFields (line : string) (current : string) (inQuotes : bool)
    (fields : list string) : list string :=
  match line with
  | EmptyString => fields ++ [trim current]
  | String char rest =>
      if Ascii.eqb char dquote then
        splitFields rest current (negb inQuotes) fields
      else if Ascii.eqb char comma && negb inQuotes then
        splitFields rest EmptyString inQuotes (fields ++ [trim current])
      else
        splitFields rest (current +:+ String char EmptyString) inQuotes fields
  end.

(** The body of the [for] loop of [parseCSV] for the lines after the
    header. *)
Fixpoint parseLines (lines : list string) (promptIndex keywordsIndex : nat)
    (rows : list BatchRow) : list BatchRow :=
  match lines with
  | [] => rows
  | l :: rest =>
      let line := trim l in
      if isEmpty line then parseLines rest promptIndex keywordsIndex rows
      else
        let fields := splitFields line EmptyString false [] in
        if Nat.max (promptIndex + 1) (keywordsIndex + 1) <=? List.length fields
        then
          let prompt :=
            trim (removeQuotes (nth promptIndex fields EmptyString)) in
          let keywordsStr :=
            trim (removeQuotes (nth keywordsIndex fields EmptyString)) in
          if negb (isEmpty prompt) && negb (isEmpty keywordsStr) then
            let kws :=
              List.filter (fun k => negb (isEmpty k))
                          (List.map trim (split comma keywordsStr)) in
            parseLines rest promptIndex keywordsIndex
              (rows ++ [{| r_prompt := prompt; r_keywords := kws |}])
          else parseLines rest promptIndex keywordsIndex rows
        else parseLines rest promptIndex keywordsIndex rows
  end.

Definition missingColumns : string :=
  "CSV must contain " +:+ String dquote "prompt" +:+ String dquote " and "
  +:+ String dquote "keywords" +:+ String dquote " columns".

Definition parseCSV (csvText : string) : outcome (list BatchRow) :=
  let lines := split newline (trim csvText) in
  let headers :=
    List.map (fun h => removeQuotes (trim h))
             (split comma (nth 0 lines EmptyString)) in
  if negb (includes "prompt" headers) || negb (includes "keywords" headers)
  then Threw (ErrorValue missingColumns)
  else
    let promptIndex := indexOf "prompt" headers in
    let keywordsIndex := indexOf "keywords" headers in
    Returned (parseLines (tl lines) promptIndex keywordsIndex []).

Section BatchComponent.
Context (E : Engine) (env : Env).

Definition setBatchData (rows : list BatchRow) : M unit :=
  modifyBatch (fun b =>
    {| batchData := rows; batchSession := batchSession b;
       isProcessing := isProcessing b; batchError := batchError b |}).

Definition setBatchSession
    (f : option BatchAnalysisSession -> option BatchAnalysisSession)
  : M unit :=
  modifyBatch (fun b =>
    {| batchData := batchData b; batchSession := f (batchSession b);
       isProcessing := isProcessing b; batchError := batchError b |}).

Definition setIsProcessing (p : bool) : M unit :=
  modifyBatch (fun b =>
    {| batchData := batchData b; batchSession := batchSession b;
       isProcessing := p; batchError := batchError b |}).

Definition setError (e : option string) : M unit :=
  modifyBatch (fun b =>
    {| batchData := batchData b; batchSession := batchSession b;
       isProcessing := isProcessing b; batchError := e |}).

(** What the [try] block of [reader.onload] computes before it touches
    the state: the rows, or the exception that sends it to [catch]. *)
Definition checkedRows (csvText : string) : outcome (list BatchRow) :=
  match parseCSV csvText with
  | Returned rows =>
      if List.length rows =? 0 then
        Threw (ErrorValue "No valid rows found in CSV file")
      else if 50 <? List.length rows then
        Threw (ErrorValue "Maximum 50 rows allowed per batch")
      else Returned rows
  | Threw e => Threw e
  | OutOfFuel => OutOfFuel
  end.

(** [handleFileUpload]: [file] is the text of the chosen file, if one was
    chosen; the reader's [onload] handler runs with it. *)
Definition handleFileUpload (file : option string) : M unit :=
  match file with
  | None => ret tt
  | Some csvText =>
      setError None;;
      match checkedRows csvText with
      | Returned rows => setBatchData rows;; setError None
      | Threw err =>
          setError (Some (match err with
                          | ErrorValue message => message
                          | OtherValue => "Failed to parse CSV file"
                          end));;
          setBatchData []
      | OutOfFuel => noFuel
      end
  end.

Definition minimum (xs : list Z) : Z :=
  match xs with
  | [] => 0%Z
  | x :: xs' => fold_left Z.min xs' x
  end.

Definition maximum (xs : list Z) : Z :=
  match xs with
  | [] => 0%Z
  | x :: xs' => fold_left Z.max xs' x
  end.

(** [handleBatchComplete] of [App], the [onBatchComplete] callback.  It is
    only ever called with at least one result, so [Math.min] and
    [Math.max] have arguments. *)
Definition handleBatchComplete (batchResults : list PromptAnalysis)
  : M unit :=
  setAnalyses (fun prev => prev ++ batchResults);;
  do t <- now env;
  let session :=
    {| s_id := "batch-session-" +:+ pretty t;
       s_prompts := List.map a_prompt batchResults;
       s_keywords := [];
       s_results := batchResults;
       s_startTime := minimum (List.map a_timestamp batchResults);
       s_endTime := Some (maximum (List.map a_timestamp batchResults));
       s_status := SessionCompleted |} in
  setCurrentSession (fun _ => Some session).

Definition withProcessedRows (n : nat) (s : BatchAnalysisSession)
  : BatchAnalysisSession :=
  {| b_id := b_id s; b_name := b_name s; b_rows := b_rows s;
     b_results := b_results s; b_startTime := b_startTime s;
     b_endTime := b_endTime s; b_status := b_status s;
     b_totalRows := b_totalRows s; b_processedRows := n |}.

(** One round of the [for] loop of [processBatch]: the inner [try] and
    its [catch].  The identifier is made when the row is finished. *)
Definition processRow (fuel : nat) (row : BatchRow) (i : nat)
  : M PromptAnalysis :=
  setBatchSession (option_map (withProcessedRows i));;
  do r <- generateText env (r_prompt row);
  let failed (e : thrown) : M PromptAnalysis :=
    do t1 <- now env;
    do t2 <- now env;
    ret {| a_id := "batch-analysis-" +:+ pretty t1 +:+ "-" +:+ pretty i;
           a_prompt := r_prompt row; a_response := "";
           a_keywordMatches := []; a_timestamp := t2; a_status := Error;
           a_error := Some (errorMessage e) |} in
  match r with
  | Resolved text =>
      match findKeywordMatches E fuel text (r_keywords row) with
      | Returned keywordMatches =>
          do t1 <- now env;
          do t2 <- now env;
          ret {| a_id := "batch-analysis-" +:+ pretty t1 +:+ "-"
                         +:+ pretty i;
                 a_prompt := r_prompt row; a_response := text;
                 a_keywordMatches := keywordMatches; a_timestamp := t2;
                 a_status := Completed; a_error := None |}
      | Threw e => failed e
      | OutOfFuel => noFuel
      end
  | Rejected e => failed e
  end.

Fixpoint processRows (fuel : nat) (rows : list BatchRow) (i : nat)
    (results : list PromptAnalysis) : M (list PromptAnalysis) :=
  match rows with
  | [] => ret results
  | row :: rest =>
      do result <- processRow fuel row i;
      processRows fuel rest (S i) (results ++ [result])
  end.

(** [processBatch]; nothing in its outer [try] block throws, so the outer
    [catch] is not reached and [finally] runs last. *)
Definition processBatch (fuel : nat) : M unit :=
  do b <- getBatch;
  if List.length (batchData b) =? 0 then ret tt
  else
    setIsProcessing true;;
    setError None;;
    do t0 <- now env;
    let sessionId := "batch-" +:+ pretty t0 in
    do startTime <- now env;
    do date <- now env;
    let session :=
      {| b_id := sessionId;
         b_name := "Batch Analysis " +:+ toLocaleString env date;
         b_rows := batchData b; b_results := [];
         b_startTime := startTime; b_endTime := None;
         b_status := Running;
         b_totalRows := List.length (batchData b);
         b_processedRows := 0 |} in
    setBatchSession (fun _ => Some session);;
    do results <- processRows fuel (batchData b) 0 [];
    do endTime <- now env;
    setBatchSession (option_map (fun s =>
      {| b_id := b_id s; b_name := b_name s; b_rows := b_rows s;
         b_results := results; b_startTime := b_startTime s;
         b_endTime := Some endTime; b_status := SessionCompleted;
         b_totalRows := b_totalRows s;
         b_processedRows := List.length (batchData b) |}));;
    handleBatchComplete results;;
    setIsProcessing false.
End BatchComponent.

(* ===================================================================== *)
(** * Predicates and auxiliary functions of the statements *)
(* ===================================================================== *)

(** A keyword that is not empty and has no syntax character of the pattern
    grammar. *)
Definition isPlain (kw : string) : bool :=
  negb (isEmpty kw)
  && forallb (fun c => negb (Fragment.isSyntaxCharacter c))
             (list_ascii_of_string kw).

(** The pattern a plain keyword compiles to: its characters, one by one. *)
Definition literalTerms (cs : list ascii) : list Fragment.term :=
  List.map (fun c => (Fragment.Lit c, Fragment.Once)) cs.

Definition literalPattern (kw : string) : pattern Fragment.engine :=
  [literalTerms (list_ascii_of_string kw)].

Definition isTerminal (a : PromptAnalysis) : bool :=
  match a_status a with
  | Completed | Error => true
  | Pending | Processing => false
  end.

(** The invariant of an item as the specification words it: when the status
    is terminal exactly one of a non-empty response and an error holds, and
    both are empty before. *)
Definition claimedItemInvariant (a : PromptAnalysis) : Prop :=
  match a_status a with
  | Completed => a_response a <> EmptyString /\ a_error a = None
  | Error => is_Some (a_error a) /\ a_response a = EmptyString
  | Pending | Processing => a_response a = EmptyString /\ a_error a = None
  end.

(** The invariant the scheduler keeps: a completed item has no error (its
    response is whatever the provider gave); an item in error has the error
    set and neither response nor matches; before that everything is empty. *)
Definition itemInvariant (a : PromptAnalysis) : Prop :=
  match a_status a with
  | Completed => a_error a = None
  | Error =>
      is_Some (a_error a) /\ a_response a = EmptyString
      /\ a_keywordMatches a = []
  | Pending | Processing =>
      a_response a = EmptyString /\ a_error a = None
      /\ a_keywordMatches a = []
  end.

Definition isFreshPending (a : PromptAnalysis) : Prop :=
  a_status a = Pending /\ a_response a = EmptyString /\ a_error a = None
  /\ a_keywordMatches a = [].

(** The item [processPrompt] returns for the provider's answer [r] when the
    clock then reads [t]; [None] when the keyword scan was given too little
    fuel. *)
Definition settled (E : Engine) (fuel : nat) (kws : list string)
    (analysisId prompt : string) (r : response) (t : Z)
  : option PromptAnalysis :=
  let failed e :=
    Some {| a_id := analysisId; a_prompt := prompt; a_response := EmptyString;
            a_keywordMatches := []; a_timestamp := t; a_status := Error;
            a_error := Some (errorMessage e) |} in
  match r with
  | Resolved text =>
      match findKeywordMatches E fuel text kws with
      | Returned ms =>
          Some {| a_id := analysisId; a_prompt := prompt; a_response := text;
                  a_keywordMatches := ms; a_timestamp := t;
                  a_status := Completed; a_error := None |}
      | Threw e => failed e
      | OutOfFuel => None
      end
  | Rejected e => failed e
  end.

(** What an item says of the provider's answer [r] to its prompt, by its
    status.  Completed: no error, the response is the generated text as it
    is and the matches are those of the keyword scan of that text.  In
    error: response and matches are empty and the error is the message of
    what failed, the provider call or the keyword scan.  Before that:
    everything is empty. *)
Definition records (E : Engine) (fuel : nat) (kws : list string)
    (r : response) (a : PromptAnalysis) : Prop :=
  match a_status a with
  | Completed =>
      a_error a = None
      /\ r = Resolved (a_response a)
      /\ findKeywordMatches E fuel (a_response a) kws
         = Returned (a_keywordMatches a)
  | Error =>
      a_response a = EmptyString /\ a_keywordMatches a = []
      /\ exists e,
           a_error a = Some (match e with
                             | ErrorValue message => message
                             | OtherValue => "Unknown error occurred"
                             end)
           /\ (r = Rejected e
               \/ exists text,
                    r = Resolved text
                    /\ findKeywordMatches E fuel text kws = Threw e)
  | Pending | Processing =>
      a_response a = EmptyString /\ a_keywordMatches a = []
      /\ a_error a = None
  end.

(** A value of the [analyses] state during a run on the prompts [ps], the
    provider calls numbered from [c] on: one item per prompt, in order,
    each with its prompt and recording the answer to its own call. *)
Definition runState (E : Engine) (env : Env) (fuel : nat)
    (kws ps : list string) (c : nat) (items : list PromptAnalysis) : Prop :=
  List.length items = List.length ps
  /\ forall k a, items !! k = Some a ->
       exists p, ps !! k = Some p /\ a_prompt a = p
                 /\ records E fuel kws (provider env (c + k) p) a.

(** Fuel that is enough for every keyword scan of a run on the prompts
    [ps], the provider calls numbered from [c] on: two more than the
    length of the longest text generated. *)
Fixpoint runFuel (env : Env) (c : nat) (ps : list string) : nat :=
  match ps with
  | [] => 0
  | p :: rest =>
      Nat.max
        (match provider env c p with
         | Resolved text => String.length text + 2
         | Rejected _ => 0
         end)
        (runFuel env (S c) rest)
  end.

(** [startAnalysis] goes past its first line. *)
Definition canStart (w : World) : bool :=
  negb ((List.length (prompts (app w)) =? 0)
        || (List.length (keywords (app w)) =? 0)).

(** Everything but [analyses], the counters and the history is the same in
    both worlds. *)
Definition sameOutside (w w' : World) : Prop :=
  prompts (app w') = prompts (app w)
  /\ keywords (app w') = keywords (app w)
  /\ isRunning (app w') = isRunning (app w)
  /\ currentSession (app w') = currentSession (app w)
  /\ batch w' = batch w.

(** The session does not need the clock for its processing time: there is
    none, or it has a (truthy) end time. *)
Definition clockFree (currentSession : option AnalysisSession) : bool :=
  match currentSession with
  | None => true
  | Some s =>
      match s_endTime s with
      | Some e => negb (e =? 0)%Z
      | None => false
      end
  end.

(** Reading identifiers: the part of a string after its last dash. *)
Fixpoint hasDash (s : string) : bool :=
  match s with
  | EmptyString => false
  | String c s' => Ascii.eqb c "-" || hasDash s'
  end.

Fixpoint afterLastDash (s : string) : string :=
  match s with
  | EmptyString => EmptyString
  | String c s' =>
      if hasDash s' then afterLastDash s'
      else if Ascii.eqb c "-" then s' else s
  end.

(* ===================================================================== *)
(** * Scenarios *)
(* ===================================================================== *)

Definition emptyBatch : BatchState :=
  {| batchData := []; batchSession := None; isProcessing := false;
     batchError := None |}.

(** The world before anything ran, with the given inputs entered. *)
Definition freshWorld (ps kws : list string) : World :=
  {| app := {| prompts := ps; keywords := kws; analyses := [];
               isRunning := false; currentSession := None |};
     batch := emptyBatch; ticks := 0; calls := 0; history := [] |}.

(** Three prompts of which the second fails; the clock moves by one
    millisecond per reading. *)
Definition scenarioEnv : Env :=
  {| clock := fun k => Z.of_nat (1000 + k);
     provider := fun k p =>
       if k =? 1 then Rejected (ErrorValue "quota exceeded")
       else Resolved ("ai in the cloud: " +:+ p);
     toLocaleString := fun _ => "1/1/2025" |}.

Definition scenarioWorld : World :=
  freshWorld ["first"; "second"; "third"] ["ai"; "cloud"].

(** A provider that always fails. *)
Definition failingEnv : Env :=
  {| clock := fun k => Z.of_nat (1000 + k);
     provider := fun _ _ => Rejected OtherValue;
     toLocaleString := fun _ => "1/1/2025" |}.

(** A provider whose completions come without content: the generated text
    is empty. *)
Definition silentEnv : Env :=
  {| clock := fun k => Z.of_nat (1000 + k);
     provider := fun _ _ => generateTextWithOpenAI (Completion None);
     toLocaleString := fun _ => "1/1/2025" |}.

(** A clock that reads the same millisecond every time. *)
Definition frozenEnv : Env :=
  {| clock := fun _ => 1000%Z;
     provider := fun _ p => Resolved p;
     toLocaleString := fun _ => "1/1/2025" |}.

(** A table with the two columns and [n] valid rows. *)
Definition csvOfRows (n : nat) : string :=
  "prompt,keywords"
  +:+ String.concat EmptyString
        (repeat (String newline "Explain quantum computing,quantum") n).

(** A session that is still running. *)
Definition runningSession : AnalysisSession :=
  {| s_id := "session-1000"; s_prompts := ["first"]; s_keywords := ["ai"];
     s_results := []; s_startTime := 1000%Z; s_endTime := None;
     s_status := Running |}.

(** A session that has ended. *)
Definition endedSession : AnalysisSession :=
  {| s_id := "session-1000"; s_prompts := ["first"]; s_keywords := ["ai"];
     s_results := []; s_startTime := 1000%Z; s_endTime := Some 1500%Z;
     s_status := SessionCompleted |}.

(** One completed item and one in error. *)
Definition twoItems : list PromptAnalysis :=
  [{| a_id := "analysis-1-0"; a_prompt := "p"; a_response := "abcd";
      a_keywordMatches := []; a_timestamp := 2%Z; a_status := Completed;
      a_error := None |};
   {| a_id := "analysis-1-1"; a_prompt := "q"; a_response := "";
      a_keywordMatches := []; a_timestamp := 3%Z; a_status := Error;
      a_error := Some "quota exceeded" |}].

(** The items the scheduler leaves after the scenario run. *)
Definition scenarioItems : list PromptAnalysis :=
  analyses (app (snd (startAnalysis Fragment.engine scenarioEnv 40
                                    scenarioWorld))).

(** The world after a run with the silent provider. *)
Definition silentRun : World :=
  snd (startAnalysis Fragment.engine silentEnv 10 (freshWorld ["hello"] ["ai"])).

(** Two runs under the frozen clock, with a reset in between. *)
Definition frozenFirstRun : World :=
  snd (startAnalysis Fragment.engine frozenEnv 10 (freshWorld ["one"] ["ai"])).

Definition frozenSecondRun : World :=
  snd (startAnalysis Fragment.engine frozenEnv 10
         (snd (resetAnalysis frozenFirstRun))).

(** The scenario run, then a reset, new inputs and a second run. *)
Definition scenarioFirstRun : World :=
  snd (startAnalysis Fragment.engine scenarioEnv 40 scenarioWorld).

Definition scenarioSecondRun : World :=
  snd (startAnalysis Fragment.engine scenarioEnv 40
         (snd ((setPrompts ["again"];; setKeywords ["cloud"])
                 (snd (resetAnalysis scenarioFirstRun))))).

(* ===================================================================== *)
(** * Further predicates, scenarios and the input components *)
(* ===================================================================== *)

(** ** Occurrences of a keyword *)

(** The keyword, read literally and without regard to case, stands at
    offset [j] of the text. *)
Definition occursAt (kw text : string) (j : nat) : bool :=
  ciPrefix (list_ascii_of_string kw) (drop j (list_ascii_of_string text)).

(** ** Sums over the match records *)

(** All the match records of the items, item after item. *)
Definition allMatches (items : list PromptAnalysis) : list KeywordMatch :=
  List.concat (List.map a_keywordMatches items).

(** The records of one keyword, and their counts added up. *)
Definition recordsOf (k : string) (ms : list KeywordMatch)
  : list KeywordMatch :=
  List.filter (fun m => String.eqb (keyword m) k) ms.

Definition countOf (k : string) (ms : list KeywordMatch) : nat :=
  list_sum (List.map count (recordsOf k ms)).

(** The sum of the values of a frequency table. *)
Definition sumValues (freq : gmap string nat) : nat :=
  map_fold (fun _ v acc => v + acc) 0 freq.

(** The names every object inherits from [Object.prototype].  Read as a
    key of the frequency table before it was written, such a name gives
    the inherited property, not [undefined]: for these keywords the table
    is not a plain map. *)
Definition inheritedKey (k : string) : bool :=
  includes k
    ["constructor"; "__proto__"; "hasOwnProperty"; "isPrototypeOf";
     "propertyIsEnumerable"; "toLocaleString"; "toString"; "valueOf";
     "__defineGetter__"; "__defineSetter__"; "__lookupGetter__";
     "__lookupSetter__"].

Definition plainKeys (items : list PromptAnalysis) : bool :=
  forallb (fun m => negb (inheritedKey (keyword m))) (allMatches items).

(** ** Prompts that succeed *)

(** The provider call number [c], made for prompt [p], resolves and the
    keyword scan of its text returns. *)
Definition promptSucceeds (E : Engine) (env : Env) (fuel : nat)
    (kws : list string) (c : nat) (p : string) : bool :=
  match provider env c p with
  | Resolved text =>
      match findKeywordMatches E fuel text kws with
      | Returned _ => true
      | Threw _ | OutOfFuel => false
      end
  | Rejected _ => false
  end.

(** How many of the prompts succeed when their calls are numbered from
    [c] on. *)
Fixpoint succeeding (E : Engine) (env : Env) (fuel : nat)
    (kws : list string) (c : nat) (ps : list string) : nat :=
  match ps with
  | [] => 0
  | p :: rest =>
      (if promptSucceeds E env fuel kws c p then 1 else 0)
      + succeeding E env fuel kws (S c) rest
  end.

(** A provider that answers every prompt with the same text. *)
Definition echoEnv (text : string) : Env :=
  {| clock := fun k => Z.of_nat (1000 + k);
     provider := fun _ _ => Resolved text;
     toLocaleString := fun _ => "1/1/2025" |}.

(** ** Result tabs and batch rows *)

(** [a.id.startsWith('batch-analysis-')], the test by which [App] sorts
    the items into its two result tabs. *)
Definition isBatchItem (a : PromptAnalysis) : bool :=
  String.prefix "batch-analysis-" (a_id a).

(** [analyses.filter(a => !a.id.startsWith('batch-analysis-'))] *)
Definition manualResults (items : list PromptAnalysis)
  : list PromptAnalysis :=
  List.filter (fun a => negb (isBatchItem a)) items.

(** [analyses.filter(a => a.id.startsWith('batch-analysis-'))] *)
Definition batchResults (items : list PromptAnalysis)
  : list PromptAnalysis :=
  List.filter isBatchItem items.

(** The item [processRow] makes for row [row] of index [i] when the
    provider answers [r] and the clock then reads [t1] and [t2]; [None]
    when the keyword scan was given too little fuel. *)
Definition settledRow (E : Engine) (fuel : nat) (row : BatchRow) (i : nat)
    (r : response) (t1 t2 : Z) : option PromptAnalysis :=
  let failed e :=
    Some {| a_id := "batch-analysis-" +:+ pretty t1 +:+ "-" +:+ pretty i;
            a_prompt := r_prompt row; a_response := EmptyString;
            a_keywordMatches := []; a_timestamp := t2; a_status := Error;
            a_error := Some (errorMessage e) |} in
  match r with
  | Resolved text =>
      match findKeywordMatches E fuel text (r_keywords row) with
      | Returned ms =>
          Some {| a_id := "batch-analysis-" +:+ pretty t1 +:+ "-"
                          +:+ pretty i;
                  a_prompt := r_prompt row; a_response := text;
                  a_keywordMatches := ms; a_timestamp := t2;
                  a_status := Completed; a_error := None |}
      | Threw e => failed e
      | OutOfFuel => None
      end
  | Rejected e => failed e
  end.

(** A batch session without its progress counter. *)
Definition forgetProgress (s : BatchAnalysisSession) : BatchAnalysisSession :=
  withProcessedRows 0 s.

(** A world in which two rows were uploaded. *)
Definition twoRows : list BatchRow :=
  [{| r_prompt := "Explain the cloud"; r_keywords := ["cloud"] |};
   {| r_prompt := "Explain ai"; r_keywords := ["ai"; "the"] |}].

Definition twoRowsWorld : World :=
  {| app := app scenarioFirstRun;
     batch := {| batchData := twoRows; batchSession := None;
                 isProcessing := false; batchError := None |};
     ticks := ticks scenarioFirstRun; calls := calls scenarioFirstRun;
     history := history scenarioFirstRun |}.

(** ** The template format *)

(** The character [c] does not occur in [s]. *)
Fixpoint lacks (c : ascii) (s : string) : bool :=
  match s with
  | EmptyString => true
  | String x s' => negb (Ascii.eqb x c) && lacks c s'
  end.

(** A cell of the table as the template writes it: between double quotes. *)
Definition quoted (s : string) : string :=
  String dquote (s +:+ String dquote EmptyString).

(** A row of the table in the format of the template that
    [downloadTemplate] offers: the prompt and the comma-separated keywords,
    both quoted. *)
Definition csvLine (r : BatchRow) : string :=
  quoted (r_prompt r) +:+ String comma (quoted (String.concat "," (r_keywords r))).

Fixpoint linesText (rows : list BatchRow) : string :=
  match rows with
  | [] => EmptyString
  | r :: rest => String newline (csvLine r +:+ linesText rest)
  end.

Definition csvOf (rows : list BatchRow) : string :=
  "prompt,keywords" +:+ linesText rows.

(** The rows of the template of [downloadTemplate]; its text is
    [csvOf templateRows]. *)
Definition templateRows : list BatchRow :=
  [{| r_prompt := "Write a creative story about AI";
      r_keywords := ["AI"; "story"; "creative"; "technology"] |};
   {| r_prompt := "Explain quantum computing";
      r_keywords := ["quantum"; "computing"; "physics"; "science"] |};
   {| r_prompt := "Create a marketing plan";
      r_keywords := ["marketing"; "plan"; "strategy"; "business"] |};
   {| r_prompt := "Describe the future of work";
      r_keywords := ["future"; "work"; "remote"; "automation"] |};
   {| r_prompt := "Write a poem about nature";
      r_keywords := ["poem"; "nature"; "environment"; "beauty"] |}].

(** A text that can stand in a quoted cell and come back: not empty,
    without white space at its ends, without double quote or line break. *)
Definition cleanText (s : string) : bool :=
  negb (isEmpty s) && String.eqb (trim s) s
  && lacks dquote s && lacks newline s.

Definition cleanKeyword (k : string) : bool :=
  cleanText k && lacks comma k.

Definition cleanRow (r : BatchRow) : bool :=
  cleanText (r_prompt r)
  && negb (List.length (r_keywords r) =? 0)
  && forallb cleanKeyword (r_keywords r).

(** What the parser guarantees of a row. *)
Definition parsedRowOk (r : BatchRow) : Prop :=
  isEmpty (r_prompt r) = false
  /\ trim (r_prompt r) = r_prompt r
  /\ lacks dquote (r_prompt r) = true
  /\ Forall (fun k => isEmpty k = false /\ trim k = k
                      /\ lacks comma k = true /\ lacks dquote k = true)
            (r_keywords r).

(* ===================================================================== *)
(** * The input components *)
(* ===================================================================== *)

(** [toLowerCase] on one code unit below 256: the letters A-Z and the
    accented capitals (all of 192..222 but the multiplication sign). *)
Definition toLowerCaseChar (c : ascii) : ascii :=
  let n := nat_of_ascii c in
  if ((65 <=? n) && (n <=? 90))
     || ((192 <=? n) && (n <=? 222) && negb (n =? 215))
  then ascii_of_nat (n + 32) else c.

Fixpoint toLowerCase (s : string) : string :=
  match s with
  | EmptyString => EmptyString
  | String c s' => String (toLowerCaseChar c) (toLowerCase s')
  end.

(** [addKeyword] of [KeywordConfig]; [keywords] is the prop [App] passes
    and [onKeywordsChange] is [setKeywords].  The result is the new value
    of the component's [currentKeyword] state. *)
Definition addKeyword (currentKeyword : string) : M string :=
  do st <- getApp;
  let keyword := toLowerCase (trim currentKeyword) in
  if negb (isEmpty keyword) && negb (includes keyword (keywords st))
  then setKeywords (keywords st ++ [keyword]);; ret EmptyString
  else ret currentKeyword.

(** [removeKeyword] of [KeywordConfig] *)
Definition removeKeyword (keywordToRemove : string) : M unit :=
  do st <- getApp;
  setKeywords
    (List.filter (fun k => negb (String.eqb k keywordToRemove))
                 (keywords st)).

(** [l.filter((x, i) => f(x, i))], the indices counted from [i]. *)
Fixpoint filterIndexed {A} (f : A -> nat -> bool) (l : list A) (i : nat)
  : list A :=
  match l with
  | [] => []
  | x :: l' =>
      if f x i then x :: filterIndexed f l' (S i) else filterIndexed f l' (S i)
  end.

(** [addPrompt] of [PromptInput]; the result is the new value of the
    component's [currentPrompt] state. *)
Definition addPrompt (currentPrompt : string) : M string :=
  do st <- getApp;
  if negb (isEmpty (trim currentPrompt))
     && (List.length (prompts st) <? 10)
  then setPrompts (prompts st ++ [trim currentPrompt]);; ret EmptyString
  else ret currentPrompt.

(** [removePrompt] of [PromptInput] *)
Definition removePrompt (index : nat) : M unit :=
  do st <- getApp;
  setPrompts (filterIndexed (fun _ i => negb (i =? index)) (prompts st) 0).

(** What the user does in the two input components. *)
Inductive InputEvent :=
| AddKeyword (currentKeyword : string)
| RemoveKeyword (keywordToRemove : string)
| AddPrompt (currentPrompt : string)
| RemovePrompt (index : nat).

Definition handleInput (e : InputEvent) : M unit :=
  match e with
  | AddKeyword text => addKeyword text;; ret tt
  | RemoveKeyword k => removeKeyword k
  | AddPrompt text => addPrompt text;; ret tt
  | RemovePrompt i => removePrompt i
  end.

Fixpoint handleInputs (es : list InputEvent) : M unit :=
  match es with
  | [] => ret tt
  | e :: es' => handleInput e;; handleInputs es'
  end.

Definition keywordOk (k : string) : Prop :=
  isEmpty k = false /\ trim k = k /\ toLowerCase k = k.

Definition promptOk (p : string) : Prop :=
  isEmpty p = false /\ trim p = p.

(** What the input components keep true of the inputs of [App]. *)
Definition inputsOk (a : AppState) : Prop :=
  NoDup (keywords a) /\ Forall keywordOk (keywords a)
  /\ List.length (prompts a) <= 10 /\ Forall promptOk (prompts a).

(** Everything but [prompts] and [keywords] is the same in both worlds. *)
Definition sameButInputs (w w' : World) : Prop :=
  analyses (app w') = analyses (app w)
  /\ isRunning (app w') = isRunning (app w)
  /\ currentSession (app w') = currentSession (app w)
  /\ batch w' = batch w /\ ticks w' = ticks w /\ calls w' = calls w
  /\ history w' = history w.

(* ===================================================================== *)
(** * Properties of the pattern loops *)
(* ===================================================================== *)

Section RegExpLoops.
Context (E : Engine) (p : pattern E) (text : string).

Lemma scanFrom_Some k i j n :
  scanFrom E p text k i = Some (j, n) ->
  i <= j < i + k /\ matchAt E p text j = Some n.
Proof.
  revert i. induction k as [|k IH]; intros i; simpl; [discriminate|].
  destruct (matchAt E p text i) as [m|] eqn:Hm.
  - intros [= <- <-]. split; [lia | assumption].
  - intros H. apply IH in H. destruct H as [Hr Hj]. split; [lia | assumption].
Qed.

Lemma scanFrom_hit k i n :
  matchAt E p text i = Some n -> scanFrom E p text (S k) i = Some (i, n).
Proof. intros H. simpl. now rewrite H. Qed.

Lemma exec_Some lastIndex j n :
  regExpBuiltinExec E p text lastIndex = Some (j, n) ->
  lastIndex <= j <= String.length text /\ matchAt E p text j = Some n.
Proof.
  unfold regExpBuiltinExec. intros H. apply scanFrom_Some in H.
  destruct H as [Hr Hj]. split; [lia | assumption].
Qed.

(** A search started where a match was found finds it again. *)
Lemma exec_again lastIndex j n :
  regExpBuiltinExec E p text lastIndex = Some (j, n) ->
  regExpBuiltinExec E p text j = Some (j, n).
Proof.
  intros H. apply exec_Some in H. destruct H as [Hr Hj].
  unfold regExpBuiltinExec.
  replace (S (String.length text) - j) with (S (String.length text - j))
    by lia.
  now apply scanFrom_hit.
Qed.

(** After an empty match [exec] leaves [lastIndex] on the match, and the
    [while] loop sees the same match in every later round: it ends with the
    exception of [push]. *)
Lemma execLoop_empty fuel lastIndex j :
  regExpBuiltinExec E p text lastIndex = Some (j, 0) ->
  execLoop E (S fuel) p text lastIndex = Threw invalidArrayLength.
Proof. intros H. simpl. now rewrite H. Qed.

(** The loop comes back whenever it has [text.length + 2] rounds, or as
    many as there are indices left. *)
Lemma execLoop_total fuel lastIndex :
  S (String.length text) - lastIndex < fuel ->
  execLoop E fuel p text lastIndex <> OutOfFuel.
Proof.
  revert lastIndex. induction fuel as [|fuel IH]; intros li Hf; [lia|].
  simpl. destruct (regExpBuiltinExec E p text li) as [[j n]|] eqn:Hex;
    [|discriminate].
  apply exec_Some in Hex. destruct Hex as [Hr _].
  destruct n as [|n]; [discriminate|]. cbn [Nat.eqb].
  specialize (IH (j + S n) ltac:(lia)).
  now destruct (execLoop E fuel p text (j + S n)).
Qed.

Lemma execLoop_increasing fuel lastIndex ps :
  execLoop E fuel p text lastIndex = Returned ps ->
  Forall (fun x => lastIndex <= x) ps /\ StronglySorted lt ps.
Proof.
  revert lastIndex ps. induction fuel as [|fuel IH]; intros li ps; simpl.
  - discriminate.
  - destruct (regExpBuiltinExec E p text li) as [[j n]|] eqn:Hex.
    + destruct n as [|n]; [discriminate|]. cbn [Nat.eqb].
      destruct (execLoop E fuel p text (j + S n)) as [qs| |] eqn:Hq;
        try discriminate.
      intros [= <-]. apply IH in Hq. destruct Hq as [Hge Hsorted].
      apply exec_Some in Hex. destruct Hex as [Hr _].
      split.
      * constructor; [lia|].
        eapply List.Forall_impl; [|exact Hge]. simpl. intros; lia.
      * constructor; [assumption|].
        eapply List.Forall_impl; [|exact Hge]. simpl. intros; lia.
    + intros [= <-]. split; constructor.
Qed.

(** When the [while] loop returns, it has seen exactly the matches that
    [text.match] collected. *)
Lemma execLoop_matchLoop fuel fuel' lastIndex ps :
  execLoop E fuel p text lastIndex = Returned ps ->
  S (String.length text) - lastIndex < fuel' ->
  List.map fst (matchLoop E fuel' p text lastIndex) = ps.
Proof.
  revert fuel' lastIndex ps.
  induction fuel as [|fuel IH]; intros fuel' li ps; simpl; [discriminate|].
  destruct fuel' as [|fuel']; [lia|]. simpl.
  destruct (regExpBuiltinExec E p text li) as [[j n]|] eqn:Hex.
  - destruct n as [|n]; [discriminate|]. cbn [Nat.eqb].
    destruct (execLoop E fuel p text (j + S n)) as [qs| |] eqn:Hq;
      try discriminate.
    intros [= <-] Hfuel. simpl. f_equal.
    apply exec_Some in Hex. destruct Hex as [Hr _].
    apply (IH fuel' _ _ Hq). lia.
  - intros [= <-] _. reflexivity.
Qed.

(** The matches of [text.match] do not depend on the fuel, once there is
    enough of it. *)
Lemma matchLoop_fuel fuel fuel' lastIndex :
  S (String.length text) - lastIndex < fuel ->
  S (String.length text) - lastIndex < fuel' ->
  matchLoop E fuel p text lastIndex = matchLoop E fuel' p text lastIndex.
Proof.
  revert fuel' lastIndex.
  induction fuel as [|fuel IH]; intros fuel' li Hf Hf'; [lia|].
  destruct fuel' as [|fuel']; [lia|]. simpl.
  destruct (regExpBuiltinExec E p text li) as [[j n]|] eqn:Hex;
    [|reflexivity].
  apply exec_Some in Hex. destruct Hex as [Hr _].
  f_equal. destruct (Nat.eqb_spec n 0); apply IH; lia.
Qed.


(** If [text.match] finds an empty match the [while] loop ends with the
    exception of [push]. *)
Lemma execLoop_throws fuel fuel' lastIndex j :
  In (j, 0) (matchLoop E fuel' p text lastIndex) ->
  S (String.length text) - lastIndex < fuel ->
  execLoop E fuel p text lastIndex = Threw invalidArrayLength.
Proof.
  revert fuel lastIndex.
  induction fuel' as [|fuel' IH]; intros fuel li; simpl; [tauto|].
  destruct (regExpBuiltinExec E p text li) as [[i n]|] eqn:Hex; [|simpl; tauto].
  destruct fuel as [|fuel]; [lia|].
  destruct n as [|n].
  - intros _ _. now apply execLoop_empty with i.
  - simpl. intros [Heq|Hin] Hf; [discriminate|].
    rewrite Hex. cbn [Nat.eqb].
    apply exec_Some in Hex. destruct Hex as [Hr _].
    rewrite (IH fuel _ Hin); [reflexivity|lia].
Qed.

(** Nothing else is thrown by the loop. *)
Lemma execLoop_Threw fuel lastIndex e :
  execLoop E fuel p text lastIndex = Threw e -> e = invalidArrayLength.
Proof.
  revert lastIndex. induction fuel as [|fuel IH]; intros li; simpl;
    [discriminate|].
  destruct (regExpBuiltinExec E p text li) as [[j n]|]; [|discriminate].
  destruct (n =? 0); [now intros [= <-]|].
  destruct (execLoop E fuel p text (j + n)) as [qs|e'|] eqn:Hq;
    try discriminate.
  intros [= <-]. now apply IH in Hq.
Qed.
End RegExpLoops.

(* ===================================================================== *)
(** * Properties of findKeywordMatches *)
(* ===================================================================== *)

Section KeywordMatcherFacts.
Context (E : Engine).

Lemma scanKeyword_Returned fuel text kw m :
  scanKeyword E fuel text kw = Returned m ->
  exists p ps,
    compile E kw = Pattern p /\
    execLoop E fuel p text 0 = Returned ps /\
    m = {| keyword := kw;
           count := List.length (stringMatch E p text);
           positions := ps |}.
Proof.
  unfold scanKeyword. destruct (compile E kw) as [p|msg]; [|discriminate].
  destruct (execLoop E fuel p text 0) as [ps| |] eqn:Hps; try discriminate.
  intros [= <-]. exists p, ps. auto.
Qed.

Lemma scanKeyword_total fuel text kw :
  String.length text + 1 < fuel -> scanKeyword E fuel text kw <> OutOfFuel.
Proof.
  intros Hf. unfold scanKeyword.
  destruct (compile E kw) as [p|msg]; [|discriminate].
  pose proof (execLoop_total E p text fuel 0 ltac:(lia)) as Ht.
  now destruct (execLoop E fuel p text 0).
Qed.

Lemma scanKeyword_throws fuel text kw p j :
  String.length text + 1 < fuel ->
  compile E kw = Pattern p ->
  In (j, 0) (stringMatch E p text) ->
  scanKeyword E fuel text kw = Threw invalidArrayLength.
Proof.
  intros Hf Hc Hin. unfold scanKeyword. rewrite Hc.
  rewrite (execLoop_throws E p text fuel (String.length text + 2) 0 j);
    [reflexivity|assumption|lia].
Qed.

(** A keyword that compiles throws nothing but the exception of [push]. *)
Lemma scanKeyword_Threw fuel text kw e :
  compiles E kw -> scanKeyword E fuel text kw = Threw e ->
  e = invalidArrayLength.
Proof.
  intros [p Hp]. unfold scanKeyword. rewrite Hp.
  destruct (execLoop E fuel p text 0) as [ps|e'|] eqn:Hl; try discriminate.
  intros [= <-]. now apply execLoop_Threw in Hl.
Qed.

Lemma mapKeywords_Forall (P : KeywordMatch -> Prop) fuel text kws ms :
  (forall kw m, In kw kws -> scanKeyword E fuel text kw = Returned m -> P m) ->
  mapKeywords E fuel text kws = Returned ms ->
  Forall P ms.
Proof.
  revert ms. induction kws as [|kw kws IH]; intros ms HP; simpl.
  - intros [= <-]. constructor.
  - destruct (scanKeyword E fuel text kw) as [m| |] eqn:Hm; try discriminate.
    destruct (mapKeywords E fuel text kws) as [ms'| |]; try discriminate.
    intros [= <-]. constructor.
    + apply (HP kw); [now left | assumption].
    + apply IH; [|reflexivity]. intros k m' Hin. apply HP. now right.
Qed.

Lemma findKeywordMatches_Forall (P : KeywordMatch -> Prop) fuel text kws ms :
  (forall kw m, In kw kws -> scanKeyword E fuel text kw = Returned m -> P m) ->
  findKeywordMatches E fuel text kws = Returned ms ->
  Forall P ms.
Proof.
  intros HP. unfold findKeywordMatches.
  destruct (mapKeywords E fuel text kws) as [ms'| |] eqn:Hms; try discriminate.
  intros [= <-]. apply (mapKeywords_Forall P) in Hms; [|assumption].
  rewrite List.Forall_forall in *. intros m Hin.
  apply List.filter_In in Hin. now apply Hms.
Qed.

Lemma mapKeywords_returns fuel text kws :
  (forall kw, In kw kws -> scanKeyword E fuel text kw <> OutOfFuel) ->
  mapKeywords E fuel text kws <> OutOfFuel.
Proof.
  induction kws as [|kw kws IH]; intros H; simpl; [discriminate|].
  destruct (scanKeyword E fuel text kw) as [m| |] eqn:Hm.
  - destruct (mapKeywords E fuel text kws) eqn:Hr; try discriminate.
    exfalso. apply IH; [|reflexivity]. intros k Hin. apply H. now right.
  - discriminate.
  - exfalso. now apply (H kw); [left|].
Qed.

Lemma mapKeywords_total fuel text kws :
  String.length text + 1 < fuel -> mapKeywords E fuel text kws <> OutOfFuel.
Proof.
  intros Hf. apply mapKeywords_returns. intros kw _.
  now apply scanKeyword_total.
Qed.

Lemma findKeywordMatches_total fuel text kws :
  String.length text + 1 < fuel ->
  findKeywordMatches E fuel text kws <> OutOfFuel.
Proof.
  intros Hf. unfold findKeywordMatches.
  pose proof (mapKeywords_total fuel text kws Hf).
  now destruct (mapKeywords E fuel text kws).
Qed.

(** The keywords before the first one that throws the exception of [push]
    compile: they return a record, or throw the same exception first. *)
Lemma mapKeywords_throws fuel text pre kw rest :
  String.length text + 1 < fuel ->
  Forall (compiles E) pre ->
  scanKeyword E fuel text kw = Threw invalidArrayLength ->
  mapKeywords E fuel text (pre ++ kw :: rest) = Threw invalidArrayLength.
Proof.
  intros Hf Hpre Hkw. induction Hpre as [|k pre Hk _ IH]; simpl.
  - now rewrite Hkw.
  - destruct (scanKeyword E fuel text k) as [m|e|] eqn:Hm.
    + now rewrite IH.
    + now rewrite (scanKeyword_Threw fuel text k e Hk Hm).
    + exfalso. now apply (scanKeyword_total fuel text k).
Qed.

End KeywordMatcherFacts.

(** C5: every record that [findKeywordMatches] returns has as many
    positions as its count says, although [count] comes from [text.match]
    and [positions] from the separate [exec] loop. *)
Theorem positions_length_is_count :
  forall (E : Engine) (fuel : nat) (text : string) (kws : list string)
         (ms : list KeywordMatch),
    findKeywordMatches E fuel text kws = Returned ms ->
    Forall (fun m => List.length (positions m) = count m) ms.
Proof.
  intros E fuel text kws ms.
  apply findKeywordMatches_Forall. intros kw m _ Hm.
  apply scanKeyword_Returned in Hm. destruct Hm as (p & ps & _ & Hps & ->).
  simpl. unfold stringMatch.
  rewrite <- (execLoop_matchLoop E p text fuel (String.length text + 2) 0 ps);
    [|assumption|lia].
  now rewrite List.length_map.
Qed.

Lemma positions_length_is_count_witness :
  Forall (fun m => List.length (positions m) = count m)
    [{| keyword := "Cat"; count := 3; positions := [0; 4; 8] |};
     {| keyword := "a."; count := 3; positions := [1; 5; 9] |}].
Proof.
  apply (positions_length_is_count Fragment.engine 13 "cat CAT cAt"
           ["Cat"; "dog"; "a."]).
  vm_compute. reflexivity.
Defined.

(** C9: every record that [findKeywordMatches] returns has its positions in
    strictly increasing order. *)
Theorem positions_strictly_increasing :
  forall (E : Engine) (fuel : nat) (text : string) (kws : list string)
         (ms : list KeywordMatch),
    findKeywordMatches E fuel text kws = Returned ms ->
    Forall (fun m => StronglySorted lt (positions m)) ms.
Proof.
  intros E fuel text kws ms.
  apply findKeywordMatches_Forall. intros kw m _ Hm.
  apply scanKeyword_Returned in Hm. destruct Hm as (p & ps & _ & Hps & ->).
  simpl. now apply execLoop_increasing in Hps.
Qed.

Lemma positions_strictly_increasing_witness :
  Forall (fun m => StronglySorted lt (positions m))
    [{| keyword := "a+"; count := 3; positions := [1; 3; 6] |};
     {| keyword := "b"; count := 3; positions := [0; 2; 5] |}].
Proof.
  apply (positions_strictly_increasing Fragment.engine 12 "babaabaaa"
           ["a+"; "b"]).
  vm_compute. reflexivity.
Defined.




(* ===================================================================== *)
(** * Plain keywords on the reference engine *)
(* ===================================================================== *)

Lemma parseTerms_plain cs pending cur alts :
  forallb (fun c => negb (Fragment.isSyntaxCharacter c)) cs = true ->
  Fragment.parseTerms cs pending cur alts =
  Some (rev (rev (rev (literalTerms cs) ++ Fragment.flush pending cur) :: alts)).
Proof.
  revert pending cur. induction cs as [|c cs IH]; intros pending cur H.
  - reflexivity.
  - simpl in H. apply andb_prop in H. destruct H as [Hc Hcs].
    apply negb_true_iff in Hc.
    assert (Hs := Hc). unfold Fragment.isSyntaxCharacter in Hs. simpl in Hs.
    repeat (apply orb_false_elim in Hs; destruct Hs as [? Hs]).
    cbn [Fragment.parseTerms].
    repeat match goal with
           | H : Ascii.eqb c _ = false |- _ => rewrite H; clear H
           end.
    rewrite Hc. rewrite IH by assumption.
    simpl. rewrite <- app_assoc. reflexivity.
Qed.

Lemma matchTerms_literal kw s :
  Fragment.matchTerms (literalTerms kw) s =
  if ciPrefix kw s then Some (List.length kw) else None.
Proof.
  revert s. induction kw as [|k kw IH]; intros s.
  - reflexivity.
  - destruct s as [|c s]; [reflexivity|].
    cbn [literalTerms List.map Fragment.matchTerms ciPrefix Fragment.atomMatches].
    fold (literalTerms kw).
    destruct (Ascii.eqb (Fragment.canonicalize k) (Fragment.canonicalize c)); [|reflexivity].
    rewrite IH. simpl. destruct (ciPrefix kw s); reflexivity.
Qed.

Lemma ciPrefix_length kw s : ciPrefix kw s = true -> List.length kw <= List.length s.
Proof.
  revert s. induction kw as [|k kw IH]; intros [|c s]; simpl; try lia; try discriminate.
  intros H. apply andb_prop in H. destruct H as [_ H]. apply IH in H. lia.
Qed.

Lemma literalScan_skip kw k : forall s i,
  k <= List.length s ->
  literalScan kw s i k = literalScan kw (drop k s) (i + k) 0.
Proof.
  induction k as [|k IH]; intros s i Hk.
  - rewrite Nat.add_0_r. reflexivity.
  - destruct s as [|c s]; [simpl in Hk; lia|].
    simpl. rewrite IH by (simpl in Hk; lia). f_equal. lia.
Qed.

Lemma length_list_ascii_of_string s :
  List.length (list_ascii_of_string s) = String.length s.
Proof. induction s; simpl; congruence. Qed.

Lemma drop_cons_tail {A} (l : list A) i c s' :
  drop i l = c :: s' -> drop (S i) l = s'.
Proof.
  revert l. induction i as [|i IH]; intros [|x l]; simpl; try discriminate.
  - rewrite drop_0. now intros [= _ ->].
  - apply IH.
Qed.

Lemma isPlain_nonempty kw :
  isPlain kw = true -> 1 <= List.length (list_ascii_of_string kw).
Proof.
  unfold isPlain. intros H. apply andb_prop in H. destruct H as [Hne _].
  destruct kw; [discriminate | simpl; lia].
Qed.

Lemma compile_plain kw :
  isPlain kw = true ->
  compile Fragment.engine kw = Pattern (literalPattern kw).
Proof.
  unfold isPlain. intros H. apply andb_prop in H. destruct H as [_ Hcs].
  simpl. unfold Fragment.parsePattern, literalPattern.
  rewrite parseTerms_plain by assumption. simpl.
  rewrite app_nil_r, rev_involutive. reflexivity.
Qed.

Section LiteralKeyword.
Context (kw text : string).
Hypothesis Hplain : isPlain kw = true.

Lemma matchAt_literal i :
  matchAt Fragment.engine (literalPattern kw) text i =
  if (i <=? String.length text)
     && ciPrefix (list_ascii_of_string kw)
                 (drop i (list_ascii_of_string text))
  then Some (List.length (list_ascii_of_string kw)) else None.
Proof.
  simpl. destruct (i <=? String.length text); [|reflexivity].
  rewrite matchTerms_literal.
  now destruct (ciPrefix _ _).
Qed.

Lemma execLoop_literal n : forall li fuel,
  S (String.length text) - li <= n -> n < fuel ->
  execLoop Fragment.engine fuel (literalPattern kw) text li =
  Returned (literalScan (list_ascii_of_string kw)
                        (drop li (list_ascii_of_string text)) li 0).
Proof.
  set (kcs := list_ascii_of_string kw).
  set (cs := list_ascii_of_string text).
  assert (HL : List.length cs = String.length text)
    by apply length_list_ascii_of_string.
  pose proof (isPlain_nonempty kw Hplain) as Hk. fold kcs in Hk.
  induction n as [|n IH]; intros li fuel Hn Hf.
  - destruct fuel as [|fuel]; [lia|]. simpl.
    unfold regExpBuiltinExec.
    replace (S (String.length text) - li) with 0 by lia. simpl.
    rewrite drop_ge by lia. reflexivity.
  - destruct fuel as [|fuel]; [lia|].
    destruct (le_lt_dec li (String.length text)) as [Hle|Hgt].
    + cbn [execLoop]. unfold regExpBuiltinExec.
      replace (S (String.length text) - li)
        with (S (String.length text - li)) by lia.
      cbn [scanFrom]. rewrite matchAt_literal. fold kcs cs.
      replace (li <=? String.length text) with true
        by (symmetry; apply Nat.leb_le; lia).
      cbn [andb].
      destruct (ciPrefix kcs (drop li cs)) eqn:Hpre.
      * replace (List.length kcs =? 0) with false
          by (symmetry; apply Nat.eqb_neq; lia).
        rewrite (IH (li + List.length kcs) fuel) by lia.
        pose proof (ciPrefix_length _ _ Hpre) as Hlen.
        destruct (drop li cs) as [|c s'] eqn:Hd; [simpl in Hlen; lia|].
        cbn [literalScan]. rewrite Hpre.
        rewrite (literalScan_skip kcs (List.length kcs - 1) s' (S li))
          by (simpl in Hlen; lia).
        rewrite <- (drop_cons_tail _ _ _ _ Hd), drop_drop.
        replace (S li + (List.length kcs - 1)) with (li + List.length kcs)
          by lia.
        reflexivity.
      * specialize (IH (S li) (S fuel)).
        cbn [execLoop] in IH. unfold regExpBuiltinExec in IH.
        replace (S (String.length text) - S li)
          with (String.length text - li) in IH by lia.
        rewrite IH by lia.
        destruct (drop li cs) as [|c s'] eqn:Hd.
        -- rewrite drop_ge; [reflexivity|].
           apply (f_equal (@List.length ascii)) in Hd.
           rewrite length_drop in Hd. simpl in Hd. lia.
        -- cbn [literalScan]. rewrite Hpre.
           now rewrite (drop_cons_tail _ _ _ _ Hd).
    + cbn [execLoop]. unfold regExpBuiltinExec.
      replace (S (String.length text) - li) with 0 by lia. simpl.
      rewrite drop_ge by lia. reflexivity.
Qed.

Lemma scanKeyword_plain :
  scanKeyword Fragment.engine (String.length text + 2) text kw =
  Returned {| keyword := kw;
              count := List.length (literalOccurrences kw text);
              positions := literalOccurrences kw text |}.
Proof.
  pose proof (execLoop_literal (S (String.length text)) 0
                (String.length text + 2)) as Hex.
  rewrite drop_0 in Hex. specialize (Hex ltac:(lia) ltac:(lia)).
  pose proof (execLoop_matchLoop _ _ _ _ (String.length text + 2) _ _ Hex
                ltac:(lia)) as Hm.
  assert (Hcount : List.length (stringMatch Fragment.engine
                                            (literalPattern kw) text)
                   = List.length (literalOccurrences kw text)).
  { unfold literalOccurrences. rewrite <- Hm. unfold stringMatch.
    now rewrite List.length_map. }
  unfold scanKeyword. rewrite (compile_plain kw Hplain), Hex, Hcount.
  reflexivity.
Qed.
End LiteralKeyword.

Lemma mapKeywords_plain text kws :
  forallb isPlain kws = true ->
  mapKeywords Fragment.engine (String.length text + 2) text kws =
  Returned (List.map (fun kw =>
              let occ := literalOccurrences kw text in
              {| keyword := kw; count := List.length occ; positions := occ |})
            kws).
Proof.
  induction kws as [|kw kws IH]; intros H; [reflexivity|].
  simpl in H. apply andb_prop in H. destruct H as [Hkw Hkws].
  simpl. rewrite scanKeyword_plain by assumption.
  now rewrite IH.
Qed.

(** C3, amended: on the reference engine, for keywords that are not empty
    and have no syntax character of the pattern grammar, the matcher of the
    source returns what literal, case-insensitive, left-to-right,
    non-overlapping substring search returns.  Nothing is escaped: other
    keywords are read as patterns. *)
Theorem plain_keywords_are_literal :
  forall (text : string) (kws : list string),
    forallb isPlain kws = true ->
    findKeywordMatches Fragment.engine (String.length text + 2) text kws
    = Returned (literalKeywordMatches text kws).
Proof.
  intros text kws H. unfold findKeywordMatches.
  now rewrite mapKeywords_plain.
Qed.

(* ===================================================================== *)
(** * The scheduler *)
(* ===================================================================== *)

(** ** Identifiers *)

Lemma append_nil (y : string) : "" +:+ y = y.
Proof. reflexivity. Qed.

Lemma append_cons c (x y : string) : String c x +:+ y = String c (x +:+ y).
Proof. reflexivity. Qed.

Lemma hasDash_app x d : hasDash (x +:+ String "-" d) = true.
Proof.
  induction x as [|c x IH].
  - reflexivity.
  - rewrite append_cons. simpl. rewrite IH. apply orb_true_r.
Qed.

Lemma afterLastDash_app x d :
  hasDash d = false -> afterLastDash (x +:+ String "-" d) = d.
Proof.
  intros Hd. induction x as [|c x IH].
  - rewrite append_nil. simpl. now rewrite Hd.
  - rewrite append_cons. simpl. now rewrite hasDash_app.
Qed.

Lemma pretty_N_go_no_dash x s :
  hasDash s = false -> hasDash (pretty_N_go x s) = false.
Proof.
  revert s. induction (N.lt_wf_0 x) as [x _ IH]; intros s Hs.
  destruct (N.eq_dec x 0%N) as [->|Hx].
  - now rewrite pretty_N_go_0.
  - rewrite pretty_N_go_step by lia. apply IH.
    + apply N.div_lt; lia.
    + simpl. rewrite Hs. unfold pretty_N_char.
      repeat case_match; reflexivity.
Qed.

Lemma pretty_nat_no_dash (i : nat) : hasDash (pretty i) = false.
Proof.
  unfold pretty, pretty_nat, pretty, pretty_N.
  case_decide; [reflexivity|]. now apply pretty_N_go_no_dash.
Qed.

Lemma analysisId_index (prefix : string) (t : Z) (i : nat) :
  afterLastDash (prefix +:+ pretty t +:+ "-" +:+ pretty i) = pretty i.
Proof.
  change ("-" +:+ pretty i) with (String "-" (pretty i)).
  induction prefix as [|c prefix IH].
  - rewrite append_nil. apply afterLastDash_app, pretty_nat_no_dash.
  - rewrite append_cons. simpl. rewrite IH.
    assert (H : hasDash (prefix +:+ pretty t +:+ String "-" (pretty i)) = true).
    { clear IH. induction prefix as [|c' prefix IH].
      - rewrite append_nil. apply hasDash_app.
      - rewrite append_cons. simpl. rewrite IH. apply orb_true_r. }
    now rewrite H.
Qed.

(** * Updating one item of the list by its identifier *)

Lemma update_unique (g : PromptAnalysis -> PromptAnalysis) aid l1 x l2 :
  NoDup (List.map a_id (l1 ++ x :: l2)) ->
  a_id x = aid ->
  List.map (fun a => if String.eqb (a_id a) aid then g a else a)
           (l1 ++ x :: l2)
  = l1 ++ g x :: l2.
Proof.
  intros Hnd Hx. rewrite List.map_app. simpl.
  rewrite List.map_app in Hnd. simpl in Hnd.
  apply NoDup_app in Hnd. destruct Hnd as (Hl1 & Hdisj & Hxl2).
  apply NoDup_cons in Hxl2. destruct Hxl2 as [Hx2 _].
  rewrite Hx, String.eqb_refl. f_equal; [|f_equal].
  - rewrite <- (List.map_id l1) at 2. apply List.map_ext_in.
    intros a Ha. destruct (String.eqb_spec (a_id a) aid) as [Heq|]; [|reflexivity].
    exfalso. apply (Hdisj (a_id a)).
    + apply list_elem_of_In. now apply List.in_map.
    + rewrite Heq, <- Hx. left.
  - rewrite <- (List.map_id l2) at 2. apply List.map_ext_in.
    intros a Ha. destruct (String.eqb_spec (a_id a) aid) as [Heq|]; [|reflexivity].
    exfalso. apply Hx2. rewrite Hx, <- Heq.
    apply list_elem_of_In. now apply List.in_map.
Qed.

Lemma sameOutside_refl w : sameOutside w w.
Proof. unfold sameOutside; tauto. Qed.

Lemma sameOutside_trans w1 w2 w3 :
  sameOutside w1 w2 -> sameOutside w2 w3 -> sameOutside w1 w3.
Proof. unfold sameOutside. intuition congruence. Qed.

Section SchedulerFacts.
Context (E : Engine) (env : Env).

Lemma settled_id fuel kws aid prompt r t a :
  settled E fuel kws aid prompt r t = Some a ->
  a_id a = aid /\ a_prompt a = prompt /\ isTerminal a = true
  /\ itemInvariant a.
Proof.
  unfold settled. destruct r as [text|e].
  - destruct (findKeywordMatches E fuel text kws); intros [= <-];
      cbv; eauto 10.
  - intros [= <-]. cbv; eauto 10.
Qed.

Lemma processPrompt_run fuel kws prompt i aid w r w1 :
  processPrompt E env fuel kws prompt i aid w = (r, w1) ->
  r = settled E fuel kws aid prompt (provider env (calls w) prompt)
              (clock env (ticks w))
  /\ analyses (app w1) = markProcessing aid (analyses (app w))
  /\ history w1 = markProcessing aid (analyses (app w)) :: history w
  /\ calls w1 = S (calls w)
  /\ sameOutside w w1.
Proof.
  unfold processPrompt, settled, errorAnalysis, bind, setAnalyses,
    generateText, now, ret, noFuel. simpl.
  destruct (provider env (calls w) prompt) as [text|e].
  - destruct (findKeywordMatches E fuel text kws);
      intros [= <- <-]; simpl; unfold sameOutside; simpl; tauto.
  - intros [= <- <-]; simpl; unfold sameOutside; simpl; tauto.
Qed.

Lemma markProcessing_at aid results init rest :
  NoDup (List.map a_id (results ++ init :: rest)) ->
  a_id init = aid ->
  markProcessing aid (results ++ init :: rest)
  = results ++ withStatus init Processing :: rest.
Proof. intros. unfold markProcessing. now apply update_unique. Qed.

Lemma replaceById_at a results x rest :
  NoDup (List.map a_id (results ++ x :: rest)) ->
  a_id x = a_id a ->
  replaceById a (results ++ x :: rest) = results ++ a :: rest.
Proof.
  intros. unfold replaceById.
  now apply (update_unique (fun _ => a)).
Qed.

Lemma map_id_middle results (x y : PromptAnalysis) rest :
  a_id x = a_id y ->
  List.map a_id (results ++ x :: rest) = List.map a_id (results ++ y :: rest).
Proof. intros H. rewrite !List.map_app. simpl. now rewrite H. Qed.

Lemma itemInvariant_pending a : isFreshPending a -> itemInvariant a.
Proof. unfold isFreshPending, itemInvariant. intros (-> & ? & ? & ?). auto. Qed.

Lemma itemInvariant_processing a :
  isFreshPending a -> itemInvariant (withStatus a Processing).
Proof. unfold isFreshPending, itemInvariant. simpl. tauto. Qed.

(** The loop of [startAnalysis]. *)
Lemma processAll_run fuel kws : forall todo i results w r w',
  processAll E env fuel kws todo i results w = (r, w') ->
  analyses (app w) = results ++ List.map snd todo ->
  NoDup (List.map a_id (results ++ List.map snd todo)) ->
  sameOutside w w'
  /\ (exists new,
        history w' = new ++ history w
        /\ (Forall itemInvariant results ->
            Forall isFreshPending (List.map snd todo) ->
            Forall (Forall itemInvariant) new))
  /\ (forall final, r = Some final ->
        analyses (app w') = final
        /\ calls w' = calls w + List.length todo
        /\ exists news,
             final = results ++ news
             /\ List.length news = List.length todo
             /\ forall k p init, todo !! k = Some (p, init) ->
                  exists a t,
                    news !! k = Some a
                    /\ settled E fuel kws (a_id init) p
                         (provider env (calls w + k) p) t = Some a)
  /\ ((forall k p init text,
         todo !! k = Some (p, init) ->
         provider env (calls w + k) p = Resolved text ->
         findKeywordMatches E fuel text kws <> OutOfFuel) ->
      is_Some r).
Proof.
  induction todo as [|[p init] rest IH]; intros i results w r w' Hrun Han Hnd.
  - simpl in Hrun. injection Hrun as <- <-.
    split; [apply sameOutside_refl|]. split; [|split].
    + exists []. split; [reflexivity|]. intros; constructor.
    + intros final [= <-]. simpl in Han. rewrite app_nil_r in Han.
      split; [assumption|]. split; [simpl; lia|].
      exists []. rewrite app_nil_r. split; [reflexivity|].
      split; [reflexivity|]. intros k q a Hk. discriminate.
    + intros _. eauto.
  - simpl in Han, Hnd.
    cbn [processAll] in Hrun. unfold bind at 1 in Hrun.
    destruct (processPrompt E env fuel kws p i (a_id init) w)
      as [r1 w1] eqn:Hpp.
    apply processPrompt_run in Hpp.
    destruct Hpp as (Hr1 & Han1 & Hh1 & Hc1 & Hout1).
    rewrite Han in Han1, Hh1.
    rewrite (markProcessing_at (a_id init)) in Han1, Hh1 by auto.
    destruct r1 as [a|].
    + (* the item settled *)
      symmetry in Hr1. pose proof (settled_id _ _ _ _ _ _ _ Hr1)
        as (Hid & Hprompt & Hterm & Hinv).
      unfold bind at 1 in Hrun. unfold setAnalyses at 1 in Hrun.
      cbn beta iota zeta in Hrun.
      match type of Hrun with
      | processAll _ _ _ _ _ _ _ ?w2 = _ => set (w2' := w2) in Hrun
      end.
      assert (Hnd1 : NoDup (List.map a_id
                (results ++ withStatus init Processing :: List.map snd rest))).
      { now rewrite (map_id_middle _ _ init). }
      assert (Han2 : analyses (app w2')
                     = (results ++ [a]) ++ List.map snd rest).
      { subst w2'. simpl. rewrite Han1.
        rewrite replaceById_at by (auto; now rewrite Hid).
        now rewrite <- app_assoc. }
      assert (Hnd2 : NoDup (List.map a_id
                ((results ++ [a]) ++ List.map snd rest))).
      { rewrite <- app_assoc. simpl.
        now rewrite (map_id_middle _ _ init). }
      destruct (IH (S i) (results ++ [a]) w2' r w' Hrun Han2 Hnd2)
        as (Hout & (new & Hhist & Hnew) & Hfinal & Hret).
      assert (Hout2 : sameOutside w w2').
      { subst w2'. unfold sameOutside in *. simpl. tauto. }
      split; [eapply sameOutside_trans; eassumption|].
      split; [|split].
      * exists (new ++ [analyses (app w2'); analyses (app w1)]).
        split.
        { rewrite Hhist. subst w2'. simpl. rewrite Hh1, Han1.
          now rewrite <- app_assoc. }
        intros Hres Hpend. apply Forall_cons in Hpend.
        destruct Hpend as [Hinit Hpend].
        apply Forall_app. split.
        { apply Hnew; [|assumption].
          apply Forall_app. split; [assumption|]. now constructor. }
        constructor; [|constructor; [|constructor]].
        -- rewrite Han2. apply Forall_app. split.
           ++ apply Forall_app. split; [assumption|]. now constructor.
           ++ eapply List.Forall_impl; [|exact Hpend].
              apply itemInvariant_pending.
        -- rewrite Han1. apply Forall_app. split; [assumption|].
           constructor; [now apply itemInvariant_processing|].
           eapply List.Forall_impl; [|exact Hpend].
           apply itemInvariant_pending.
      * intros final Hf. destruct (Hfinal final Hf)
          as (Hanf & Hcalls & news & Hfin & Hlen & Hnews).
        split; [assumption|]. split.
        { rewrite Hcalls. subst w2'. simpl. rewrite Hc1. simpl. lia. }
        exists (a :: news). split; [now rewrite Hfin, <- app_assoc|].
        split; [simpl; lia|].
        intros [|k] q x Hk.
        -- injection Hk as <- <-. rewrite Nat.add_0_r.
           exists a, (clock env (ticks w)). split; [reflexivity|assumption].
        -- simpl in Hk. destruct (Hnews k q x Hk) as (b & t & Hb & Hs).
           exists b, t. split; [assumption|].
           replace (calls w + S k) with (calls w2' + k); [assumption|].
           subst w2'. simpl. rewrite Hc1. lia.
      * intros Hprov. apply Hret. intros k q x text Hk Hp.
        apply (Hprov (S k) q x text); [assumption|].
        replace (calls w + S k) with (calls w2' + k); [assumption|].
        subst w2'. simpl. rewrite Hc1. lia.
    + (* the keyword scan ran out of fuel *)
      injection Hrun as <- <-.
      split; [assumption|]. split; [|split].
      * exists [analyses (app w1)]. split; [now rewrite Hh1, Han1|].
        intros Hres Hpend. apply Forall_cons in Hpend.
        destruct Hpend as [Hinit Hpend].
        constructor; [|constructor]. rewrite Han1.
        apply Forall_app. split; [assumption|].
        constructor; [now apply itemInvariant_processing|].
        eapply List.Forall_impl; [|exact Hpend].
        apply itemInvariant_pending.
      * intros final [=].
      * intros Hprov. exfalso. unfold settled in Hr1.
        destruct (provider env (calls w) p) as [text|e] eqn:Hp;
          [|discriminate].
        specialize (Hprov 0 p init text eq_refl).
        rewrite Nat.add_0_r in Hprov. specialize (Hprov Hp).
        destruct (findKeywordMatches E fuel text kws); congruence.
Qed.

Lemma settled_records fuel kws aid prompt r t a :
  settled E fuel kws aid prompt r t = Some a ->
  a_prompt a = prompt /\ records E fuel kws r a.
Proof.
  unfold settled, records. destruct r as [text|e].
  - destruct (findKeywordMatches E fuel text kws) as [ms|e|] eqn:Hscan;
      intros [= <-]; simpl; (split; [reflexivity|]).
    + auto.
    + split; [reflexivity|]. split; [reflexivity|].
      exists e. split; [reflexivity|]. right. eauto.
  - intros [= <-]. simpl. split; [reflexivity|].
    split; [reflexivity|]. split; [reflexivity|].
    exists e. split; [reflexivity|]. now left.
Qed.

(** A property of the items by their place in the list holds of a list
    made of three parts when it holds of each part. *)
Lemma placed_middle (P : nat -> PromptAnalysis -> Prop) results x rest :
  (forall k a, results !! k = Some a -> P k a) ->
  P (List.length results) x ->
  (forall k a, rest !! k = Some a -> P (List.length results + S k) a) ->
  forall k a, (results ++ x :: rest) !! k = Some a -> P k a.
Proof.
  intros Hres Hx Hrest k a Hk.
  apply lookup_app_Some in Hk. destruct Hk as [Hk|[Hge Hk]]; [now apply Hres|].
  destruct (k - List.length results) as [|j] eqn:Hj.
  - injection Hk as <-. replace k with (List.length results) by lia.
    assumption.
  - simpl in Hk. replace k with (List.length results + S j) by lia.
    now apply Hrest.
Qed.

(** The values that the loop of [startAnalysis] gives the [analyses]
    state, for a property [P] of the items by their place in the list. *)
Lemma processAll_states fuel kws (P : nat -> PromptAnalysis -> Prop) :
  forall todo i results w r w',
  processAll E env fuel kws todo i results w = (r, w') ->
  analyses (app w) = results ++ List.map snd todo ->
  NoDup (List.map a_id (results ++ List.map snd todo)) ->
  (forall k a, results !! k = Some a -> P k a) ->
  (forall k p init, todo !! k = Some (p, init) ->
     P (List.length results + k) init
     /\ P (List.length results + k) (withStatus init Processing)
     /\ forall a t,
          settled E fuel kws (a_id init) p (provider env (calls w + k) p) t
          = Some a ->
          P (List.length results + k) a) ->
  exists new,
    history w' = new ++ history w
    /\ hd_error (new ++ [analyses (app w)]) = Some (analyses (app w'))
    /\ Forall (fun items =>
         List.length items = List.length results + List.length todo
         /\ forall k a, items !! k = Some a -> P k a) new.
Proof.
  induction todo as [|[p init] rest IH];
    intros i results w r w' Hrun Han Hnd Hres Htodo.
  - simpl in Hrun. injection Hrun as <- <-.
    exists []. split; [reflexivity|]. split; [reflexivity|constructor].
  - simpl in Han, Hnd.
    cbn [processAll] in Hrun. unfold bind at 1 in Hrun.
    destruct (processPrompt E env fuel kws p i (a_id init) w)
      as [r1 w1] eqn:Hpp.
    apply processPrompt_run in Hpp.
    destruct Hpp as (Hr1 & Han1 & Hh1 & Hc1 & Hout1).
    rewrite Han in Han1, Hh1.
    rewrite (markProcessing_at (a_id init)) in Han1, Hh1 by auto.
    destruct (Htodo 0 p init eq_refl) as (Hinit & Hproc & Hset).
    rewrite Nat.add_0_r in Hinit, Hproc. rewrite !Nat.add_0_r in Hset.
    assert (Hrest : forall k a, List.map snd rest !! k = Some a ->
                                P (List.length results + S k) a).
    { intros k a Hk. rewrite list_lookup_fmap in Hk.
      destruct (rest !! k) as [[q x]|] eqn:Hq; [|discriminate].
      injection Hk as <-. now apply (Htodo (S k) q x). }
    assert (Hstate1 :
              List.length (analyses (app w1))
              = List.length results + List.length ((p, init) :: rest)
              /\ forall k a, analyses (app w1) !! k = Some a -> P k a).
    { rewrite Han1. split.
      - rewrite length_app. simpl. now rewrite List.length_map.
      - now apply placed_middle. }
    destruct r1 as [a|].
    + symmetry in Hr1. pose proof (settled_id _ _ _ _ _ _ _ Hr1)
        as (Hid & _ & _ & _).
      unfold bind at 1 in Hrun. unfold setAnalyses at 1 in Hrun.
      cbn beta iota zeta in Hrun.
      match type of Hrun with
      | processAll _ _ _ _ _ _ _ ?w2 = _ => set (w2' := w2) in Hrun
      end.
      assert (Hnd1 : NoDup (List.map a_id
                (results ++ withStatus init Processing :: List.map snd rest))).
      { now rewrite (map_id_middle _ _ init). }
      assert (Han2 : analyses (app w2')
                     = (results ++ [a]) ++ List.map snd rest).
      { subst w2'. simpl. rewrite Han1.
        rewrite replaceById_at by (auto; now rewrite Hid).
        now rewrite <- app_assoc. }
      assert (Hnd2 : NoDup (List.map a_id
                ((results ++ [a]) ++ List.map snd rest))).
      { rewrite <- app_assoc. simpl.
        now rewrite (map_id_middle _ _ init). }
      assert (Hc2 : calls w2' = S (calls w)).
      { subst w2'. simpl. exact Hc1. }
      assert (Hlen2 : List.length (results ++ [a]) = S (List.length results)).
      { rewrite length_app. simpl. lia. }
      destruct (IH (S i) (results ++ [a]) w2' r w' Hrun Han2 Hnd2)
        as (new & Hhist & Hhead & Hnew).
      { intros k x Hk. apply lookup_app_Some in Hk.
        destruct Hk as [Hk|[Hge Hk]]; [now apply Hres|].
        destruct (k - List.length results) as [|j] eqn:Hj; [|discriminate].
        injection Hk as <-. replace k with (List.length results) by lia.
        now apply (Hset a (clock env (ticks w))). }
      { intros k q x Hk. rewrite Hlen2, Hc2.
        replace (S (List.length results) + k)
          with (List.length results + S k) by lia.
        replace (S (calls w) + k) with (calls w + S k) by lia.
        now apply (Htodo (S k) q x). }
      exists (new ++ [analyses (app w2'); analyses (app w1)]).
      split.
      { rewrite Hhist. subst w2'. simpl. rewrite Hh1, Han1.
        now rewrite <- app_assoc. }
      split.
      { rewrite <- Hhead. now destruct new. }
      apply Forall_app. split.
      { eapply List.Forall_impl; [|exact Hnew]. cbv beta.
        intros items [Hl Hp]. split; [|exact Hp].
        rewrite Hl, Hlen2. simpl. lia. }
      constructor; [|constructor; [exact Hstate1|constructor]].
      rewrite Han2, <- app_assoc. simpl. split.
      * rewrite length_app. simpl. now rewrite List.length_map.
      * apply placed_middle; [assumption| |assumption].
        now apply (Hset a (clock env (ticks w))).
    + injection Hrun as <- <-.
      exists [analyses (app w1)]. split; [now rewrite Hh1, Han1|].
      split; [reflexivity|].
      constructor; [exact Hstate1|constructor].
Qed.
End SchedulerFacts.

Lemma map_snd_combine {A B} (l : list A) (l' : list B) :
  List.length l = List.length l' -> List.map snd (combine l l') = l'.
Proof.
  revert l'. induction l as [|x l IH]; intros [|y l']; simpl; try discriminate.
  - reflexivity.
  - intros [= H]. now rewrite IH.
Qed.

Lemma combine_lookup {A B} (l : list A) (l' : list B) k x y :
  combine l l' !! k = Some (x, y) <-> l !! k = Some x /\ l' !! k = Some y.
Proof.
  revert l' k. induction l as [|a l IH]; intros [|b l'] [|k]; simpl;
    try (split; [discriminate | intros [? ?]; discriminate]).
  - split; [intros [= <- <-]; auto | intros [[= <-] [= <-]]; reflexivity].
  - apply IH.
Qed.

Section StartFacts.
Context (E : Engine) (env : Env).

Lemma initialAnalysesFrom_run : forall ps index w,
  exists items w',
    initialAnalysesFrom env ps index w = (Some items, w')
    /\ app w' = app w /\ batch w' = batch w /\ calls w' = calls w
    /\ history w' = history w
    /\ List.map a_prompt items = ps
    /\ Forall isFreshPending items
    /\ forall k a, items !! k = Some a ->
         afterLastDash (a_id a) = pretty (index + k).
Proof.
  induction ps as [|p ps IH]; intros index w.
  - exists [], w. simpl. unfold ret. repeat split; auto.
    intros k a Hk. discriminate.
  - cbn [initialAnalysesFrom]. unfold bind at 1. unfold now at 1.
    cbn beta iota. unfold bind at 1. unfold now at 1. cbn beta iota.
    unfold bind at 1.
    match goal with
    | |- context [initialAnalysesFrom env ps (S index) ?w1] =>
        destruct (IH (S index) w1)
          as (items & w' & Hrun & Happ & Hbatch & Hcalls & Hhist & Hps
              & Hfresh & Hids)
    end.
    rewrite Hrun. unfold ret.
    eexists _, w'. split; [reflexivity|].
    simpl in Happ, Hbatch, Hcalls, Hhist.
    do 4 (split; [assumption|]).
    split; [simpl; now rewrite Hps|].
    split.
    + constructor; [|assumption]. unfold isFreshPending. simpl. auto.
    + intros [|k] a Hk.
      * injection Hk as <-. simpl a_id. rewrite Nat.add_0_r.
        apply analysisId_index.
      * simpl in Hk. rewrite (Hids k a Hk). f_equal. lia.
Qed.

Lemma initial_ids_NoDup (items : list PromptAnalysis) index :
  (forall k a, items !! k = Some a ->
     afterLastDash (a_id a) = pretty (index + k)) ->
  NoDup (List.map a_id items).
Proof.
  intros Hids. apply NoDup_alt. intros i j x Hi Hj.
  rewrite list_lookup_fmap in Hi, Hj.
  destruct (items !! i) as [a|] eqn:Ha; [|discriminate].
  destruct (items !! j) as [b|] eqn:Hb; [|discriminate].
  simpl in Hi, Hj. injection Hi as Hi. injection Hj as Hj.
  apply Hids in Ha, Hb. rewrite Hi in Ha. rewrite Hj in Hb.
  rewrite Ha in Hb. apply (inj pretty) in Hb. lia.
Qed.


Lemma startAnalysis_idle fuel w :
  canStart w = false -> startAnalysis E env fuel w = (Some tt, w).
Proof.
  unfold canStart, startAnalysis, bind, getApp. intros H.
  apply negb_false_iff in H. now rewrite H.
Qed.

Lemma startAnalysis_run fuel w r w' :
  canStart w = true ->
  startAnalysis E env fuel w = (r, w') ->
  prompts (app w') = prompts (app w)
  /\ keywords (app w') = keywords (app w)
  /\ batch w' = batch w
  /\ (exists new,
        history w' = new ++ history w
        /\ Forall (Forall itemInvariant) new)
  /\ (exists s,
        currentSession (app w') = Some s
        /\ s_id s = "session-" +:+ pretty (clock env (ticks w))
        /\ s_prompts s = prompts (app w)
        /\ s_keywords s = keywords (app w)
        /\ match r with
           | Some _ =>
               s_status s = SessionCompleted
               /\ is_Some (s_endTime s)
               /\ isRunning (app w') = false
               /\ analyses (app w') = s_results s
               /\ calls w' = calls w + List.length (prompts (app w))
               /\ List.length (s_results s) = List.length (prompts (app w))
               /\ forall k p, prompts (app w) !! k = Some p ->
                    exists a aid t,
                      s_results s !! k = Some a
                      /\ settled E fuel (keywords (app w)) aid p
                           (provider env (calls w + k) p) t = Some a
           | None => s_status s = Running /\ isRunning (app w') = true
           end)
  /\ ((forall k p text,
         prompts (app w) !! k = Some p ->
         provider env (calls w + k) p = Resolved text ->
         findKeywordMatches E fuel text (keywords (app w)) <> OutOfFuel) ->
      r = Some tt).
Proof.
  unfold canStart. intros Hgo Hrun. apply negb_true_iff in Hgo.
  unfold startAnalysis in Hrun. unfold bind at 1 in Hrun.
  unfold getApp at 1 in Hrun. cbn beta iota in Hrun. rewrite Hgo in Hrun.
  unfold bind at 1, setIsRunning at 1, modifyApp at 1 in Hrun.
  cbn beta iota in Hrun.
  unfold bind at 1, now at 1 in Hrun. cbn beta iota in Hrun.
  unfold bind at 1, now at 1 in Hrun. cbn beta iota in Hrun.
  unfold bind at 1, setCurrentSession at 1, modifyApp at 1 in Hrun.
  cbn beta iota in Hrun.
  unfold bind at 1 in Hrun.
  match type of Hrun with
  | context [initialAnalysesFrom env ?ps 0 ?w1] =>
      destruct (initialAnalysesFrom_run ps 0 w1)
        as (items & w2 & Hinit & Happ2 & Hbatch2 & Hcalls2 & Hhist2 & Hps
            & Hfresh & Hids)
  end.
  rewrite Hinit in Hrun. cbn beta iota in Hrun.
  unfold bind at 1, setAnalyses at 1 in Hrun. cbn beta iota zeta in Hrun.
  unfold bind at 1 in Hrun.
  match type of Hrun with
  | context [processAll E env fuel ?kws ?todo 0 [] ?w3] =>
      set (w3' := w3) in Hrun;
      destruct (processAll E env fuel kws todo 0 [] w3')
        as [rs w4] eqn:Hall
  end.
  cbn [app prompts keywords] in Happ2, Hbatch2, Hcalls2, Hhist2.
  assert (Hlen : List.length (prompts (app w)) = List.length items).
  { rewrite <- Hps. now rewrite List.length_map. }
  apply processAll_run in Hall.
  2:{ subst w3'. simpl. now rewrite map_snd_combine. }
  2:{ simpl. rewrite map_snd_combine by assumption.
      now apply initial_ids_NoDup with 0. }
  destruct Hall as (Hout & (new & Hhist & Hnew) & Hfinal & Hret).
  assert (Hout3 : prompts (app w3') = prompts (app w)
                  /\ keywords (app w3') = keywords (app w)
                  /\ batch w3' = batch w
                  /\ history w3' = items :: history w
                  /\ calls w3' = calls w).
  { subst w3'. simpl. rewrite Happ2, Hbatch2, Hhist2, Hcalls2. simpl. tauto. }
  destruct Hout3 as (Hp3 & Hk3 & Hb3 & Hh3 & Hc3).
  destruct Hout as (Hp4 & Hk4 & Hr4 & Hs4 & Hb4).
  assert (Hhistory : exists new',
             history w4 = new' ++ history w
             /\ Forall (Forall itemInvariant) new').
  { exists (new ++ [items]). split.
    - rewrite Hhist, Hh3. now rewrite <- app_assoc.
    - apply Forall_app. split.
      + apply Hnew; [constructor|].
        now rewrite map_snd_combine by assumption.
      + constructor; [|constructor].
        eapply List.Forall_impl; [|exact Hfresh].
        apply itemInvariant_pending. }
  assert (Hs3 : exists s,
             currentSession (app w3') = Some s
             /\ s_id s = "session-" +:+ pretty (clock env (ticks w))
             /\ s_prompts s = prompts (app w)
             /\ s_keywords s = keywords (app w)
             /\ s_status s = Running).
  { subst w3'. simpl. rewrite Happ2. simpl. eexists. split; [reflexivity|].
    simpl. tauto. }
  destruct Hs3 as (s3 & Hcur3 & Hid3 & Hsp3 & Hsk3 & Hst3).
  assert (Hrun3 : isRunning (app w3') = true).
  { subst w3'. simpl. rewrite Happ2. reflexivity. }
  destruct rs as [results|].
  - (* the loop came back *)
    cbn beta iota in Hrun.
    unfold bind at 1, now at 1 in Hrun. cbn beta iota in Hrun.
    unfold bind at 1, setCurrentSession at 1, modifyApp at 1 in Hrun.
    cbn beta iota in Hrun.
    unfold setIsRunning, modifyApp in Hrun.
    injection Hrun as <- <-. simpl.
    destruct (Hfinal results eq_refl)
      as (Hanf & Hcalls & news & Hfin & Hlenn & Hnews).
    simpl in Hfin. subst news.
    rewrite Hs4, Hcur3. simpl.
    split; [congruence|]. split; [congruence|]. split; [congruence|].
    split; [assumption|]. split.
    + eexists. split; [reflexivity|]. simpl.
      split; [assumption|]. split; [assumption|]. split; [assumption|].
      split; [reflexivity|]. split; [eauto|]. split; [reflexivity|].
      split; [assumption|].
      split.
      { rewrite Hcalls, Hc3. rewrite List.length_combine. lia. }
      split.
      { rewrite Hlenn, List.length_combine. lia. }
      intros k p Hk.
      destruct (items !! k) as [init|] eqn:Hik.
      2:{ apply lookup_ge_None in Hik. apply lookup_lt_Some in Hk. lia. }
      destruct (Hnews k p init) as (a & t & Ha & Hset).
      { apply combine_lookup. auto. }
      exists a, (a_id init), t. split; [assumption|].
      now rewrite <- Hc3.
    + intros _. reflexivity.
  - (* a keyword scan ran out of fuel *)
    injection Hrun as <- <-.
    split; [congruence|]. split; [congruence|]. split; [congruence|].
    split; [assumption|]. split.
    + exists s3. rewrite Hs4, Hr4. tauto.
    + intros Hprov. exfalso.
      assert (is_Some (@None (list PromptAnalysis))) as [? [=]].
      apply Hret. intros k p init text Hk Hp.
      apply combine_lookup in Hk. destruct Hk as [Hk _].
      rewrite Hc3 in Hp.
      now apply (Hprov k p text).
Qed.

Lemma runFuel_enough fuel : forall ps c k p text,
  runFuel env c ps <= fuel ->
  ps !! k = Some p ->
  provider env (c + k) p = Resolved text ->
  String.length text + 1 < fuel.
Proof.
  induction ps as [|q ps IH]; intros c k p text Hf Hk Hp; [discriminate|].
  simpl in Hf. destruct k as [|k].
  - injection Hk as ->. rewrite Nat.add_0_r in Hp. rewrite Hp in Hf. lia.
  - simpl in Hk. apply (IH (S c) k p text); [lia|assumption|].
    now replace (S c + k) with (c + S k) by lia.
Qed.

(** With enough fuel a run that may start comes back. *)
Lemma startAnalysis_returns fuel w :
  canStart w = true ->
  runFuel env (calls w) (prompts (app w)) <= fuel ->
  exists w', startAnalysis E env fuel w = (Some tt, w').
Proof.
  intros Hgo Hf. destruct (startAnalysis E env fuel w) as [r w'] eqn:Hrun.
  exists w'. f_equal.
  apply startAnalysis_run in Hrun; [|assumption].
  destruct Hrun as (_ & _ & _ & _ & _ & Hret). apply Hret.
  intros k p text Hk Hp. apply findKeywordMatches_total.
  now apply (runFuel_enough fuel (prompts (app w)) (calls w) k p text).
Qed.

(** Every value that a run gives the [analyses] state. *)
Lemma startAnalysis_states fuel w :
  canStart w = true ->
  exists new,
    history (snd (startAnalysis E env fuel w)) = new ++ history w
    /\ hd_error new = Some (analyses (app (snd (startAnalysis E env fuel w))))
    /\ Forall (runState E env fuel (keywords (app w)) (prompts (app w))
                        (calls w)) new.
Proof.
  unfold canStart. intros Hgo. apply negb_true_iff in Hgo.
  destruct (startAnalysis E env fuel w) as [r w'] eqn:Hrun.
  unfold startAnalysis in Hrun. unfold bind at 1 in Hrun.
  unfold getApp at 1 in Hrun. cbn beta iota in Hrun. rewrite Hgo in Hrun.
  unfold bind at 1, setIsRunning at 1, modifyApp at 1 in Hrun.
  cbn beta iota in Hrun.
  unfold bind at 1, now at 1 in Hrun. cbn beta iota in Hrun.
  unfold bind at 1, now at 1 in Hrun. cbn beta iota in Hrun.
  unfold bind at 1, setCurrentSession at 1, modifyApp at 1 in Hrun.
  cbn beta iota in Hrun.
  unfold bind at 1 in Hrun.
  match type of Hrun with
  | context [initialAnalysesFrom env ?ps 0 ?w1] =>
      destruct (initialAnalysesFrom_run ps 0 w1)
        as (items & w2 & Hinit & Happ2 & Hbatch2 & Hcalls2 & Hhist2 & Hps
            & Hfresh & Hids)
  end.
  rewrite Hinit in Hrun. cbn beta iota in Hrun.
  unfold bind at 1, setAnalyses at 1 in Hrun. cbn beta iota zeta in Hrun.
  unfold bind at 1 in Hrun.
  match type of Hrun with
  | context [processAll E env fuel ?kws ?todo 0 [] ?w3] =>
      set (w3' := w3) in Hrun;
      destruct (processAll E env fuel kws todo 0 [] w3')
        as [rs w4] eqn:Hall
  end.
  cbn [app prompts keywords] in Happ2, Hbatch2, Hcalls2, Hhist2.
  assert (Hlen : List.length (prompts (app w)) = List.length items).
  { rewrite <- Hps. now rewrite List.length_map. }
  assert (Hh3 : history w3' = items :: history w).
  { subst w3'. simpl. now rewrite Hhist2. }
  assert (Hc3 : calls w3' = calls w).
  { subst w3'. simpl. now rewrite Hcalls2. }
  assert (Hplace : forall k init, items !! k = Some init ->
            prompts (app w) !! k = Some (a_prompt init)
            /\ isFreshPending init).
  { intros k init Hk. split.
    - rewrite <- Hps, list_lookup_fmap, Hk. reflexivity.
    - rewrite List.Forall_forall in Hfresh. apply Hfresh.
      apply list_elem_of_In. now apply list_elem_of_lookup_2 with k. }
  set (P := fun k a =>
         exists p, prompts (app w) !! k = Some p /\ a_prompt a = p
                   /\ records E fuel (keywords (app w))
                              (provider env (calls w + k) p) a).
  assert (Hfreshrec : forall k init, items !! k = Some init ->
            P k init /\ P k (withStatus init Processing)).
  { intros k init Hk. destruct (Hplace k init Hk) as [Hp (Hst & Hr & He & Hm)].
    split; exists (a_prompt init); (split; [assumption|]);
      (split; [reflexivity|]); unfold records; simpl;
      [rewrite Hst|]; auto. }
  apply (processAll_states E env fuel _ P) in Hall.
  2:{ subst w3'. simpl. now rewrite map_snd_combine. }
  2:{ simpl. rewrite map_snd_combine by assumption.
      now apply initial_ids_NoDup with 0. }
  2:{ intros k a Hk. discriminate. }
  2:{ intros k p init Hk. apply combine_lookup in Hk.
      destruct Hk as [Hkp Hki]. simpl.
      destruct (Hfreshrec k init Hki) as [H1 H2].
      split; [assumption|]. split; [assumption|].
      intros a t Hset. apply settled_records in Hset.
      destruct Hset as [Hpa Hrec].
      exists p. split; [assumption|]. split; [assumption|].
      now rewrite <- Hc3. }
  destruct Hall as (new & Hhist & Hhead & Hnew).
  assert (Han3 : analyses (app w3') = items) by reflexivity.
  rewrite Han3 in Hhead.
  assert (Hh4 : history w' = history w4
                /\ analyses (app w') = analyses (app w4)).
  { destruct rs as [results|].
    - cbn beta iota in Hrun.
      unfold bind at 1, now at 1 in Hrun. cbn beta iota in Hrun.
      unfold bind at 1, setCurrentSession at 1, modifyApp at 1 in Hrun.
      cbn beta iota in Hrun.
      unfold setIsRunning, modifyApp in Hrun.
      injection Hrun as <- <-. split; reflexivity.
    - injection Hrun as <- <-. split; reflexivity. }
  destruct Hh4 as [Hh4 Han4].
  exists (new ++ [items]). simpl. split; [|split].
  - rewrite Hh4, Hhist, Hh3. now rewrite <- app_assoc.
  - now rewrite Han4.
  - apply Forall_app. split.
    + eapply List.Forall_impl; [|exact Hnew]. cbv beta.
      intros l [Hl HP]. split; [|exact HP].
      rewrite Hl. simpl. rewrite List.length_combine. lia.
    + constructor; [|constructor]. split; [now symmetry|].
      intros k a Hk. now apply Hfreshrec.
Qed.
End StartFacts.

(* ===================================================================== *)
(** * Analytics *)
(* ===================================================================== *)

Lemma fold_left_lengths (items : list PromptAnalysis) (acc : nat) :
  fold_left (fun sum a => sum + String.length (a_response a)) items acc
  = acc + totalLength items.
Proof.
  revert acc. induction items as [|a items IH]; intros acc; simpl.
  - unfold totalLength. simpl. lia.
  - rewrite IH. unfold totalLength. simpl. lia.
Qed.

Lemma totalLength_completed (items : list PromptAnalysis) :
  Forall itemInvariant items ->
  totalLength items = totalLength (completedItems items).
Proof.
  unfold totalLength, completedItems.
  induction 1 as [|a items Ha _ IH]; [reflexivity|].
  simpl. unfold itemInvariant in Ha.
  destruct (a_status a); simpl; rewrite IH.
  - destruct Ha as (Hr & _). now rewrite Hr.
  - destruct Ha as (Hr & _). now rewrite Hr.
  - reflexivity.
  - destruct Ha as (_ & Hr & _). now rewrite Hr.
Qed.

Lemma roundDiv_0 (n : nat) : 0 < n -> roundDiv 0 n = 0.
Proof. intros Hn. unfold roundDiv. apply Nat.div_small. lia. Qed.

(** C1 as claimed fails: with responses of 22, 0 and 22 characters, the
    second item in error, the average shown is 15 and not 22. *)
Lemma average_divides_by_all_items :
  averageResponseLength (analytics 0 scenarioItems None) = 15
  /\ meanCompletedLength scenarioItems = 22
  /\ averageResponseLength (analytics 0 scenarioItems None)
     <> meanCompletedLength scenarioItems.
Proof. vm_compute. repeat split; discriminate. Qed.

Lemma roundDiv_nearest (sum n : nat) :
  0 < n ->
  2 * n * roundDiv sum n <= 2 * sum + n < 2 * n * (roundDiv sum n + 1).
Proof.
  intros Hn. unfold roundDiv.
  pose proof (Nat.div_mod_eq (2 * sum + n) (2 * n)).
  pose proof (Nat.mod_upper_bound (2 * sum + n) (2 * n) ltac:(lia)).
  lia.
Qed.

(** Dividing by more items does not give a larger rounded quotient. *)
Lemma roundDiv_antitone (sum m n : nat) :
  0 < m -> m <= n -> roundDiv sum n <= roundDiv sum m.
Proof.
  intros Hm Hmn. unfold roundDiv at 2.
  apply Nat.div_le_lower_bound; [lia|].
  pose proof (roundDiv_nearest sum n ltac:(lia)) as [Hq _].
  destruct (roundDiv sum n) as [|q]; [lia|]. nia.
Qed.

Lemma completedItems_length (items : list PromptAnalysis) :
  List.length (completedItems items) <= List.length items.
Proof. apply List.filter_length_le. Qed.

(** C1, amended: on items that satisfy the item invariant,
    [averageResponseLength] is the total length of the completed responses
    divided by the number of all items, rounded to the nearest integer, a
    half rounding up.  It is 0 for the empty list and when no item is
    completed; it is never larger than the mean over the completed items,
    and it is that mean when every item is completed. *)
Theorem averageResponseLength_over_all_items :
  forall (now : Z) (items : list PromptAnalysis)
         (session : option AnalysisSession),
    Forall itemInvariant items ->
    averageResponseLength (analytics now items session)
    = match items with
      | [] => 0
      | _ => roundDiv (totalLength (completedItems items)) (List.length items)
      end
    /\ (items <> [] ->
        2 * List.length items
          * averageResponseLength (analytics now items session)
        <= 2 * list_sum (List.map (fun a => String.length (a_response a))
                                  (completedItems items))
           + List.length items
        < 2 * List.length items
            * (averageResponseLength (analytics now items session) + 1))
    /\ (completedItems items = [] ->
        averageResponseLength (analytics now items session) = 0)
    /\ averageResponseLength (analytics now items session)
       <= meanCompletedLength items
    /\ (completedItems items = items ->
        averageResponseLength (analytics now items session)
        = meanCompletedLength items).
Proof.
  intros now items session Hinv.
  assert (Havg : averageResponseLength (analytics now items session)
                 = match items with
                   | [] => 0
                   | _ => roundDiv (totalLength (completedItems items))
                                   (List.length items)
                   end).
  { unfold analytics. cbn [averageResponseLength].
    rewrite fold_left_lengths, Nat.add_0_l.
    rewrite (totalLength_completed items Hinv).
    destruct items; reflexivity. }
  assert (Hnone : completedItems items = [] ->
                  averageResponseLength (analytics now items session) = 0).
  { intros Hnone. rewrite Havg, Hnone.
    destruct items as [|a items]; [reflexivity|].
    apply roundDiv_0. simpl. lia. }
  split; [exact Havg|]. split; [|split; [exact Hnone|split]].
  - intros Hne. rewrite Havg.
    destruct items as [|a items]; [congruence|].
    apply roundDiv_nearest. simpl. lia.
  - unfold meanCompletedLength.
    destruct (completedItems items) as [|c done] eqn:Hdone.
    + rewrite Hnone by reflexivity. lia.
    + rewrite Havg. destruct items as [|a items]; [lia|].
      apply roundDiv_antitone; [simpl; lia|].
      pose proof (completedItems_length (a :: items)) as Hl.
      now rewrite Hdone in Hl.
  - intros Hall. rewrite Havg. unfold meanCompletedLength. rewrite Hall.
    destruct items; reflexivity.
Qed.

Lemma averageResponseLength_over_all_items_witness :
  averageResponseLength (analytics 5 twoItems None)
  = roundDiv (totalLength (completedItems twoItems)) (List.length twoItems)
  /\ averageResponseLength (analytics 5 twoItems None)
     <= meanCompletedLength twoItems.
Proof.
  destruct (averageResponseLength_over_all_items 5 twoItems None)
    as (Havg & _ & _ & Hle & _).
  - repeat constructor; cbv; eauto.
  - split; [exact Havg|exact Hle].
Defined.

(** C6 as claimed fails: while the session runs, the processing time
    follows the clock, so two computations on the same items and session
    differ. *)
Lemma analytics_follows_the_clock :
  analytics 1001 [] (Some runningSession)
  <> analytics 1002 [] (Some runningSession).
Proof.
  intros H. apply (f_equal processingTime) in H. vm_compute in H.
  discriminate.
Qed.

(** C6, amended: two computations of the analytics on the same items and
    session agree on every field but [processingTime], whatever the clock
    reads; they agree on [processingTime] too when there is no session or
    the session has ended. *)
Theorem analytics_deterministic_up_to_clock :
  forall (now1 now2 : Z) (items : list PromptAnalysis)
         (session : option AnalysisSession),
    totalPrompts (analytics now1 items session)
    = totalPrompts (analytics now2 items session)
    /\ totalResponses (analytics now1 items session)
       = totalResponses (analytics now2 items session)
    /\ totalKeywordMatches (analytics now1 items session)
       = totalKeywordMatches (analytics now2 items session)
    /\ averageResponseLength (analytics now1 items session)
       = averageResponseLength (analytics now2 items session)
    /\ keywordFrequency (analytics now1 items session)
       = keywordFrequency (analytics now2 items session)
    /\ (clockFree session = true ->
        analytics now1 items session = analytics now2 items session).
Proof.
  intros now1 now2 items session.
  do 5 (split; [reflexivity|]).
  intros Hfree. unfold analytics. f_equal.
  destruct session as [s|]; [|reflexivity].
  simpl in Hfree. destruct (s_endTime s) as [e|]; [|discriminate].
  apply negb_true_iff in Hfree. now rewrite Hfree.
Qed.

Lemma analytics_deterministic_up_to_clock_witness :
  analytics 2000 twoItems (Some endedSession)
  = analytics 3000 twoItems (Some endedSession).
Proof.
  apply (analytics_deterministic_up_to_clock 2000 3000 twoItems
           (Some endedSession)).
  reflexivity.
Defined.

(* ===================================================================== *)
(** * The scheduler: claims *)
(* ===================================================================== *)

(** C2 as claimed fails: when the provider generates the empty text the
    item is completed with an empty response. *)
Lemma completed_item_with_empty_response :
  fst (startAnalysis Fragment.engine silentEnv 10 (freshWorld ["hello"] ["ai"]))
  = Some tt
  /\ ~ Forall claimedItemInvariant (analyses (app silentRun)).
Proof.
  split; [vm_compute; reflexivity|].
  intros H. vm_compute in H. apply List.Forall_inv in H.
  vm_compute in H. destruct H as [H _]. now apply H.
Qed.

(** C2, amended: every value that [startAnalysis] gives the [analyses]
    state, the one it leaves included, whether the model's run was given
    enough fuel or not, holds one item per
    prompt, in order, each with its prompt and recording the provider's
    answer to its own call: a completed item has no error, its response is
    the generated text as it is (empty when that is empty) and its matches
    are those of the keyword scan; an item in error has an empty response,
    no matches, and as error the message of the failure of the provider
    call or of the keyword scan, [Unknown error occurred] when what was
    thrown is no [Error]; a pending or processing item has response,
    matches and error all empty.  So does the item made for a row of a
    batch, which is terminal. *)
Theorem scheduler_item_invariant :
  forall (E : Engine) (env : Env) (fuel : nat) (w : World),
    (exists new,
       history (snd (startAnalysis E env fuel w)) = new ++ history w
       /\ (canStart w = true ->
           hd_error new
           = Some (analyses (app (snd (startAnalysis E env fuel w)))))
       /\ Forall (fun items =>
            List.length items = List.length (prompts (app w))
            /\ forall k a, items !! k = Some a ->
                 exists p,
                   prompts (app w) !! k = Some p /\ a_prompt a = p
                   /\ records E fuel (keywords (app w))
                              (provider env (calls w + k) p) a) new)
    /\ (forall row i a,
          fst (processRow E env fuel row i w) = Some a ->
          a_prompt a = r_prompt row /\ isTerminal a = true
          /\ records E fuel (r_keywords row)
                     (provider env (calls w) (r_prompt row)) a).
Proof.
  intros E env fuel w. split.
  - destruct (canStart w) eqn:Hgo.
    + destruct (startAnalysis_states E env fuel w Hgo)
        as (new & Hhist & Hhead & Hnew).
      exists new. split; [exact Hhist|]. split; [now intros _|exact Hnew].
    + rewrite startAnalysis_idle by assumption. simpl.
      exists []. split; [reflexivity|]. split; [discriminate|constructor].
  - intros row i a. unfold processRow, bind, setBatchSession, modifyBatch,
      generateText, now, ret, noFuel. simpl.
    unfold records.
    destruct (provider env (calls w) (r_prompt row)) as [text|e].
    + destruct (findKeywordMatches E fuel text (r_keywords row))
        as [ms|e|] eqn:Hscan; simpl; intros [= <-]; simpl.
      * auto.
      * do 4 (split; [reflexivity|]). exists e. split; [reflexivity|].
        right. eauto.
    + simpl. intros [= <-]. simpl.
      do 4 (split; [reflexivity|]). exists e. split; [reflexivity|].
      now left.
Qed.

Lemma scheduler_item_invariant_witness :
  exists new,
    history silentRun = new ++ []
    /\ (canStart (freshWorld ["hello"] ["ai"]) = true ->
        hd_error new = Some (analyses (app silentRun)))
    /\ Forall (fun items =>
         List.length items = 1
         /\ forall k a, items !! k = Some a ->
              exists p,
                ["hello"] !! k = Some p /\ a_prompt a = p
                /\ records Fragment.engine 10 ["ai"]
                           (provider silentEnv (0 + k) p) a) new.
Proof.
  exact (proj1 (scheduler_item_invariant Fragment.engine silentEnv 10
                  (freshWorld ["hello"] ["ai"]))).
Defined.

(** C4: whenever [startAnalysis] may start (prompts and keywords are not
    empty), whatever the provider answers and whatever the keywords are,
    the run comes back, given fuel for the longest generated text, with a
    completed session that holds one terminal item per prompt, in order;
    the item of a prompt whose provider call failed, or whose keyword scan
    threw, is in error with the failure's message, and the other items are
    completed with the generated text and its matches, whatever happened
    to the prompts before. *)
Theorem item_failure_never_aborts_run :
  forall (E : Engine) (env : Env) (fuel : nat) (w : World),
    prompts (app w) <> [] ->
    keywords (app w) <> [] ->
    runFuel env (calls w) (prompts (app w)) <= fuel ->
    exists w' s,
      startAnalysis E env fuel w = (Some tt, w')
      /\ currentSession (app w') = Some s
      /\ s_status s = SessionCompleted
      /\ is_Some (s_endTime s)
      /\ isRunning (app w') = false
      /\ List.length (s_results s) = List.length (prompts (app w))
      /\ analyses (app w') = s_results s
      /\ calls w' = calls w + List.length (prompts (app w))
      /\ forall k p, prompts (app w) !! k = Some p ->
           exists a,
             s_results s !! k = Some a
             /\ a_prompt a = p
             /\ isTerminal a = true
             /\ match provider env (calls w + k) p with
                | Rejected e =>
                    a_status a = Error
                    /\ a_error a
                       = Some (match e with
                               | ErrorValue message => message
                               | OtherValue => "Unknown error occurred"
                               end)
                    /\ a_response a = EmptyString
                | Resolved text =>
                    match findKeywordMatches E fuel text (keywords (app w)) with
                    | Returned ms =>
                        a_status a = Completed /\ a_response a = text
                        /\ a_keywordMatches a = ms /\ a_error a = None
                    | Threw e =>
                        a_status a = Error
                        /\ a_error a
                           = Some (match e with
                                   | ErrorValue message => message
                                   | OtherValue => "Unknown error occurred"
                                   end)
                        /\ a_response a = EmptyString
                    | OutOfFuel => False
                    end
                end.
Proof.
  intros E env fuel w Hps Hkws Hfuel.
  assert (Hgo : canStart w = true).
  { unfold canStart. destruct (prompts (app w)); [congruence|].
    destruct (keywords (app w)); [congruence|]. reflexivity. }
  destruct (startAnalysis_returns E env fuel w Hgo Hfuel) as [w' Hrun].
  pose proof Hrun as Hrun'.
  apply startAnalysis_run in Hrun'; [|assumption].
  destruct Hrun' as (_ & _ & _ & _ & (s & Hcur & _ & _ & _ & Hs) & _).
  destruct Hs as (Hst & Hend & Hidle & Han & Hcalls & Hlen & Hres).
  exists w', s. do 8 (split; [assumption|]).
  intros k p Hk. destruct (Hres k p Hk) as (a & aid & t & Ha & Hset).
  exists a. split; [assumption|].
  pose proof (settled_id _ _ _ _ _ _ _ _ Hset) as (_ & Hp & Hterm & _).
  split; [assumption|]. split; [assumption|].
  unfold settled in Hset.
  destruct (provider env (calls w + k) p) as [text|e].
  - destruct (findKeywordMatches E fuel text (keywords (app w)));
      try discriminate; injection Hset as <-; simpl; auto.
  - injection Hset as <-. simpl. auto.
Qed.

Lemma item_failure_never_aborts_run_witness :
  exists w' s,
    startAnalysis Fragment.engine (echoEnv "banana") 8
                  (freshWorld ["one"; "two"] ["an"; "a*"]) = (Some tt, w')
    /\ currentSession (app w') = Some s
    /\ s_status s = SessionCompleted
    /\ List.length (s_results s) = 2.
Proof.
  destruct (item_failure_never_aborts_run Fragment.engine (echoEnv "banana") 8
              (freshWorld ["one"; "two"] ["an"; "a*"]))
    as (w' & s & Hrun & Hcur & Hst & _ & _ & Hlen & _).
  - discriminate.
  - discriminate.
  - apply Nat.leb_le. vm_compute. reflexivity.
  - exists w', s. auto.
Defined.

(** The run goes on when keywords have empty matches: on the text
    [banana] the keyword [a*] matches the empty string at offset 0, the
    scan throws, and the item is in error. *)
Example empty_match_is_an_item_error :
  List.map (fun a => (a_status a, a_error a))
    (analyses (app (snd (startAnalysis Fragment.engine (echoEnv "banana") 8
                                       (freshWorld ["one"; "two"]
                                                   ["an"; "a*"])))))
  = [(Error, Some "Invalid array length");
     (Error, Some "Invalid array length")]
  /\ option_map s_status
       (currentSession
          (app (snd (startAnalysis Fragment.engine (echoEnv "banana") 8
                                   (freshWorld ["one"; "two"]
                                               ["an"; "a*"])))))
     = Some SessionCompleted.
Proof. vm_compute. split; reflexivity. Qed.

(** The run goes on when every provider call fails. *)
Example every_call_fails :
  List.map (fun a => (a_status a, a_error a))
    (analyses (app (snd (startAnalysis Fragment.engine failingEnv 5
                                       scenarioWorld))))
  = [(Error, Some "Unknown error occurred");
     (Error, Some "Unknown error occurred");
     (Error, Some "Unknown error occurred")]
  /\ option_map s_status
       (currentSession (app (snd (startAnalysis Fragment.engine failingEnv 5
                                                scenarioWorld))))
     = Some SessionCompleted.
Proof. vm_compute. split; reflexivity. Qed.

(** C7 as claimed fails: two runs separated by a reset that start within
    the same millisecond get the same session identifier. *)
Lemma same_millisecond_same_session_id :
  option_map s_id (currentSession (app frozenFirstRun))
  = Some "session-1000"
  /\ option_map s_id (currentSession (app frozenSecondRun))
     = option_map s_id (currentSession (app frozenFirstRun)).
Proof. vm_compute. split; reflexivity. Qed.

(** C7, amended: take the session made by an earlier run (whether the
    model's run came back or not), and a later run started after a reset
    and a new choice of prompts and keywords.  The identifier of each of
    the two sessions is [session-] followed by what the clock read when
    its run started, so that the new one differs from the earlier one
    exactly when the clock read different values at the two starts.  The
    reset leaves no item and no session, and the new run, which comes back,
    leaves as many items as there are new prompts, whatever was there
    before the reset. *)
Theorem reset_then_start :
  forall (E : Engine) (env : Env) (fuel0 fuel : nat) (w0 wr : World)
         (ps kws : list string),
    canStart w0 = true ->
    ps <> [] ->
    kws <> [] ->
    runFuel env (calls wr) ps <= fuel ->
    exists s1 w2 w3 w4 s4,
      currentSession (app (snd (startAnalysis E env fuel0 w0))) = Some s1
      /\ s_id s1 = "session-" +:+ pretty (clock env (ticks w0))
      /\ resetAnalysis wr = (Some tt, w2)
      /\ analyses (app w2) = []
      /\ currentSession (app w2) = None
      /\ isRunning (app w2) = false
      /\ (setPrompts ps;; setKeywords kws) w2 = (Some tt, w3)
      /\ ticks w3 = ticks wr
      /\ startAnalysis E env fuel w3 = (Some tt, w4)
      /\ currentSession (app w4) = Some s4
      /\ s_id s4 = "session-" +:+ pretty (clock env (ticks wr))
      /\ (s_id s4 <> s_id s1 <->
          clock env (ticks wr) <> clock env (ticks w0))
      /\ s_prompts s4 = ps
      /\ List.length (analyses (app w4)) = List.length ps
      /\ List.length (s_results s4) = List.length ps.
Proof.
  intros E env fuel0 fuel w0 wr ps kws Hgo0 Hps Hkws Hfuel.
  destruct (startAnalysis E env fuel0 w0) as [r1 w1] eqn:Hrun0.
  apply startAnalysis_run in Hrun0; [|assumption].
  destruct Hrun0 as (_ & _ & _ & _ & (s1 & Hcur1 & Hid1 & _) & _).
  set (w2 := snd (resetAnalysis wr)).
  set (w3 := snd ((setPrompts ps;; setKeywords kws) w2)).
  assert (Hgo3 : canStart w3 = true).
  { unfold canStart. subst w3. simpl.
    destruct ps; [congruence|]. destruct kws; [congruence|]. reflexivity. }
  destruct (startAnalysis_returns E env fuel w3 Hgo3) as [w4 Hrun3].
  { subst w3 w2. simpl. exact Hfuel. }
  pose proof Hrun3 as Hrun3'.
  apply startAnalysis_run in Hrun3'; [|assumption].
  destruct Hrun3' as (_ & _ & _ & _ & (s4 & Hcur4 & Hid4 & Hsp4 & _ & Hs4) & _).
  destruct Hs4 as (_ & _ & _ & Han4 & _ & Hlen4 & _).
  assert (Ht3 : ticks w3 = ticks wr) by reflexivity.
  assert (Hp3 : prompts (app w3) = ps) by reflexivity.
  rewrite Ht3 in Hid4. rewrite Hp3 in Hsp4, Hlen4.
  exists s1, w2, w3, w4, s4.
  do 11 (split; [assumption || reflexivity|]).
  split.
  - rewrite Hid1, Hid4. split.
    + intros Hne Heq. apply Hne. now rewrite Heq.
    + intros Hne Heq. apply Hne.
      apply (inj (String.append "session-")) in Heq.
      now apply (inj pretty) in Heq.
  - split; [assumption|]. split; [|assumption]. now rewrite Han4.
Qed.

Lemma reset_then_start_witness :
  exists s1 s4,
    currentSession (app scenarioFirstRun) = Some s1
    /\ currentSession (app scenarioSecondRun) = Some s4
    /\ s_id s1 = "session-1000"
    /\ s_id s4 <> s_id s1
    /\ List.length (analyses (app scenarioSecondRun)) = 1.
Proof.
  destruct (reset_then_start Fragment.engine scenarioEnv 40 40
              scenarioWorld scenarioFirstRun ["again"] ["cloud"])
    as (s1 & w2 & w3 & w4 & s4 & H1 & Hid1 & Hreset & _ & _ & _ & Hedit & _
        & Hrun & H4 & _ & Hid & _ & Hlen & _).
  - reflexivity.
  - discriminate.
  - discriminate.
  - apply Nat.leb_le. vm_compute. reflexivity.
  - assert (Hw4 : w4 = scenarioSecondRun).
    { unfold scenarioSecondRun.
      replace (snd ((setPrompts ["again"];; setKeywords ["cloud"])
                      (snd (resetAnalysis scenarioFirstRun)))) with w3.
      - now rewrite Hrun.
      - replace (snd (resetAnalysis scenarioFirstRun)) with w2
          by now rewrite Hreset.
        now rewrite Hedit. }
    subst w4.
    exists s1, s4. split; [exact H1|]. split; [exact H4|].
    split; [exact Hid1|]. split; [|exact Hlen].
    apply Hid. vm_compute. discriminate.
Defined.

(* ===================================================================== *)
(** * Batch upload: claims *)
(* ===================================================================== *)

(** C8: a table that parses to more than 50 rows is rejected by the upload
    handler: the rows are dropped, the error is shown, no item, session or
    provider call is made, and starting the batch afterwards does
    nothing. *)
Theorem oversized_batch_is_rejected :
  forall (E : Engine) (env : Env) (fuel : nat) (csvText : string)
         (rows : list BatchRow) (w : World),
    parseCSV csvText = Returned rows ->
    50 < List.length rows ->
    exists w1,
      handleFileUpload (Some csvText) w = (Some tt, w1)
      /\ batchData (batch w1) = []
      /\ batchError (batch w1) = Some "Maximum 50 rows allowed per batch"
      /\ batchSession (batch w1) = batchSession (batch w)
      /\ isProcessing (batch w1) = isProcessing (batch w)
      /\ app w1 = app w
      /\ calls w1 = calls w
      /\ ticks w1 = ticks w
      /\ history w1 = history w
      /\ processBatch E env fuel w1 = (Some tt, w1).
Proof.
  intros E env fuel csvText rows w Hparse Hlen.
  unfold handleFileUpload, checkedRows. rewrite Hparse.
  replace (List.length rows =? 0) with false
    by (symmetry; apply Nat.eqb_neq; lia).
  replace (50 <? List.length rows) with true
    by (symmetry; apply Nat.ltb_lt; lia).
  unfold bind, setError, setBatchData, modifyBatch. simpl.
  eexists. split; [reflexivity|]. simpl.
  do 8 (split; [reflexivity|]).
  unfold processBatch, bind, getBatch. simpl. reflexivity.
Qed.

Lemma oversized_batch_is_rejected_witness :
  exists w1,
    handleFileUpload (Some (csvOfRows 51)) scenarioWorld = (Some tt, w1)
    /\ batchData (batch w1) = []
    /\ calls w1 = 0
    /\ processBatch Fragment.engine scenarioEnv 40 w1 = (Some tt, w1).
Proof.
  destruct (oversized_batch_is_rejected Fragment.engine scenarioEnv 40
              (csvOfRows 51)
              (repeat {| r_prompt := "Explain quantum computing";
                         r_keywords := ["quantum"] |} 51)
              scenarioWorld)
    as (w1 & Hup & Hdata & _ & _ & _ & _ & Hcalls & _ & _ & Hbatch).
  - vm_compute. reflexivity.
  - simpl. lia.
  - exists w1. auto.
Defined.

(** A table with exactly 50 rows is accepted. *)
Example fifty_rows_are_accepted :
  List.length
    (batchData (batch (snd (handleFileUpload (Some (csvOfRows 50))
                                             scenarioWorld)))) = 50.
Proof. vm_compute. reflexivity. Qed.

(* ===================================================================== *)
(** * Keywords as patterns: claims *)
(* ===================================================================== *)

(** C3 as claimed fails: the keyword is handed to the pattern compiler as it
    is, so the dot of [a.b] stands for any character and a keyword such as
    [c++] is not even a pattern. *)
Lemma keyword_is_pattern_syntax :
  findKeywordMatches Fragment.engine 5 "axb" ["a.b"]
  = Returned [{| keyword := "a.b"; count := 1; positions := [0] |}]
  /\ literalKeywordMatches "axb" ["a.b"] = []
  /\ findKeywordMatches Fragment.engine 5 "axb" ["a.b"]
     <> Returned (literalKeywordMatches "axb" ["a.b"]).
Proof. vm_compute. repeat split; discriminate. Qed.

Lemma plain_keywords_are_literal_witness :
  findKeywordMatches Fragment.engine 13 "cat CAT cAt" ["Cat"; "dog"]
  = Returned (literalKeywordMatches "cat CAT cAt" ["Cat"; "dog"]).
Proof.
  apply (plain_keywords_are_literal "cat CAT cAt" ["Cat"; "dog"]).
  vm_compute. reflexivity.
Defined.

(* ===================================================================== *)
(** * More on the keyword matcher *)
(* ===================================================================== *)

Lemma mapKeywords_keywords (E : Engine) fuel text kws ms :
  mapKeywords E fuel text kws = Returned ms ->
  List.map keyword ms = kws.
Proof.
  revert ms. induction kws as [|kw kws IH]; intros ms; simpl.
  - now intros [= <-].
  - destruct (scanKeyword E fuel text kw) as [m| |] eqn:Hm; try discriminate.
    destruct (mapKeywords E fuel text kws) as [ms'| |]; try discriminate.
    intros [= <-]. simpl. rewrite (IH ms' eq_refl).
    apply scanKeyword_Returned in Hm. destruct Hm as (p & ps & _ & _ & ->).
    reflexivity.
Qed.

Lemma filter_keywords_sublist (f : KeywordMatch -> bool) ms :
  sublist (List.map keyword (List.filter f ms)) (List.map keyword ms).
Proof.
  induction ms as [|m ms IH]; simpl; [constructor|].
  destruct (f m); simpl; now constructor.
Qed.

(** X1: the records [findKeywordMatches] returns all have a positive count,
    and their keywords are the configured keywords that matched, in the
    order of the configuration (none added, none moved). *)
Theorem matches_follow_keyword_order :
  forall (E : Engine) (fuel : nat) (text : string) (kws : list string)
         (ms : list KeywordMatch),
    findKeywordMatches E fuel text kws = Returned ms ->
    Forall (fun m => 0 < count m) ms
    /\ sublist (List.map keyword ms) kws.
Proof.
  intros E fuel text kws ms. unfold findKeywordMatches.
  destruct (mapKeywords E fuel text kws) as [ms'| |] eqn:Hms; try discriminate.
  intros [= <-]. split.
  - rewrite List.Forall_forall. intros m Hin.
    apply List.filter_In in Hin. destruct Hin as [_ Hc].
    now apply Nat.ltb_lt in Hc.
  - rewrite <- (mapKeywords_keywords E fuel text kws ms' Hms).
    apply filter_keywords_sublist.
Qed.

Lemma matches_follow_keyword_order_witness :
  Forall (fun m => 0 < count m)
    [{| keyword := "cloud"; count := 1; positions := [10] |};
     {| keyword := "ai"; count := 1; positions := [0] |}]
  /\ sublist ["cloud"; "ai"] ["cloud"; "edge"; "ai"].
Proof.
  apply (matches_follow_keyword_order Fragment.engine 20 "AI in the cloud"
           ["cloud"; "edge"; "ai"]).
  vm_compute. reflexivity.
Defined.

(** ** Occurrences of a plain keyword *)

Lemma literalScan_sound kw : forall s i skip p,
  In p (literalScan kw s i skip) ->
  i + skip <= p /\ ciPrefix kw (drop (p - i) s) = true.
Proof.
  induction s as [|c s IH]; intros i skip p; simpl; [tauto|].
  destruct skip as [|k].
  - destruct (ciPrefix kw (c :: s)) eqn:Hpre.
    + intros [<-|Hin].
      * rewrite Nat.sub_diag, Nat.add_0_r. split; [lia|exact Hpre].
      * apply IH in Hin. destruct Hin as [Hle Hp]. split; [lia|].
        replace (p - i) with (S (p - S i)) by lia. exact Hp.
    + intros Hin. apply IH in Hin. destruct Hin as [Hle Hp]. split; [lia|].
      replace (p - i) with (S (p - S i)) by lia. exact Hp.
  - intros Hin. apply IH in Hin. destruct Hin as [Hle Hp]. split; [lia|].
    replace (p - i) with (S (p - S i)) by lia. exact Hp.
Qed.

Lemma literalScan_spaced kw : 1 <= List.length kw -> forall s i skip,
  StronglySorted (fun a b => a + List.length kw <= b)
                 (literalScan kw s i skip).
Proof.
  intros Hk. induction s as [|c s IH]; intros i skip; simpl; [constructor|].
  destruct skip as [|k]; [|apply IH].
  destruct (ciPrefix kw (c :: s)); [|apply IH].
  constructor; [apply IH|].
  rewrite List.Forall_forall. intros p Hin.
  apply literalScan_sound in Hin. lia.
Qed.

Lemma literalScan_complete kw : 1 <= List.length kw -> forall s i skip j,
  skip <= j -> j < List.length s ->
  ciPrefix kw (drop j s) = true ->
  exists p, In p (literalScan kw s i skip)
            /\ p <= i + j < p + List.length kw.
Proof.
  intros Hk. induction s as [|c s IH]; intros i skip j Hskip Hj Hpre;
    [simpl in Hj; lia|].
  simpl. destruct skip as [|k].
  - destruct (ciPrefix kw (c :: s)) eqn:Hhere.
    + destruct (lt_dec j (List.length kw)) as [Hlt|Hge].
      * exists i. split; [now left|lia].
      * destruct j as [|j]; [lia|].
        destruct (IH (S i) (List.length kw - 1) j) as (p & Hin & Hp);
          [lia | simpl in Hj; lia | exact Hpre |].
        exists p. split; [now right|lia].
    + destruct j as [|j]; [rewrite drop_0 in Hpre; congruence|].
      destruct (IH (S i) 0 j) as (p & Hin & Hp);
        [lia | simpl in Hj; lia | exact Hpre |].
      exists p. split; [assumption|lia].
  - destruct j as [|j]; [lia|].
    destruct (IH (S i) k j) as (p & Hin & Hp);
      [lia | simpl in Hj; lia | exact Hpre |].
    exists p. split; [assumption|lia].
Qed.

Lemma ciPrefix_nil_false kw : 1 <= List.length kw -> ciPrefix kw [] = false.
Proof. destruct kw; simpl; [lia|reflexivity]. Qed.

(** X2: on the reference engine, for keywords without syntax characters the
    matcher always returns, and for every keyword the positions it reports
    are exactly a maximal left-to-right choice of non-overlapping
    occurrences: the keyword stands at each reported position, two reported
    positions are at least the keyword's length apart, every occurrence in
    the text starts inside a reported one, and a keyword without a record
    does not occur at all. *)
Theorem plain_keyword_occurrences :
  forall (text : string) (kws : list string),
    forallb isPlain kws = true ->
    exists ms,
      findKeywordMatches Fragment.engine (String.length text + 2) text kws
      = Returned ms
      /\ Forall (fun m =>
           (forall p, In p (positions m) ->
                      occursAt (keyword m) text p = true
                      /\ p + String.length (keyword m) <= String.length text)
           /\ StronglySorted
                (fun a b => a + String.length (keyword m) <= b) (positions m)
           /\ (forall j, occursAt (keyword m) text j = true ->
                 exists p, In p (positions m)
                           /\ p <= j < p + String.length (keyword m))) ms
      /\ (forall kw j, In kw kws -> ~ In kw (List.map keyword ms) ->
            occursAt kw text j = false).
Proof.
  intros text kws Hplain.
  exists (literalKeywordMatches text kws). split.
  { unfold findKeywordMatches. now rewrite mapKeywords_plain. }
  assert (Hall : forall kw, In kw kws -> isPlain kw = true).
  { intros kw Hin. rewrite forallb_forall in Hplain. now apply Hplain. }
  assert (Hlen : forall kw, isPlain kw = true ->
            1 <= List.length (list_ascii_of_string kw)
            /\ List.length (list_ascii_of_string kw) = String.length kw).
  { intros kw Hkw. split; [now apply isPlain_nonempty|].
    apply length_list_ascii_of_string. }
  assert (Hocc : forall kw j, isPlain kw = true ->
            occursAt kw text j = true -> j < String.length text).
  { intros kw j Hkw Ho. unfold occursAt in Ho.
    destruct (lt_dec j (String.length text)) as [|Hge]; [assumption|].
    rewrite drop_ge in Ho
      by (rewrite length_list_ascii_of_string; lia).
    rewrite ciPrefix_nil_false in Ho by (now apply Hlen). discriminate. }
  split.
  - unfold literalKeywordMatches. rewrite List.Forall_forall. intros m Hin.
    apply List.filter_In in Hin. destruct Hin as [Hin _].
    apply List.in_map_iff in Hin. destruct Hin as (kw & <- & Hkw).
    apply Hall in Hkw. destruct (Hlen kw Hkw) as [Hk Hkl].
    cbn [keyword positions]. unfold literalOccurrences. rewrite <- Hkl.
    split; [|split].
    + intros p Hp. pose proof (literalScan_sound _ _ _ _ _ Hp) as [_ Hpre].
      rewrite Nat.sub_0_r in Hpre. split; [exact Hpre|].
      pose proof (Hocc kw p Hkw Hpre) as Hlt.
      apply ciPrefix_length in Hpre. rewrite length_drop in Hpre.
      pose proof (length_list_ascii_of_string text) as Htl.
      lia.
    + now apply literalScan_spaced.
    + intros j Hj.
      destruct (literalScan_complete (list_ascii_of_string kw) Hk
                  (list_ascii_of_string text) 0 0 j) as (p & Hin & Hp).
      * lia.
      * rewrite length_list_ascii_of_string. now apply (Hocc kw).
      * exact Hj.
      * exists p. split; [assumption|lia].
  - intros kw j Hin Hnot.
    destruct (occursAt kw text j) eqn:Ho; [|reflexivity].
    exfalso. apply Hnot. pose proof (Hall kw Hin) as Hkw.
    destruct (Hlen kw Hkw) as [Hk _].
    destruct (literalScan_complete (list_ascii_of_string kw) Hk
                (list_ascii_of_string text) 0 0 j) as (p & Hp & _).
    + lia.
    + rewrite length_list_ascii_of_string. now apply (Hocc kw).
    + exact Ho.
    + unfold literalKeywordMatches. apply List.in_map_iff.
      exists {| keyword := kw;
                count := List.length (literalOccurrences kw text);
                positions := literalOccurrences kw text |}.
      split; [reflexivity|]. apply List.filter_In. split.
      * apply List.in_map_iff. now exists kw.
      * cbn [count]. apply Nat.ltb_lt. unfold literalOccurrences.
        destruct (literalScan _ _ 0 0); [destruct Hp | simpl; lia].
Qed.

Lemma plain_keyword_occurrences_witness :
  exists ms,
    findKeywordMatches Fragment.engine 6 "aaaa" ["aa"; "b"] = Returned ms
    /\ List.map positions ms = [[0; 2]].
Proof.
  destruct (plain_keyword_occurrences "aaaa" ["aa"; "b"]) as (ms & Hms & _).
  - vm_compute. reflexivity.
  - exists ms. split; [exact Hms|].
    vm_compute in Hms. injection Hms as <-. reflexivity.
Defined.

(* ===================================================================== *)
(** * More on the analytics *)
(* ===================================================================== *)

Lemma addFrequencies_lookup (k : string) (ms : list KeywordMatch) :
  forall freq : gmap string nat,
    addFrequencies freq ms !! k =
    match recordsOf k ms with
    | [] => freq !! k
    | _ => Some (default 0 (freq !! k) + countOf k ms)
    end.
Proof.
  unfold addFrequencies, countOf, recordsOf.
  induction ms as [|m ms IH]; intros freq; [reflexivity|].
  cbn [fold_left List.filter]. rewrite IH.
  destruct (String.eqb_spec (keyword m) k) as [->|Hne].
  - rewrite lookup_insert_eq. cbn [default List.map list_sum].
    destruct (List.filter _ ms); cbn [List.map list_sum]; f_equal; simpl; lia.
  - rewrite lookup_insert_ne by assumption. reflexivity.
Qed.

Lemma fold_addFrequencies (items : list PromptAnalysis) :
  forall freq : gmap string nat,
    fold_left (fun fr a => addFrequencies fr (a_keywordMatches a)) items freq
    = addFrequencies freq (allMatches items).
Proof.
  unfold allMatches, addFrequencies.
  induction items as [|a items IH]; intros freq; [reflexivity|].
  simpl. rewrite IH. now rewrite List.fold_left_app.
Qed.

Lemma sumCounts_acc (ms : list KeywordMatch) (acc : nat) :
  fold_left (fun matchSum m => matchSum + count m) ms acc
  = acc + list_sum (List.map count ms).
Proof.
  revert acc. induction ms as [|m ms IH]; intros acc; simpl; [lia|].
  rewrite IH. lia.
Qed.

Lemma fold_sumCounts (items : list PromptAnalysis) (acc : nat) :
  fold_left (fun sum a => sum + sumCounts (a_keywordMatches a)) items acc
  = acc + list_sum (List.map count (allMatches items)).
Proof.
  unfold allMatches, sumCounts.
  revert acc. induction items as [|a items IH]; intros acc; simpl; [lia|].
  rewrite IH, sumCounts_acc, List.map_app, list_sum_app. lia.
Qed.

Lemma sumValues_add (freq : gmap string nat) (k : string) (c : nat) :
  sumValues (<[k := default 0 (freq !! k) + c]> freq) = sumValues freq + c.
Proof.
  unfold sumValues.
  assert (Hcomm : forall (m : gmap string nat) (j1 j2 : string)
                         (z1 z2 y : nat),
             j1 <> j2 -> m !! j1 = Some z1 -> m !! j2 = Some z2 ->
             z1 + (z2 + y) = z2 + (z1 + y)) by (intros; lia).
  destruct (freq !! k) as [v|] eqn:Hk; cbn [default].
  - rewrite <- (insert_delete_eq freq k (v + c)).
    rewrite map_fold_insert_L;
      [|intros; lia|apply lookup_delete_eq].
    rewrite <- (insert_id freq k v Hk) at 2.
    rewrite <- (insert_delete_eq freq k v).
    rewrite (map_fold_insert_L _ _ k v);
      [|intros; lia|apply lookup_delete_eq].
    lia.
  - rewrite map_fold_insert_L; [|intros; lia|assumption]. lia.
Qed.

Lemma sumValues_addFrequencies (ms : list KeywordMatch) :
  forall freq : gmap string nat,
    sumValues (addFrequencies freq ms)
    = sumValues freq + list_sum (List.map count ms).
Proof.
  unfold addFrequencies.
  induction ms as [|m ms IH]; intros freq; simpl; [lia|].
  rewrite IH, sumValues_add. lia.
Qed.

(** X3: as long as no recorded keyword is a name that objects inherit
    (such as [constructor]), the frequency table has an entry for exactly
    the keywords that some item has a record of, the entry is the sum of
    the counts of these records over all items, and the total of keyword
    matches is both the sum of all counts and the sum of the entries of the
    table. *)
Theorem keywordFrequency_sums_counts :
  forall (now : Z) (items : list PromptAnalysis)
         (session : option AnalysisSession) (k : string),
    plainKeys items = true ->
    keywordFrequency (analytics now items session) !! k
    = match recordsOf k (allMatches items) with
      | [] => None
      | _ => Some (countOf k (allMatches items))
      end
    /\ totalKeywordMatches (analytics now items session)
       = list_sum (List.map count (allMatches items))
    /\ totalKeywordMatches (analytics now items session)
       = sumValues (keywordFrequency (analytics now items session)).
Proof.
  intros now items session k _. unfold analytics.
  cbn [keywordFrequency totalKeywordMatches].
  rewrite fold_addFrequencies, fold_sumCounts, Nat.add_0_l.
  split; [|split].
  - rewrite addFrequencies_lookup, lookup_empty. reflexivity.
  - reflexivity.
  - rewrite sumValues_addFrequencies. unfold sumValues.
    now rewrite map_fold_empty.
Qed.

Lemma keywordFrequency_sums_counts_witness :
  keywordFrequency (analytics 0 scenarioItems None) !! "ai"
  = match recordsOf "ai" (allMatches scenarioItems) with
    | [] => None
    | _ => Some (countOf "ai" (allMatches scenarioItems))
    end
  /\ totalKeywordMatches (analytics 0 scenarioItems None)
     = list_sum (List.map count (allMatches scenarioItems))
  /\ totalKeywordMatches (analytics 0 scenarioItems None)
     = sumValues (keywordFrequency (analytics 0 scenarioItems None)).
Proof.
  apply (keywordFrequency_sums_counts 0 scenarioItems None "ai").
  vm_compute. reflexivity.
Defined.

(* ===================================================================== *)
(** * More on the scheduler *)
(* ===================================================================== *)

Section RunFacts.
Context (E : Engine) (env : Env) (fuel : nat) (kws : list string).

Lemma settled_completed aid p r t a :
  settled E fuel kws aid p r t = Some a ->
  Status_eqb (a_status a) Completed
  = match r with
    | Resolved text =>
        match findKeywordMatches E fuel text kws with
        | Returned _ => true
        | Threw _ | OutOfFuel => false
        end
    | Rejected _ => false
    end.
Proof.
  unfold settled. destruct r as [text|e].
  - destruct (findKeywordMatches E fuel text kws); intros [= <-]; reflexivity.
  - intros [= <-]. reflexivity.
Qed.

Lemma completed_count : forall (ps : list string) (rs : list PromptAnalysis)
                               (c : nat),
  List.length rs = List.length ps ->
  (forall k p, ps !! k = Some p ->
     exists a aid t,
       rs !! k = Some a
       /\ settled E fuel kws aid p (provider env (c + k) p) t = Some a) ->
  List.length
    (List.filter (fun a => Status_eqb (a_status a) Completed) rs)
  = succeeding E env fuel kws c ps.
Proof.
  induction ps as [|p ps IH]; intros rs c Hlen Hres.
  - destruct rs; [reflexivity|discriminate].
  - destruct rs as [|a rs]; [discriminate|].
    destruct (Hres 0 p eq_refl) as (a' & aid & t & Ha & Hset).
    injection Ha as <-. rewrite Nat.add_0_r in Hset.
    cbn [List.filter succeeding]. unfold promptSucceeds.
    rewrite (settled_completed _ _ _ _ _ Hset).
    assert (Hrest : List.length
              (List.filter (fun a => Status_eqb (a_status a) Completed) rs)
              = succeeding E env fuel kws (S c) ps).
    { apply IH; [simpl in Hlen; lia|].
      intros k q Hk. destruct (Hres (S k) q Hk) as (b & bid & u & Hb & Hs).
      exists b, bid, u. split; [exact Hb|].
      now replace (S c + k) with (c + S k) by lia. }
    destruct (provider env c p) as [text|e].
    + destruct (findKeywordMatches E fuel text kws); simpl; lia.
    + simpl. lia.
Qed.
End RunFacts.

(** X4: after a run that came back, the analytics count one prompt per
    prompt entered, and as responses exactly the prompts whose provider call
    resolved and whose keyword scan returned; every other item is in
    error. *)
Theorem analytics_after_run :
  forall (E : Engine) (env : Env) (fuel : nat) (w w' : World) (now : Z),
    canStart w = true ->
    startAnalysis E env fuel w = (Some tt, w') ->
    totalPrompts
      (analytics now (analyses (app w')) (currentSession (app w')))
    = List.length (prompts (app w))
    /\ totalResponses
         (analytics now (analyses (app w')) (currentSession (app w')))
       = succeeding E env fuel (keywords (app w)) (calls w) (prompts (app w))
    /\ List.length
         (List.filter (fun a => Status_eqb (a_status a) Error)
                      (analyses (app w')))
       = List.length (prompts (app w))
         - succeeding E env fuel (keywords (app w)) (calls w)
                      (prompts (app w)).
Proof.
  intros E env fuel w w' now Hgo Hrun.
  apply startAnalysis_run in Hrun; [|assumption].
  destruct Hrun as (_ & _ & _ & _ & (s & _ & _ & _ & _ & Hs) & _).
  destruct Hs as (_ & _ & _ & Han & _ & Hlen & Hres).
  unfold analytics. cbn [totalPrompts totalResponses]. rewrite Han.
  pose proof (completed_count E env fuel (keywords (app w))
                (prompts (app w)) (s_results s) (calls w) Hlen Hres) as Hc.
  split; [assumption|]. split; [assumption|].
  rewrite <- Hc, <- Hlen.
  assert (Hterm : Forall (fun a => isTerminal a = true) (s_results s)).
  { rewrite List.Forall_forall. intros a Hin.
    apply list_elem_of_In, list_elem_of_lookup in Hin.
    destruct Hin as [k Hk].
    destruct (prompts (app w) !! k) as [p|] eqn:Hp.
    - destruct (Hres k p Hp) as (b & aid & t & Hb & Hset).
      rewrite Hk in Hb. injection Hb as <-.
      now apply settled_id in Hset.
    - apply lookup_ge_None in Hp. apply lookup_lt_Some in Hk. lia. }
  clear -Hterm. induction Hterm as [|a rs Ha _ IH]; [reflexivity|].
  unfold isTerminal in Ha. simpl.
  pose proof (List.filter_length_le
                (fun a => Status_eqb (a_status a) Completed) rs) as Hle.
  destruct (a_status a); try discriminate; simpl; rewrite IH; lia.
Qed.

Lemma analytics_after_run_witness :
  totalPrompts (analytics 0 (analyses (app scenarioFirstRun))
                            (currentSession (app scenarioFirstRun))) = 3
  /\ totalResponses (analytics 0 (analyses (app scenarioFirstRun))
                                 (currentSession (app scenarioFirstRun))) = 2.
Proof.
  destruct (analytics_after_run Fragment.engine scenarioEnv 40 scenarioWorld
              scenarioFirstRun 0) as (Hp & Hr & _).
  - reflexivity.
  - vm_compute. reflexivity.
  - split; [exact Hp|]. rewrite Hr. vm_compute. reflexivity.
Defined.

(** ** Keywords that are not patterns *)

Lemma mapKeywords_malformed (E : Engine) fuel text kws kw msg ms :
  In kw kws -> compile E kw = SyntaxError msg ->
  mapKeywords E fuel text kws <> Returned ms.
Proof.
  revert ms. induction kws as [|k kws IH]; intros ms Hin Hc; [destruct Hin|].
  simpl. destruct Hin as [->|Hin].
  - unfold scanKeyword. rewrite Hc. discriminate.
  - destruct (scanKeyword E fuel text k); try discriminate.
    destruct (mapKeywords E fuel text kws) as [ms'| |] eqn:Hm;
      try discriminate.
    exfalso. now apply (IH ms' Hin Hc).
Qed.

Lemma findKeywordMatches_malformed (E : Engine) fuel text kws kw msg ms :
  In kw kws -> compile E kw = SyntaxError msg ->
  findKeywordMatches E fuel text kws <> Returned ms.
Proof.
  intros Hin Hc. unfold findKeywordMatches.
  destruct (mapKeywords E fuel text kws) as [ms'| |] eqn:Hm;
    try discriminate.
  exfalso. now apply (mapKeywords_malformed E fuel text kws kw msg ms').
Qed.

Lemma findKeywordMatches_malformed_first (E : Engine) fuel text kw rest msg :
  compile E kw = SyntaxError msg ->
  findKeywordMatches E fuel text (kw :: rest) = Threw (ErrorValue msg).
Proof.
  intros Hc. unfold findKeywordMatches. simpl. unfold scanKeyword.
  now rewrite Hc.
Qed.

(** X5: a keyword that is not a well-formed pattern spoils every item.
    Whenever the run comes back, no item is completed: every item is in
    error with an empty response, the generated texts are dropped and the
    analytics count no response.  When the malformed keyword is the first
    one the run always comes back, and the item of each prompt whose call
    resolved carries the message of the syntax error. *)
Theorem malformed_keyword_fails_every_item :
  forall (E : Engine) (env : Env) (fuel : nat) (w : World)
         (pre rest : list string) (kw msg : string),
    prompts (app w) <> [] ->
    keywords (app w) = pre ++ kw :: rest ->
    compile E kw = SyntaxError msg ->
    (forall w' now,
       startAnalysis E env fuel w = (Some tt, w') ->
       Forall (fun a => a_status a = Error /\ a_response a = EmptyString
                        /\ a_keywordMatches a = [])
              (analyses (app w'))
       /\ List.length (analyses (app w')) = List.length (prompts (app w))
       /\ totalResponses
            (analytics now (analyses (app w')) (currentSession (app w')))
          = 0)
    /\ (pre = [] ->
        exists w',
          startAnalysis E env fuel w = (Some tt, w')
          /\ forall k p text,
               prompts (app w) !! k = Some p ->
               provider env (calls w + k) p = Resolved text ->
               exists a, analyses (app w') !! k = Some a
                         /\ a_error a = Some msg).
Proof.
  intros E env fuel w pre rest kw msg Hps Hkws Hc.
  assert (Hgo : canStart w = true).
  { unfold canStart. destruct (prompts (app w)); [congruence|].
    rewrite Hkws. destruct pre; reflexivity. }
  assert (Hin : In kw (keywords (app w))).
  { rewrite Hkws. apply List.in_or_app. right. now left. }
  assert (Herr : forall aid p r t a,
            settled E fuel (keywords (app w)) aid p r t = Some a ->
            a_status a = Error /\ a_response a = EmptyString
            /\ a_keywordMatches a = []).
  { intros aid p r t a. unfold settled. destruct r as [text|e].
    - destruct (findKeywordMatches E fuel text (keywords (app w)))
        as [ms| |] eqn:Hf.
      + exfalso.
        now apply (findKeywordMatches_malformed E fuel text
                     (keywords (app w)) kw msg ms).
      + intros [= <-]. auto.
      + discriminate.
    - intros [= <-]. auto. }
  split.
  - intros w' now Hrun.
    apply startAnalysis_run in Hrun; [|assumption].
    destruct Hrun as (_ & _ & _ & _ & (s & _ & _ & _ & _ & Hs) & _).
    destruct Hs as (_ & _ & _ & Han & _ & Hlen & Hres).
    assert (Hall : Forall (fun a => a_status a = Error
                                    /\ a_response a = EmptyString
                                    /\ a_keywordMatches a = [])
                          (analyses (app w'))).
    { rewrite Han, List.Forall_forall. intros a Ha.
      apply list_elem_of_In, list_elem_of_lookup in Ha.
      destruct Ha as [k Hk].
      destruct (prompts (app w) !! k) as [p|] eqn:Hp.
      - destruct (Hres k p Hp) as (b & aid & t & Hb & Hset).
        rewrite Hk in Hb. injection Hb as <-. now apply Herr in Hset.
      - apply lookup_ge_None in Hp. apply lookup_lt_Some in Hk. lia. }
    split; [exact Hall|]. split; [now rewrite Han|].
    unfold analytics. cbn [totalResponses].
    clear -Hall. induction Hall as [|a l (Hst & _) _ IH]; [reflexivity|].
    simpl. now rewrite Hst.
  - intros ->. simpl in Hkws.
    destruct (startAnalysis E env fuel w) as [r w'] eqn:Hrun.
    apply startAnalysis_run in Hrun; [|assumption].
    destruct Hrun as (_ & _ & _ & _ & (s & _ & _ & _ & _ & Hs) & Hret).
    assert (Hr : r = Some tt).
    { apply Hret. intros k p text _ _. rewrite Hkws.
      now rewrite (findKeywordMatches_malformed_first E fuel text kw rest
                     msg). }
    subst r.
    destruct Hs as (_ & _ & _ & Han & _ & _ & Hres).
    exists w'. split; [reflexivity|].
    intros k p text Hk Hp.
    destruct (Hres k p Hk) as (a & aid & t & Ha & Hset).
    exists a. rewrite Han. split; [exact Ha|].
    unfold settled in Hset. rewrite Hp, Hkws in Hset.
    rewrite (findKeywordMatches_malformed_first E fuel text kw rest msg)
      in Hset by assumption.
    injection Hset as <-. reflexivity.
Qed.

Lemma malformed_keyword_fails_every_item_witness :
  exists w',
    startAnalysis Fragment.engine (echoEnv "c++ and ai") 20
                  (freshWorld ["first"; "second"] ["c++"; "ai"])
    = (Some tt, w')
    /\ List.map a_error (analyses (app w'))
       = [Some "Invalid regular expression: /c++/";
          Some "Invalid regular expression: /c++/"].
Proof.
  destruct (malformed_keyword_fails_every_item Fragment.engine
              (echoEnv "c++ and ai") 20
              (freshWorld ["first"; "second"] ["c++"; "ai"])
              [] ["ai"] "c++" "Invalid regular expression: /c++/")
    as [_ Hfirst].
  - discriminate.
  - reflexivity.
  - vm_compute. reflexivity.
  - destruct (Hfirst eq_refl) as (w' & Hrun & _).
    exists w'. split; [exact Hrun|].
    vm_compute in Hrun. injection Hrun as <-. reflexivity.
Defined.

(** X6: a keyword with an empty match does not hang the run, it fails
    the items.  Given fuel for the longest generated text, a run whose
    keywords, up to one that compiles, all compile comes back with a
    completed session; and every prompt whose call resolved with a text in
    which that keyword has an empty match gets an item in error with the
    message of [push], [Invalid array length]: the generated text is
    dropped and no match is recorded. *)
Theorem empty_match_fails_the_item :
  forall (E : Engine) (env : Env) (fuel : nat) (w : World)
         (pre rest : list string) (kw : string) (pat : pattern E),
    prompts (app w) <> [] ->
    keywords (app w) = pre ++ kw :: rest ->
    Forall (compiles E) pre ->
    compile E kw = Pattern pat ->
    runFuel env (calls w) (prompts (app w)) <= fuel ->
    exists w' s,
      startAnalysis E env fuel w = (Some tt, w')
      /\ currentSession (app w') = Some s
      /\ s_status s = SessionCompleted
      /\ isRunning (app w') = false
      /\ List.length (analyses (app w')) = List.length (prompts (app w))
      /\ forall k p text j,
           prompts (app w) !! k = Some p ->
           provider env (calls w + k) p = Resolved text ->
           In (j, 0) (stringMatch E pat text) ->
           exists a,
             analyses (app w') !! k = Some a
             /\ a_status a = Error
             /\ a_error a = Some "Invalid array length"
             /\ a_response a = EmptyString
             /\ a_keywordMatches a = [].
Proof.
  intros E env fuel w pre rest kw pat Hps Hkws Hpre Hc Hfuel.
  assert (Hgo : canStart w = true).
  { unfold canStart. rewrite Hkws. destruct (prompts (app w)); [congruence|].
    destruct pre; reflexivity. }
  destruct (startAnalysis_returns E env fuel w Hgo Hfuel) as [w' Hrun].
  pose proof Hrun as Hrun'.
  apply startAnalysis_run in Hrun'; [|assumption].
  destruct Hrun' as (_ & _ & _ & _ & (s & Hcur & _ & _ & _ & Hs) & _).
  destruct Hs as (Hst & _ & Hidle & Han & _ & Hlen & Hres).
  exists w', s. do 4 (split; [assumption|]).
  split; [now rewrite Han|].
  intros k p text j Hk Hp Hin.
  destruct (Hres k p Hk) as (a & aid & t & Ha & Hset).
  exists a. split; [now rewrite Han|].
  assert (Hthrow : findKeywordMatches E fuel text (keywords (app w))
                   = Threw invalidArrayLength).
  { pose proof (runFuel_enough env fuel _ _ k p text Hfuel Hk Hp) as Hf.
    rewrite Hkws. unfold findKeywordMatches.
    rewrite (mapKeywords_throws E fuel text pre kw rest); auto.
    now apply scanKeyword_throws with pat j. }
  unfold settled in Hset. rewrite Hp, Hthrow in Hset.
  injection Hset as <-. simpl. auto.
Qed.

Lemma empty_match_fails_the_item_witness :
  exists w' s,
    startAnalysis Fragment.engine (echoEnv "banana") 8
                  (freshWorld ["first"] ["an"; "a*"]) = (Some tt, w')
    /\ currentSession (app w') = Some s
    /\ s_status s = SessionCompleted
    /\ exists a,
         analyses (app w') !! 0 = Some a
         /\ a_status a = Error
         /\ a_error a = Some "Invalid array length".
Proof.
  destruct (empty_match_fails_the_item Fragment.engine (echoEnv "banana") 8
              (freshWorld ["first"] ["an"; "a*"]) ["an"] [] "a*"
              [[(Fragment.Lit "a", Fragment.ZeroOrMore)]])
    as (w' & s & Hrun & Hcur & Hst & _ & _ & Hitem).
  - discriminate.
  - reflexivity.
  - repeat constructor.
    now exists [[(Fragment.Lit "a", Fragment.Once);
                 (Fragment.Lit "n", Fragment.Once)]].
  - reflexivity.
  - apply Nat.leb_le. vm_compute. reflexivity.
  - exists w', s. do 3 (split; [assumption|]).
    destruct (Hitem 0 "first" "banana" 0) as (a & Ha & Hs & He & _).
    + reflexivity.
    + reflexivity.
    + vm_compute. now left.
    + exists a. auto.
Defined.

(* ===================================================================== *)
(** * More on the batch component *)
(* ===================================================================== *)

(** X7: whatever file is uploaded, the handler comes back and leaves the
    batch in one of two states: no rows and an error shown, or the rows the
    file parses to, between 1 and 50 of them, and no error.  It touches
    nothing else: no session, no item, no provider call, no clock
    reading. *)
Theorem upload_leaves_rows_or_error :
  forall (csvText : string) (w : World),
    exists w1,
      handleFileUpload (Some csvText) w = (Some tt, w1)
      /\ app w1 = app w
      /\ batchSession (batch w1) = batchSession (batch w)
      /\ isProcessing (batch w1) = isProcessing (batch w)
      /\ calls w1 = calls w /\ ticks w1 = ticks w
      /\ history w1 = history w
      /\ ((batchData (batch w1) = [] /\ is_Some (batchError (batch w1)))
          \/ (parseCSV csvText = Returned (batchData (batch w1))
              /\ 1 <= List.length (batchData (batch w1)) <= 50
              /\ batchError (batch w1) = None)).
Proof.
  intros csvText w. unfold handleFileUpload, checkedRows.
  unfold parseCSV.
  match goal with
  | |- context [if ?c then Threw ?e else Returned ?rows] =>
      destruct c eqn:Hhead; [|set (rows' := rows)]
  end.
  - unfold bind, setError, setBatchData, modifyBatch. simpl.
    eexists. split; [reflexivity|]. simpl.
    do 6 (split; [reflexivity|]). left. split; [reflexivity|eauto].
  - destruct (Nat.eqb_spec (List.length rows') 0) as [H0|H0].
    + unfold bind, setError, setBatchData, modifyBatch. simpl.
      eexists. split; [reflexivity|]. simpl.
      do 6 (split; [reflexivity|]). left. split; [reflexivity|eauto].
    + destruct (Nat.ltb_spec 50 (List.length rows')) as [H50|H50].
      * unfold bind, setError, setBatchData, modifyBatch. simpl.
        eexists. split; [reflexivity|]. simpl.
        do 6 (split; [reflexivity|]). left. split; [reflexivity|eauto].
      * unfold bind, setError, setBatchData, modifyBatch. simpl.
        eexists. split; [reflexivity|]. simpl.
        do 6 (split; [reflexivity|]). right.
        split; [reflexivity|]. split; [lia|reflexivity].
Qed.

(** ** Running the batch *)

Lemma minimum_le (xs : list Z) (x : Z) : In x xs -> (minimum xs <= x)%Z.
Proof.
  destruct xs as [|y ys]; [intros []|]. unfold minimum.
  assert (Hfold : forall l acc,
            (fold_left Z.min l acc <= acc)%Z
            /\ forall z, In z l -> (fold_left Z.min l acc <= z)%Z).
  { induction l as [|z l IH]; intros acc; simpl; [split; [lia|tauto]|].
    destruct (IH (Z.min acc z)) as [H1 H2]. split; [lia|].
    intros z' [<-|Hin]; [lia|now apply H2]. }
  intros [<-|Hin]; [apply (proj1 (Hfold ys _)) | now apply (proj2 (Hfold ys y))].
Qed.

Lemma maximum_ge (xs : list Z) (x : Z) : In x xs -> (x <= maximum xs)%Z.
Proof.
  destruct xs as [|y ys]; [intros []|]. unfold maximum.
  assert (Hfold : forall l acc,
            (acc <= fold_left Z.max l acc)%Z
            /\ forall z, In z l -> (z <= fold_left Z.max l acc)%Z).
  { induction l as [|z l IH]; intros acc; simpl; [split; [lia|tauto]|].
    destruct (IH (Z.max acc z)) as [H1 H2]. split; [lia|].
    intros z' [<-|Hin]; [lia|now apply H2]. }
  intros [<-|Hin]; [apply (proj1 (Hfold ys _)) | now apply (proj2 (Hfold ys y))].
Qed.

Lemma prefix_append (p x : string) : String.prefix p (p +:+ x) = true.
Proof.
  induction p as [|c p IH]; [now destruct x|].
  rewrite append_cons. simpl. rewrite IH.
  now destruct (ascii_dec c c).
Qed.

Section BatchFacts.
Context (E : Engine) (env : Env) (fuel : nat).

Lemma settledRow_item row i r t1 t2 a :
  settledRow E fuel row i r t1 t2 = Some a ->
  a_prompt a = r_prompt row /\ isTerminal a = true /\ itemInvariant a
  /\ isBatchItem a = true.
Proof.
  assert (Hid : forall x, String.prefix "batch-analysis-"
                            ("batch-analysis-" +:+ x) = true)
    by (intros x; apply prefix_append).
  unfold settledRow, isBatchItem, isTerminal, itemInvariant.
  destruct r as [text|e].
  - destruct (findKeywordMatches E fuel text (r_keywords row));
      intros [= <-]; cbn [a_prompt a_status a_error a_response
                           a_keywordMatches a_id]; eauto 10.
  - intros [= <-]; cbn [a_prompt a_status a_error a_response
                         a_keywordMatches a_id]; eauto 10.
Qed.

Lemma processRow_run row i w r w1 :
  processRow E env fuel row i w = (r, w1) ->
  r = settledRow E fuel row i (provider env (calls w) (r_prompt row))
                 (clock env (ticks w)) (clock env (S (ticks w)))
  /\ app w1 = app w
  /\ history w1 = history w
  /\ calls w1 = S (calls w)
  /\ batchData (batch w1) = batchData (batch w)
  /\ isProcessing (batch w1) = isProcessing (batch w)
  /\ batchError (batch w1) = batchError (batch w)
  /\ option_map forgetProgress (batchSession (batch w1))
     = option_map forgetProgress (batchSession (batch w)).
Proof.
  unfold processRow, settledRow, bind, setBatchSession, modifyBatch,
    generateText, now, ret, noFuel. simpl.
  assert (Hs : option_map forgetProgress
                 (option_map (withProcessedRows i) (batchSession (batch w)))
               = option_map forgetProgress (batchSession (batch w)))
    by (destruct (batchSession (batch w)); reflexivity).
  destruct (provider env (calls w) (r_prompt row)) as [text|e].
  - destruct (findKeywordMatches E fuel text (r_keywords row));
      intros [= <- <-]; simpl; auto 10.
  - intros [= <- <-]; simpl; auto 10.
Qed.

Lemma processRows_run : forall rows i results w r w',
  processRows E env fuel rows i results w = (r, w') ->
  app w' = app w
  /\ history w' = history w
  /\ batchData (batch w') = batchData (batch w)
  /\ isProcessing (batch w') = isProcessing (batch w)
  /\ batchError (batch w') = batchError (batch w)
  /\ option_map forgetProgress (batchSession (batch w'))
     = option_map forgetProgress (batchSession (batch w))
  /\ (forall final, r = Some final ->
        calls w' = calls w + List.length rows
        /\ exists news,
             final = results ++ news
             /\ List.length news = List.length rows
             /\ forall k row, rows !! k = Some row ->
                  exists a t1 t2,
                    news !! k = Some a
                    /\ settledRow E fuel row (i + k)
                         (provider env (calls w + k) (r_prompt row)) t1 t2
                       = Some a)
  /\ ((forall k row text,
         rows !! k = Some row ->
         provider env (calls w + k) (r_prompt row) = Resolved text ->
         findKeywordMatches E fuel text (r_keywords row) <> OutOfFuel) ->
      is_Some r).
Proof.
  induction rows as [|row rows IH]; intros i results w r w' Hrun.
  - simpl in Hrun. injection Hrun as <- <-.
    do 6 (split; [reflexivity|]). split.
    + intros final [= <-]. split; [simpl; lia|].
      exists []. rewrite app_nil_r. split; [reflexivity|].
      split; [reflexivity|]. intros k x Hk. discriminate.
    + eauto.
  - cbn [processRows] in Hrun. unfold bind at 1 in Hrun.
    destruct (processRow E env fuel row i w) as [r1 w1] eqn:Hrow.
    apply processRow_run in Hrow.
    destruct Hrow as (Hr1 & Ha1 & Hh1 & Hc1 & Hd1 & Hp1 & He1 & Hs1).
    destruct r1 as [a|].
    + destruct (IH (S i) (results ++ [a]) w1 r w' Hrun)
        as (Ha & Hh & Hd & Hp & He & Hs & Hfinal & Hret).
      do 5 (split; [congruence|]). split; [congruence|]. split.
      * intros final Hf.
        destruct (Hfinal final Hf) as (Hcalls & news & Hfin & Hlen & Hnews).
        split; [simpl; lia|].
        exists (a :: news). split; [now rewrite Hfin, <- app_assoc|].
        split; [simpl; lia|].
        intros [|k] x Hk.
        -- injection Hk as <-. rewrite !Nat.add_0_r.
           eexists a, _, _. split; [reflexivity|]. symmetry. exact Hr1.
        -- simpl in Hk. destruct (Hnews k x Hk) as (b & t1 & t2 & Hb & Hset).
           exists b, t1, t2. split; [exact Hb|].
           replace (i + S k) with (S i + k) by lia.
           replace (calls w + S k) with (calls w1 + k) by lia.
           exact Hset.
      * intros Hprov. apply Hret. intros k x text Hk Hp'.
        apply (Hprov (S k) x text); [exact Hk|].
        replace (calls w + S k) with (calls w1 + k) by lia. exact Hp'.
    + injection Hrun as <- <-.
      do 6 (split; [assumption|]). split.
      * intros final [=].
      * intros Hprov. exfalso. unfold settledRow in Hr1.
        destruct (provider env (calls w) (r_prompt row)) as [text|e] eqn:Hp';
          [|discriminate].
        specialize (Hprov 0 row text eq_refl).
        rewrite Nat.add_0_r in Hprov. specialize (Hprov Hp').
        destruct (findKeywordMatches E fuel text (r_keywords row));
          congruence.
Qed.
End BatchFacts.

Lemma forgetProgress_fields (s s' : BatchAnalysisSession) :
  forgetProgress s' = forgetProgress s ->
  b_id s' = b_id s /\ b_name s' = b_name s /\ b_rows s' = b_rows s
  /\ b_results s' = b_results s /\ b_startTime s' = b_startTime s
  /\ b_endTime s' = b_endTime s /\ b_status s' = b_status s
  /\ b_totalRows s' = b_totalRows s.
Proof.
  unfold forgetProgress, withProcessedRows. intros [= -> -> -> -> -> -> -> ->].
  auto 10.
Qed.

Section BatchRun.
Context (E : Engine) (env : Env) (fuel : nat).

(** X8: a batch with at least one row, on which the keyword scans come
    back, always runs to its end.  Every row gets one terminal item, in row
    order, with the row's prompt, matched against the row's own keywords; a
    failed call or a throwing scan only puts that row's item in error.  The
    batch session ends completed with all rows processed, the results are
    appended to the items of [App] after those already there, and [App]'s
    session becomes a completed batch session without keywords. *)
Theorem batch_run_completes :
  forall (w : World),
    batchData (batch w) <> [] ->
    (forall k row text,
       batchData (batch w) !! k = Some row ->
       provider env (calls w + k) (r_prompt row) = Resolved text ->
       findKeywordMatches E fuel text (r_keywords row) <> OutOfFuel) ->
    exists w' results bs s,
      processBatch E env fuel w = (Some tt, w')
      /\ List.length results = List.length (batchData (batch w))
      /\ (forall k row, batchData (batch w) !! k = Some row ->
            exists a,
              results !! k = Some a
              /\ a_prompt a = r_prompt row
              /\ isTerminal a = true
              /\ isBatchItem a = true
              /\ match provider env (calls w + k) (r_prompt row) with
                 | Rejected e =>
                     a_status a = Error
                     /\ a_error a = Some (errorMessage e)
                 | Resolved text =>
                     match findKeywordMatches E fuel text (r_keywords row)
                     with
                     | Returned ms =>
                         a_status a = Completed /\ a_response a = text
                         /\ a_keywordMatches a = ms
                     | Threw e =>
                         a_status a = Error
                         /\ a_error a = Some (errorMessage e)
                     | OutOfFuel => False
                     end
                 end)
      /\ batchSession (batch w') = Some bs
      /\ b_status bs = SessionCompleted
      /\ b_results bs = results
      /\ b_rows bs = batchData (batch w)
      /\ b_totalRows bs = List.length (batchData (batch w))
      /\ b_processedRows bs = List.length (batchData (batch w))
      /\ isProcessing (batch w') = false
      /\ batchError (batch w') = None
      /\ batchData (batch w') = batchData (batch w)
      /\ analyses (app w') = analyses (app w) ++ results
      /\ currentSession (app w') = Some s
      /\ s_status s = SessionCompleted
      /\ s_keywords s = []
      /\ s_results s = results
      /\ s_prompts s = List.map r_prompt (batchData (batch w))
      /\ prompts (app w') = prompts (app w)
      /\ keywords (app w') = keywords (app w)
      /\ isRunning (app w') = isRunning (app w)
      /\ calls w' = calls w + List.length (batchData (batch w)).
Proof.
  intros w Hne Hscan.
  unfold processBatch. unfold bind at 1. unfold getBatch at 1.
  cbn beta iota.
  destruct (batchData (batch w)) as [|row0 rows0] eqn:Hrows; [congruence|].
  rewrite <- Hrows in *. clear Hne.
  replace (List.length (batchData (batch w)) =? 0) with false
    by (rewrite Hrows; reflexivity).
  unfold bind at 1, setIsProcessing at 1, modifyBatch at 1. cbn beta iota.
  unfold bind at 1, setError at 1, modifyBatch at 1. cbn beta iota.
  unfold bind at 1, now at 1. cbn beta iota.
  unfold bind at 1, now at 1. cbn beta iota.
  unfold bind at 1, now at 1. cbn beta iota.
  unfold bind at 1, setBatchSession at 1, modifyBatch at 1. cbn beta iota.
  unfold bind at 1.
  match goal with
  | |- context [processRows E env fuel ?rs 0 [] ?w3] =>
      set (w3' := w3);
      destruct (processRows E env fuel rs 0 [] w3') as [r w4] eqn:Hall
  end.
  apply processRows_run in Hall.
  destruct Hall as (Ha4 & Hh4 & Hd4 & Hp4 & He4 & Hs4 & Hfinal & Hret).
  assert (Hr : is_Some r).
  { apply Hret. intros k row text Hk Hp. subst w3'. simpl in *.
    now apply (Hscan k row text). }
  destruct Hr as [results ->].
  destruct (Hfinal results eq_refl) as (Hcalls & news & Hfin & Hlen & Hnews).
  simpl in Hfin. subst news.
  subst w3'. simpl in Ha4, Hh4, Hd4, Hp4, He4, Hs4, Hcalls, Hnews.
  destruct (batchSession (batch w4)) as [s4|] eqn:Hbs4; [|discriminate].
  cbn [option_map] in Hs4.
  apply (inj Some), forgetProgress_fields in Hs4. simpl in Hs4.
  destruct Hs4 as (Hid & Hname & Hbrows & _ & Hstart & _ & _ & Htotal).
  cbn beta iota.
  unfold bind at 1, now at 1. cbn beta iota.
  unfold bind at 1, setBatchSession at 1, modifyBatch at 1. cbn beta iota.
  unfold bind at 1, handleBatchComplete at 1.
  unfold bind at 1, setAnalyses at 1. cbn beta iota zeta.
  unfold bind at 1, now at 1. cbn beta iota.
  unfold setCurrentSession at 1, modifyApp at 1. cbn beta iota.
  unfold setIsProcessing, modifyBatch.
  eexists _, results, _, _. split; [reflexivity|].
  cbn [app batch analyses currentSession batchSession batchData isProcessing
       batchError prompts keywords isRunning calls].
  rewrite Hbs4. cbn [option_map].
  split; [exact Hlen|]. split.
  { intros k row Hk. destruct (Hnews k row Hk) as (a & t1 & t2 & Ha & Hset).
    exists a. split; [exact Ha|].
    pose proof (settledRow_item E fuel _ _ _ _ _ _ Hset)
      as (Hp & Hterm & _ & Hb).
    do 3 (split; [assumption|]).
    unfold settledRow in Hset.
    destruct (provider env (calls w + k) (r_prompt row)) as [text|e].
    - destruct (findKeywordMatches E fuel text (r_keywords row));
        try discriminate; injection Hset as <-; simpl; auto.
    - injection Hset as <-. simpl. auto. }
  split; [reflexivity|].
  cbn [b_status b_results b_rows b_totalRows b_processedRows
       s_status s_keywords s_results s_prompts].
  do 2 (split; [reflexivity|]).
  split; [exact Hbrows|]. split; [exact Htotal|]. split; [reflexivity|].
  split; [reflexivity|]. split; [exact He4|]. split; [exact Hd4|].
  split; [now rewrite Ha4|]. split; [reflexivity|].
  do 3 (split; [reflexivity|]).
  split.
  { cbn [s_prompts]. apply list_eq. intros k. rewrite !list_lookup_fmap.
    destruct (batchData (batch w) !! k) as [row|] eqn:Hk.
    - destruct (Hnews k row Hk) as (a & t1 & t2 & Ha & Hset).
      rewrite Ha. simpl. f_equal.
      now apply settledRow_item in Hset.
    - apply lookup_ge_None in Hk.
      rewrite (proj2 (lookup_ge_None results k)) by lia. reflexivity. }
  rewrite Ha4. do 3 (split; [reflexivity|]). exact Hcalls.
Qed.
End BatchRun.

Lemma batch_run_completes_witness :
  exists w' results bs s,
    processBatch Fragment.engine scenarioEnv 40 twoRowsWorld = (Some tt, w')
    /\ List.length results = 2
    /\ batchSession (batch w') = Some bs
    /\ b_processedRows bs = 2
    /\ currentSession (app w') = Some s
    /\ s_keywords s = []
    /\ analyses (app w') = analyses (app twoRowsWorld) ++ results.
Proof.
  destruct (batch_run_completes Fragment.engine scenarioEnv 40 twoRowsWorld)
    as (w' & results & bs & s & Hrun & Hlen & _ & Hbs & _ & _ & _ & _ & Hpr
        & _ & _ & _ & Han & Hcur & _ & Hkw & _).
  - discriminate.
  - intros k row text Hk Hp.
    do 2 (destruct k as [|k];
          [ vm_compute in Hk; injection Hk as <-;
            vm_compute in Hp; injection Hp as <-; vm_compute; discriminate |]).
    discriminate Hk.
  - exists w', results, bs, s. auto 10.
Defined.

Lemma minimum_In (xs : list Z) : xs <> [] -> In (minimum xs) xs.
Proof.
  destruct xs as [|y ys]; [congruence|]. intros _. unfold minimum.
  assert (Hfold : forall l acc,
            fold_left Z.min l acc = acc \/ In (fold_left Z.min l acc) l).
  { induction l as [|z l IH]; intros acc; simpl; [now left|].
    destruct (IH (Z.min acc z)) as [H|H]; [|now right; right].
    rewrite H. destruct (Z.min_spec acc z) as [[_ ->]|[_ ->]];
      [now left|now right; left]. }
  destruct (Hfold ys y) as [->|H]; [now left|now right].
Qed.

Lemma maximum_In (xs : list Z) : xs <> [] -> In (maximum xs) xs.
Proof.
  destruct xs as [|y ys]; [congruence|]. intros _. unfold maximum.
  assert (Hfold : forall l acc,
            fold_left Z.max l acc = acc \/ In (fold_left Z.max l acc) l).
  { induction l as [|z l IH]; intros acc; simpl; [now left|].
    destruct (IH (Z.max acc z)) as [H|H]; [|now right; right].
    rewrite H. destruct (Z.max_spec acc z) as [[_ ->]|[_ ->]];
      [now right; left|now left]. }
  destruct (Hfold ys y) as [->|H]; [now left|now right].
Qed.

(** X9: when a batch hands over its results (at least one), [App] appends
    them to its items and replaces its session by a completed one, with
    the prompts of the results, no keywords and the results themselves,
    whose start and end times are the earliest and the latest time stamp
    of the results: every result lies between them, both are time stamps
    of results, and the processing time then shown is their difference,
    which is not negative (as long as the latest time stamp is not 0). *)
Theorem batch_session_spans_results :
  forall (env : Env) (results : list PromptAnalysis) (w : World),
    results <> [] ->
    exists w' s e,
      handleBatchComplete env results w = (Some tt, w')
      /\ analyses (app w') = analyses (app w) ++ results
      /\ currentSession (app w') = Some s
      /\ s_id s = "batch-session-" +:+ pretty (clock env (ticks w))
      /\ s_status s = SessionCompleted
      /\ s_prompts s = List.map a_prompt results
      /\ s_keywords s = []
      /\ s_results s = results
      /\ s_endTime s = Some e
      /\ (forall a, In a results ->
            (s_startTime s <= a_timestamp a <= e)%Z)
      /\ (exists a, In a results /\ a_timestamp a = s_startTime s)
      /\ (exists a, In a results /\ a_timestamp a = e)
      /\ (e <> 0%Z ->
          forall now,
            processingTime
              (analytics now (analyses (app w')) (currentSession (app w')))
            = (e - s_startTime s)%Z
            /\ (0 <= e - s_startTime s)%Z).
Proof.
  intros env results w Hne.
  unfold handleBatchComplete, bind, setAnalyses, now, setCurrentSession,
    modifyApp. cbn beta iota zeta.
  eexists _, _, _. split; [reflexivity|].
  cbn [app analyses currentSession s_id s_endTime s_startTime s_status
       s_prompts s_keywords s_results].
  do 8 (split; [reflexivity|]).
  assert (Hspan : forall a, In a results ->
            (minimum (List.map a_timestamp results) <= a_timestamp a
             <= maximum (List.map a_timestamp results))%Z).
  { intros a Ha. split.
    - apply minimum_le. now apply List.in_map.
    - apply maximum_ge. now apply List.in_map. }
  assert (Hmap : List.map a_timestamp results <> []).
  { destruct results; [congruence|discriminate]. }
  split; [exact Hspan|]. split; [|split].
  - pose proof (minimum_In _ Hmap) as Hin. apply in_map_iff in Hin.
    destruct Hin as (a & Ha & Hin). eauto.
  - pose proof (maximum_In _ Hmap) as Hin. apply in_map_iff in Hin.
    destruct Hin as (a & Ha & Hin). eauto.
  - intros He now. unfold analytics.
    cbn [processingTime s_endTime s_startTime].
    apply Z.eqb_neq in He. rewrite He. split; [reflexivity|].
    destruct results as [|a rest]; [congruence|].
    specialize (Hspan a (or_introl eq_refl)). lia.
Qed.

Lemma batch_session_spans_results_witness :
  exists w' s e,
    handleBatchComplete scenarioEnv twoItems scenarioWorld = (Some tt, w')
    /\ currentSession (app w') = Some s
    /\ s_status s = SessionCompleted
    /\ s_endTime s = Some e
    /\ (e - s_startTime s = 1)%Z.
Proof.
  destruct (batch_session_spans_results scenarioEnv twoItems scenarioWorld)
    as (w' & s & e & Hrun & _ & Hcur & _ & Hst & _ & _ & _ & Hend & _).
  - discriminate.
  - exists w', s, e. do 4 (split; [assumption|]).
    vm_compute in Hrun. injection Hrun as <-.
    vm_compute in Hcur. injection Hcur as <-.
    vm_compute in Hend. injection Hend as <-. reflexivity.
Defined.

(** ** The two result tabs *)

Lemma manual_id_not_batch (id : string) :
  String.prefix "analysis-" id = true ->
  String.prefix "batch-analysis-" id = false.
Proof.
  destruct id as [|c id]; [discriminate|].
  destruct c as [[] [] [] [] [] [] [] []]; simpl;
    intros H; try discriminate H; reflexivity.
Qed.

Lemma initialAnalysesFrom_prefix (env : Env) : forall ps index w items w',
  initialAnalysesFrom env ps index w = (Some items, w') ->
  Forall (fun a => String.prefix "analysis-" (a_id a) = true) items.
Proof.
  induction ps as [|p ps IH]; intros index w items w'.
  - simpl. unfold ret. intros [= <- <-]. constructor.
  - cbn [initialAnalysesFrom]. unfold bind at 1. unfold now at 1.
    cbn beta iota. unfold bind at 1. unfold now at 1. cbn beta iota.
    unfold bind at 1.
    match goal with
    | |- context [initialAnalysesFrom env ps (S index) ?w1] =>
        destruct (initialAnalysesFrom env ps (S index) w1) as [[rest|] w2]
          eqn:Hrest
    end; [|discriminate].
    unfold ret. intros [= <- <-]. constructor.
    + cbn [a_id]. apply prefix_append.
    + now apply (IH _ _ _ _ Hrest).
Qed.

Lemma startAnalysis_manual_ids (E : Engine) (env : Env) fuel w w' :
  canStart w = true ->
  startAnalysis E env fuel w = (Some tt, w') ->
  Forall (fun a => isBatchItem a = false) (analyses (app w')).
Proof.
  unfold canStart. intros Hgo Hrun. apply negb_true_iff in Hgo.
  unfold startAnalysis in Hrun. unfold bind at 1 in Hrun.
  unfold getApp at 1 in Hrun. cbn beta iota in Hrun. rewrite Hgo in Hrun.
  unfold bind at 1, setIsRunning at 1, modifyApp at 1 in Hrun.
  cbn beta iota in Hrun.
  unfold bind at 1, now at 1 in Hrun. cbn beta iota in Hrun.
  unfold bind at 1, now at 1 in Hrun. cbn beta iota in Hrun.
  unfold bind at 1, setCurrentSession at 1, modifyApp at 1 in Hrun.
  cbn beta iota in Hrun.
  unfold bind at 1 in Hrun.
  match type of Hrun with
  | context [initialAnalysesFrom env ?ps 0 ?w1] =>
      destruct (initialAnalysesFrom_run env ps 0 w1)
        as (items & w2 & Hinit & Happ2 & _ & _ & _ & Hps & _ & Hids)
  end.
  pose proof (initialAnalysesFrom_prefix env _ _ _ _ _ Hinit) as Hpre.
  rewrite Hinit in Hrun. cbn beta iota in Hrun.
  unfold bind at 1, setAnalyses at 1 in Hrun. cbn beta iota zeta in Hrun.
  unfold bind at 1 in Hrun.
  match type of Hrun with
  | context [processAll E env fuel ?kws ?todo 0 [] ?w3] =>
      set (w3' := w3) in Hrun;
      destruct (processAll E env fuel kws todo 0 [] w3')
        as [rs w4] eqn:Hall
  end.
  assert (Hlen : List.length (prompts (app w)) = List.length items).
  { rewrite <- Hps. now rewrite List.length_map. }
  apply processAll_run in Hall.
  2:{ subst w3'. simpl. now rewrite map_snd_combine. }
  2:{ simpl. rewrite map_snd_combine by assumption.
      now apply initial_ids_NoDup with 0. }
  destruct Hall as (_ & _ & Hfinal & _).
  destruct rs as [results|]; [|discriminate].
  cbn beta iota in Hrun.
  unfold bind at 1, now at 1 in Hrun. cbn beta iota in Hrun.
  unfold bind at 1, setCurrentSession at 1, modifyApp at 1 in Hrun.
  cbn beta iota in Hrun.
  unfold setIsRunning, modifyApp in Hrun.
  injection Hrun as <-. simpl.
  destruct (Hfinal results eq_refl) as (Hanf & _ & news & Hfin & Hlenn & Hnews).
  simpl in Hfin. subst news. rewrite Hanf.
  rewrite List.Forall_forall. intros a Ha.
  apply list_elem_of_In, list_elem_of_lookup in Ha. destruct Ha as [k Hk].
  assert (Hkl : k < List.length (combine (prompts (app w)) items)).
  { rewrite <- Hlenn. now apply lookup_lt_Some in Hk. }
  apply lookup_lt_is_Some in Hkl. destruct Hkl as [[p init] Hpi].
  destruct (Hnews k p init Hpi) as (b & t & Hb & Hset).
  rewrite Hk in Hb. injection Hb as <-.
  apply settled_id in Hset. destruct Hset as (Hid & _).
  apply combine_lookup in Hpi. destruct Hpi as [_ Hinit'].
  unfold isBatchItem. rewrite Hid. apply manual_id_not_batch.
  rewrite List.Forall_forall in Hpre. apply Hpre.
  apply list_elem_of_In, list_elem_of_lookup. eauto.
Qed.

Lemma filter_all {A} (f : A -> bool) (l : list A) :
  Forall (fun a => f a = true) l -> List.filter f l = l.
Proof.
  induction 1 as [|a l Ha _ IH]; [reflexivity|].
  simpl. now rewrite Ha, IH.
Qed.

Lemma filter_none {A} (f : A -> bool) (l : list A) :
  Forall (fun a => f a = false) l -> List.filter f l = [].
Proof.
  induction 1 as [|a l Ha _ IH]; [reflexivity|].
  simpl. now rewrite Ha, IH.
Qed.

(** X10: the two result tabs, which [App] tells apart by the identifier's
    prefix, never mix.  After a manual run that came back the manual tab
    shows all items and the batch tab none: the run replaces the whole
    list, so results of an earlier batch are no longer shown.  After a
    batch the batch tab shows what it showed before followed by the new
    results, and the manual tab is unchanged. *)
Theorem result_tabs_partition :
  forall (E : Engine) (env : Env) (fuel : nat) (w w' : World),
    (canStart w = true ->
     startAnalysis E env fuel w = (Some tt, w') ->
     manualResults (analyses (app w')) = analyses (app w')
     /\ batchResults (analyses (app w')) = []
     /\ List.length (analyses (app w')) = List.length (prompts (app w)))
    /\ (batchData (batch w) <> [] ->
        processBatch E env fuel w = (Some tt, w') ->
        exists results,
          List.length results = List.length (batchData (batch w))
          /\ batchResults (analyses (app w'))
             = batchResults (analyses (app w)) ++ results
          /\ manualResults (analyses (app w'))
             = manualResults (analyses (app w))).
Proof.
  intros E env fuel w w'. split.
  - intros Hgo Hrun.
    pose proof (startAnalysis_manual_ids E env fuel w w' Hgo Hrun) as Hids.
    apply startAnalysis_run in Hrun; [|assumption].
    destruct Hrun as (_ & _ & _ & _ & (s & _ & _ & _ & _ & Hs) & _).
    destruct Hs as (_ & _ & _ & Han & _ & Hlen & _).
    split; [|split].
    + apply filter_all. eapply List.Forall_impl; [|exact Hids].
      intros a Ha. simpl. now rewrite Ha.
    + now apply filter_none.
    + now rewrite Han.
  - intros Hne Hrun.
    (* the run came back, so every scan it made came back *)
    unfold processBatch in Hrun. unfold bind at 1 in Hrun.
    unfold getBatch at 1 in Hrun. cbn beta iota in Hrun.
    destruct (batchData (batch w)) as [|row0 rows0] eqn:Hrows; [congruence|].
    rewrite <- Hrows in *. clear Hne.
    replace (List.length (batchData (batch w)) =? 0) with false in Hrun
      by (rewrite Hrows; reflexivity).
    unfold bind at 1, setIsProcessing at 1, modifyBatch at 1 in Hrun.
    cbn beta iota in Hrun.
    unfold bind at 1, setError at 1, modifyBatch at 1 in Hrun.
    cbn beta iota in Hrun.
    unfold bind at 1, now at 1 in Hrun. cbn beta iota in Hrun.
    unfold bind at 1, now at 1 in Hrun. cbn beta iota in Hrun.
    unfold bind at 1, now at 1 in Hrun. cbn beta iota in Hrun.
    unfold bind at 1, setBatchSession at 1, modifyBatch at 1 in Hrun.
    cbn beta iota in Hrun.
    unfold bind at 1 in Hrun.
    match type of Hrun with
    | context [processRows E env fuel ?rs 0 [] ?w3] =>
        set (w3' := w3) in Hrun;
        destruct (processRows E env fuel rs 0 [] w3') as [r w4] eqn:Hall
    end.
    apply processRows_run in Hall.
    destruct Hall as (Ha4 & _ & _ & _ & _ & _ & Hfinal & _).
    destruct r as [results|]; [|discriminate].
    destruct (Hfinal results eq_refl) as (_ & news & Hfin & Hlen & Hnews).
    simpl in Hfin. subst news. subst w3'. simpl in Ha4, Hnews.
    cbn beta iota in Hrun.
    unfold bind at 1, now at 1 in Hrun. cbn beta iota in Hrun.
    unfold bind at 1, setBatchSession at 1, modifyBatch at 1 in Hrun.
    cbn beta iota in Hrun.
    unfold bind at 1, handleBatchComplete at 1 in Hrun.
    unfold bind at 1, setAnalyses at 1 in Hrun. cbn beta iota zeta in Hrun.
    unfold bind at 1, now at 1 in Hrun. cbn beta iota in Hrun.
    unfold setCurrentSession at 1, modifyApp at 1 in Hrun.
    cbn beta iota in Hrun.
    unfold setIsProcessing, modifyBatch in Hrun.
    injection Hrun as <-. cbn [app analyses]. rewrite Ha4.
    assert (Hbatch : Forall (fun a => isBatchItem a = true) results).
    { rewrite List.Forall_forall. intros a Ha.
      apply list_elem_of_In, list_elem_of_lookup in Ha. destruct Ha as [k Hk].
      assert (Hkl : k < List.length (batchData (batch w))).
      { rewrite <- Hlen. now apply lookup_lt_Some in Hk. }
      apply lookup_lt_is_Some in Hkl. destruct Hkl as [row Hrow].
      destruct (Hnews k row Hrow) as (b & t1 & t2 & Hb & Hset).
      rewrite Hk in Hb. injection Hb as <-.
      now apply settledRow_item in Hset. }
    exists results. split; [exact Hlen|].
    unfold batchResults, manualResults. rewrite !List.filter_app.
    rewrite (filter_all isBatchItem results Hbatch).
    rewrite (filter_none (fun a => negb (isBatchItem a)) results).
    + rewrite app_nil_r. auto.
    + eapply List.Forall_impl; [|exact Hbatch].
      intros a Ha. simpl. now rewrite Ha.
Qed.

Lemma result_tabs_partition_witness :
  manualResults (analyses (app scenarioFirstRun))
  = analyses (app scenarioFirstRun)
  /\ batchResults (analyses (app scenarioFirstRun)) = [].
Proof.
  destruct (proj1 (result_tabs_partition Fragment.engine scenarioEnv 40
                     scenarioWorld scenarioFirstRun))
    as (Hm & Hb & _).
  - reflexivity.
  - vm_compute. reflexivity.
  - split; assumption.
Defined.

(* ===================================================================== *)
(** * The table parser *)
(* ===================================================================== *)

Lemma append_assoc (a b c : string) : (a +:+ b) +:+ c = a +:+ (b +:+ c).
Proof.
  induction a as [|x a IH]; [reflexivity|].
  rewrite !append_cons. now rewrite IH.
Qed.

Lemma append_nil_r (a : string) : a +:+ "" = a.
Proof.
  induction a as [|x a IH]; [reflexivity|].
  rewrite append_cons. now rewrite IH.
Qed.

Lemma isEmpty_append (a b : string) :
  isEmpty (a +:+ b) = isEmpty a && isEmpty b.
Proof. destruct a; [reflexivity|]. now rewrite append_cons. Qed.

Lemma lacks_append c (a b : string) :
  lacks c (a +:+ b) = lacks c a && lacks c b.
Proof.
  induction a as [|x a IH]; [reflexivity|].
  rewrite append_cons. simpl. rewrite IH. now rewrite andb_assoc.
Qed.

(** ** [trim] *)

Local Arguments isWhiteSpace : simpl never.

Lemma trimStart_length s : String.length (trimStart s) <= String.length s.
Proof.
  induction s as [|c s IH]; simpl; [lia|].
  destruct (isWhiteSpace c); simpl; lia.
Qed.

Lemma trimEnd_length s : String.length (trimEnd s) <= String.length s.
Proof.
  induction s as [|c s IH]; simpl; [lia|].
  destruct (isWhiteSpace c && isEmpty (trimEnd s)); simpl; lia.
Qed.

Lemma trimStart_head c s :
  isWhiteSpace c = false -> trimStart (String c s) = String c s.
Proof. intros H. simpl. now rewrite H. Qed.

Lemma trimStart_fixed s : trimStart (trimStart s) = trimStart s.
Proof.
  induction s as [|c s IH]; [reflexivity|]. simpl.
  destruct (isWhiteSpace c) eqn:Hc; [exact IH|]. simpl. now rewrite Hc.
Qed.

Lemma trimEnd_fixed s : trimEnd (trimEnd s) = trimEnd s.
Proof.
  induction s as [|c s IH]; [reflexivity|]. simpl.
  destruct (isWhiteSpace c && isEmpty (trimEnd s)) eqn:Hc; [reflexivity|].
  simpl. rewrite IH, Hc. reflexivity.
Qed.

(** Dropping white space at the end leaves a clean start clean. *)
Lemma trimStart_trimEnd s :
  trimStart s = s -> trimStart (trimEnd s) = trimEnd s.
Proof.
  destruct s as [|c s]; [reflexivity|]. simpl.
  destruct (isWhiteSpace c) eqn:Hc.
  - intros H. exfalso.
    pose proof (trimStart_length s) as Hl. rewrite H in Hl. simpl in Hl. lia.
  - intros _. simpl. now rewrite Hc.
Qed.

Lemma trim_fixed s : trim (trim s) = trim s.
Proof.
  unfold trim.
  rewrite (trimStart_trimEnd (trimStart s)) by apply trimStart_fixed.
  apply trimEnd_fixed.
Qed.

Lemma trim_parts s : trim s = s -> trimStart s = s /\ trimEnd s = s.
Proof.
  unfold trim. intros H.
  assert (Hs : trimStart s = s).
  { destruct s as [|c s]; [reflexivity|]. simpl in *.
    destruct (isWhiteSpace c); [|reflexivity]. exfalso.
    pose proof (trimEnd_length (trimStart s)) as H1.
    pose proof (trimStart_length s) as H2.
    rewrite H in H1. simpl in H1. lia. }
  split; [exact Hs|]. now rewrite Hs in H.
Qed.

Lemma trimStart_append a b :
  isEmpty a = false -> trimStart a = a -> trimStart (a +:+ b) = a +:+ b.
Proof.
  destruct a as [|c a]; [discriminate|]. intros _. simpl.
  destruct (isWhiteSpace c) eqn:Hc.
  - intros H. exfalso.
    pose proof (trimStart_length a) as Hl. rewrite H in Hl. simpl in Hl. lia.
  - intros _. now rewrite append_cons.
Qed.

Lemma trimEnd_append a b :
  isEmpty b = false -> trimEnd b = b -> trimEnd (a +:+ b) = a +:+ b.
Proof.
  intros Hb Ht. induction a as [|c a IH]; [exact Ht|].
  rewrite append_cons. simpl. rewrite IH, isEmpty_append, Hb.
  now rewrite andb_false_r, andb_false_r.
Qed.

Lemma trim_append a b c :
  isEmpty a = false -> trimStart a = a ->
  isEmpty c = false -> trimEnd c = c ->
  trim (a +:+ b +:+ c) = a +:+ b +:+ c.
Proof.
  intros Ha Hsa Hc Hec. unfold trim.
  rewrite trimStart_append by assumption.
  rewrite <- append_assoc. now apply trimEnd_append.
Qed.

(** ** [split] *)

Lemma split_lacks sep s : lacks sep s = true -> split sep s = [s].
Proof.
  induction s as [|c s IH]; [reflexivity|]. simpl.
  intros H. apply andb_prop in H. destruct H as [Hc Hs].
  apply negb_true_iff in Hc. rewrite Hc, (IH Hs). reflexivity.
Qed.

Lemma split_append sep a b :
  lacks sep a = true ->
  split sep (a +:+ String sep b) = a :: split sep b.
Proof.
  induction a as [|c a IH]; intros H.
  - rewrite append_nil. simpl. now rewrite Ascii.eqb_refl.
  - simpl in H. apply andb_prop in H. destruct H as [Hc Ha].
    apply negb_true_iff in Hc.
    rewrite append_cons. simpl. rewrite Hc, (IH Ha). reflexivity.
Qed.

Lemma split_pieces_lack sep s : Forall (fun x => lacks sep x = true) (split sep s).
Proof.
  induction s as [|c s IH]; simpl; [repeat constructor|].
  destruct (Ascii.eqb c sep) eqn:Hc.
  - constructor; [reflexivity|exact IH].
  - destruct (split sep s) as [|x xs]; [repeat constructor; simpl; now rewrite Hc|].
    apply Forall_cons in IH. destruct IH as [Hx Hxs].
    constructor; [|exact Hxs]. simpl. now rewrite Hc, Hx.
Qed.

Lemma split_pieces_keep c sep s :
  lacks c s = true -> Forall (fun x => lacks c x = true) (split sep s).
Proof.
  induction s as [|x s IH]; simpl; [repeat constructor|].
  intros H. apply andb_prop in H. destruct H as [Hx Hs].
  specialize (IH Hs). destruct (Ascii.eqb x sep).
  - constructor; [reflexivity|exact IH].
  - destruct (split sep s) as [|y ys];
      [repeat constructor; simpl; now rewrite Hx|].
    apply Forall_cons in IH. destruct IH as [Hy Hys].
    constructor; [|exact Hys]. simpl. now rewrite Hx, Hy.
Qed.

Lemma split_length sep s : 1 <= List.length (split sep s).
Proof.
  induction s as [|c s IH]; simpl; [lia|].
  destruct (Ascii.eqb c sep); simpl; [lia|].
  destruct (split sep s); simpl; lia.
Qed.

Lemma lacks_trimStart c s : lacks c s = true -> lacks c (trimStart s) = true.
Proof.
  induction s as [|x s IH]; [reflexivity|]. simpl.
  intros H. destruct (isWhiteSpace x); [|exact H].
  apply andb_prop in H. now apply IH.
Qed.

Lemma lacks_trimEnd c s : lacks c s = true -> lacks c (trimEnd s) = true.
Proof.
  induction s as [|x s IH]; [reflexivity|]. simpl.
  intros H. apply andb_prop in H. destruct H as [Hx Hs].
  destruct (isWhiteSpace x && isEmpty (trimEnd s)); [reflexivity|].
  simpl. now rewrite Hx, IH.
Qed.

Lemma lacks_trim c s : lacks c s = true -> lacks c (trim s) = true.
Proof. intros H. unfold trim. now apply lacks_trimEnd, lacks_trimStart. Qed.

Lemma lacks_removeQuotes s : lacks dquote (removeQuotes s) = true.
Proof.
  induction s as [|x s IH]; [reflexivity|]. simpl.
  destruct (Ascii.eqb x dquote) eqn:Hx; [exact IH|].
  simpl. now rewrite Hx, IH.
Qed.

Lemma removeQuotes_lacks s : lacks dquote s = true -> removeQuotes s = s.
Proof.
  induction s as [|x s IH]; [reflexivity|]. simpl.
  intros H. apply andb_prop in H. destruct H as [Hx Hs].
  apply negb_true_iff in Hx. now rewrite Hx, IH.
Qed.

(** ** Rows that [parseCSV] returns *)

Lemma parseLines_rows lines pi ki acc :
  Forall parsedRowOk acc ->
  Forall parsedRowOk (parseLines lines pi ki acc)
  /\ List.length (parseLines lines pi ki acc)
     <= List.length acc + List.length lines.
Proof.
  revert acc. induction lines as [|l rest IH]; intros acc Hacc.
  - simpl. split; [exact Hacc|lia].
  - cbn [parseLines]. cbv zeta.
    destruct (isEmpty (trim l)).
    { destruct (IH acc Hacc) as [H1 H2]. split; [exact H1|simpl; lia]. }
    destruct (_ <=? _).
    2:{ destruct (IH acc Hacc) as [H1 H2]. split; [exact H1|simpl; lia]. }
    set (fields := splitFields (trim l) "" false []).
    set (prompt := trim (removeQuotes (nth pi fields ""))).
    set (keywordsStr := trim (removeQuotes (nth ki fields ""))).
    destruct (isEmpty prompt) eqn:Hp; cbn [negb andb].
    { destruct (IH acc Hacc) as [H1 H2]. split; [exact H1|simpl; lia]. }
    destruct (isEmpty keywordsStr) eqn:Hk; cbn [negb].
    { destruct (IH acc Hacc) as [H1 H2]. split; [exact H1|simpl; lia]. }
    match goal with |- context [parseLines rest pi ki ?a] =>
      destruct (IH a) as [H1 H2] end.
    { apply Forall_app. split; [exact Hacc|]. constructor; [|constructor].
      unfold parsedRowOk. cbn [r_prompt r_keywords].
      split; [exact Hp|]. split; [apply trim_fixed|].
      split; [apply lacks_trim, lacks_removeQuotes|].
      apply Forall_forall. intros k Hk'.
      apply list_elem_of_In, filter_In in Hk'. destruct Hk' as [Hin Hne].
      apply negb_true_iff in Hne.
      apply in_map_iff in Hin. destruct Hin as [x [<- Hx]].
      split; [exact Hne|]. split; [apply trim_fixed|].
      split; apply lacks_trim.
      - pose proof (split_pieces_lack comma keywordsStr) as Hs.
        rewrite List.Forall_forall in Hs. now apply Hs.
      - pose proof (split_pieces_keep dquote comma keywordsStr) as Hs.
        rewrite List.Forall_forall in Hs. apply Hs; [|exact Hx].
        apply lacks_trim, lacks_removeQuotes. }
    split; [exact H1|]. rewrite length_app in H2. simpl in *. lia.
Qed.

(** X11: every row that [parseCSV] returns has a prompt that is not empty,
    carries no white space at its ends and holds no double quote, and
    keywords that are not empty, trimmed, and free of commas and double
    quotes; there are at most as many rows as lines after the header. *)
Theorem parsed_rows_are_well_formed (csvText : string) (rows : list BatchRow) :
  parseCSV csvText = Returned rows ->
  Forall parsedRowOk rows
  /\ List.length rows
     <= List.length (split newline (trim csvText)) - 1.
Proof.
  unfold parseCSV. cbv zeta.
  destruct (_ || _); [discriminate|].
  intros H. injection H as <-.
  match goal with |- context [parseLines ?ls ?pi ?ki []] =>
    destruct (parseLines_rows ls pi ki []) as [H1 H2]; [constructor|] end.
  split; [exact H1|].
  pose proof (split_length newline (trim csvText)).
  destruct (split newline (trim csvText)); simpl in *; lia.
Qed.

Lemma parsed_rows_are_well_formed_witness :
  Forall parsedRowOk
    [{| r_prompt := "tell me, now"; r_keywords := ["me"; "now"] |}]
  /\ 1 <= List.length
            (split newline
               (trim ("keywords,prompt" +:+ String newline
                      (quoted "me, ,now" +:+ ", "
                       +:+ quoted "tell me, now" +:+ String newline "x")))) - 1.
Proof.
  apply (parsed_rows_are_well_formed
           ("keywords,prompt" +:+ String newline
              (quoted "me, ,now" +:+ ", "
               +:+ quoted "tell me, now" +:+ String newline "x"))
           [{| r_prompt := "tell me, now"; r_keywords := ["me"; "now"] |}]).
  reflexivity.
Defined.

(** ** The template format read back *)

Lemma cleanText_parts s :
  cleanText s = true ->
  isEmpty s = false /\ trimStart s = s /\ trimEnd s = s
  /\ lacks dquote s = true /\ lacks newline s = true.
Proof.
  unfold cleanText. intros H.
  apply andb_prop in H. destruct H as [H Hn].
  apply andb_prop in H. destruct H as [H Hq].
  apply andb_prop in H. destruct H as [He Ht].
  apply negb_true_iff in He. apply String.eqb_eq in Ht.
  destruct (trim_parts s Ht) as [H1 H2]. auto.
Qed.

Lemma concat_cons2 sep x y ys :
  String.concat sep (x :: y :: ys) = x +:+ sep +:+ String.concat sep (y :: ys).
Proof. reflexivity. Qed.

Lemma comma_append s : "," +:+ s = String comma s.
Proof. reflexivity. Qed.

Lemma lacks_concat c ks :
  lacks c "," = true ->
  Forall (fun k => lacks c k = true) ks ->
  lacks c (String.concat "," ks) = true.
Proof.
  intros Hc. induction ks as [|x [|y ys] IH]; intros H.
  - reflexivity.
  - now apply Forall_cons in H.
  - apply Forall_cons in H. destruct H as [Hx Hr].
    rewrite concat_cons2, !lacks_append, Hx, Hc, (IH Hr). reflexivity.
Qed.

Lemma split_concat ks :
  ks <> [] ->
  Forall (fun k => lacks comma k = true) ks ->
  split comma (String.concat "," ks) = ks.
Proof.
  induction ks as [|x [|y ys] IH]; intros Hne H.
  - contradiction.
  - apply Forall_cons in H. simpl. now apply split_lacks.
  - apply Forall_cons in H. destruct H as [Hx Hr].
    rewrite concat_cons2, comma_append, (split_append _ _ _ Hx), IH;
      [reflexivity|discriminate|exact Hr].
Qed.

Lemma trimEnd_concat ks :
  ks <> [] ->
  Forall (fun k => isEmpty k = false /\ trimEnd k = k) ks ->
  isEmpty (String.concat "," ks) = false
  /\ trimEnd (String.concat "," ks) = String.concat "," ks.
Proof.
  induction ks as [|x [|y ys] IH]; intros Hne H.
  - contradiction.
  - apply Forall_cons in H. simpl. tauto.
  - apply Forall_cons in H. destruct H as [[Hx _] Hr].
    destruct IH as [He Ht]; [discriminate|exact Hr|].
    rewrite concat_cons2. split.
    + now rewrite isEmpty_append, Hx.
    + rewrite <- append_assoc. now apply trimEnd_append.
Qed.

Lemma trimStart_concat x ks :
  isEmpty x = false -> trimStart x = x ->
  trimStart (String.concat "," (x :: ks)) = String.concat "," (x :: ks).
Proof.
  intros He Ht. destruct ks as [|y ys]; [exact Ht|].
  rewrite concat_cons2. now apply trimStart_append.
Qed.

Lemma splitFields_inside s rest cur fields :
  lacks dquote s = true ->
  splitFields (s +:+ String dquote rest) cur true fields
  = splitFields rest (cur +:+ s) false fields.
Proof.
  revert cur. induction s as [|c s IH]; intros cur H.
  - rewrite append_nil, append_nil_r. cbn [splitFields].
    now rewrite Ascii.eqb_refl.
  - simpl in H. apply andb_prop in H. destruct H as [Hc Hs].
    apply negb_true_iff in Hc.
    rewrite append_cons. cbn [splitFields]. rewrite Hc, andb_false_r.
    rewrite (IH _ Hs), append_assoc, append_cons, append_nil. reflexivity.
Qed.

Lemma quoted_cell_fields p k :
  lacks dquote p = true -> lacks dquote k = true ->
  splitFields (quoted p +:+ String comma (quoted k)) "" false []
  = [trim p; trim k].
Proof.
  intros Hp Hk. unfold quoted.
  rewrite append_cons, append_assoc, append_cons, append_nil.
  cbn [splitFields]. rewrite Ascii.eqb_refl. cbn [negb].
  rewrite (splitFields_inside _ _ _ _ Hp), append_nil.
  cbn [splitFields].
  replace (Ascii.eqb comma dquote) with false by reflexivity.
  rewrite Ascii.eqb_refl. cbn [negb andb].
  replace (Ascii.eqb dquote dquote) with true by reflexivity.
  cbn [negb].
  rewrite (splitFields_inside _ _ _ _ Hk), append_nil.
  reflexivity.
Qed.

Lemma quoted_line_trimmed a b :
  isEmpty (quoted a +:+ b +:+ String dquote "") = false
  /\ trim (quoted a +:+ b +:+ String dquote "")
     = quoted a +:+ b +:+ String dquote "".
Proof.
  split.
  - unfold quoted. now rewrite append_cons.
  - unfold trim.
    assert (Hs : trimStart (quoted a +:+ b +:+ String dquote "")
                 = quoted a +:+ b +:+ String dquote "").
    { unfold quoted. rewrite append_cons. now apply trimStart_head. }
    rewrite Hs, <- append_assoc. now apply trimEnd_append.
Qed.

Lemma csvLine_shape r :
  csvLine r
  = quoted (r_prompt r)
    +:+ String comma (String dquote (String.concat "," (r_keywords r)))
    +:+ String dquote "".
Proof.
  unfold csvLine, quoted.
  repeat (rewrite append_cons || rewrite append_assoc || rewrite append_nil).
  reflexivity.
Qed.

Lemma cleanRow_parts r :
  cleanRow r = true ->
  cleanText (r_prompt r) = true /\ r_keywords r <> []
  /\ Forall (fun k => cleanText k = true /\ lacks comma k = true)
            (r_keywords r).
Proof.
  unfold cleanRow. intros H.
  apply andb_prop in H. destruct H as [H Hk].
  apply andb_prop in H. destruct H as [Hp Hn].
  split; [exact Hp|]. split.
  - destruct (r_keywords r); [discriminate|discriminate].
  - rewrite forallb_forall in Hk. apply List.Forall_forall. intros k Hin.
    specialize (Hk k Hin). unfold cleanKeyword in Hk.
    now apply andb_prop in Hk.
Qed.

Lemma filter_map_clean ks :
  Forall (fun k => cleanText k = true /\ lacks comma k = true) ks ->
  List.filter (fun k => negb (isEmpty k)) (List.map trim ks) = ks.
Proof.
  induction 1 as [|k ks [Hk _] _ IH]; [reflexivity|].
  destruct (cleanText_parts k Hk) as (He & Hs & Ht & _).
  assert (Hk' : trim k = k) by (unfold trim; now rewrite Hs, Ht).
  cbn [List.map List.filter]. rewrite Hk', He. cbn [negb]. now rewrite IH.
Qed.

Lemma parseLines_csvLine r rest acc :
  cleanRow r = true ->
  parseLines (csvLine r :: rest) 0 1 acc = parseLines rest 0 1 (acc ++ [r]).
Proof.
  intros Hr. destruct (cleanRow_parts r Hr) as (Hp & Hne & Hks).
  destruct (cleanText_parts _ Hp) as (Hpe & Hps & Hpt & Hpq & _).
  set (K := String.concat "," (r_keywords r)).
  assert (HKq : lacks dquote K = true).
  { apply lacks_concat; [reflexivity|].
    eapply List.Forall_impl; [|exact Hks]. intros k [Hk _].
    now destruct (cleanText_parts k Hk) as (_ & _ & _ & ? & _). }
  assert (HKt : isEmpty K = false /\ trimEnd K = K).
  { apply trimEnd_concat; [exact Hne|].
    eapply List.Forall_impl; [|exact Hks]. intros k [Hk _].
    now destruct (cleanText_parts k Hk) as (? & _ & ? & _). }
  assert (HKs : trimStart K = K).
  { unfold K. destruct (r_keywords r) as [|x ks]; [contradiction|].
    apply Forall_cons in Hks. destruct Hks as [[Hx _] _].
    destruct (cleanText_parts x Hx) as (? & ? & _).
    now apply trimStart_concat. }
  assert (HK : trim K = K) by (unfold trim; now rewrite HKs, (proj2 HKt)).
  assert (HP : trim (r_prompt r) = r_prompt r)
    by (unfold trim; now rewrite Hps, Hpt).
  cbn [parseLines]. cbv zeta.
  pose proof (quoted_line_trimmed (r_prompt r)
                (String comma (String dquote K))) as [Hle Hlt].
  rewrite <- csvLine_shape in Hle, Hlt. fold K in Hle, Hlt.
  rewrite Hlt, Hle.
  unfold csvLine. fold K. rewrite (quoted_cell_fields _ _ Hpq HKq).
  cbn [List.length nth Nat.max Nat.add Nat.leb].
  rewrite HP, HK, (removeQuotes_lacks _ Hpq), (removeQuotes_lacks _ HKq).
  rewrite HP, HK, Hpe, (proj1 HKt). cbn [negb andb].
  unfold K at 1. rewrite split_concat.
  - rewrite (filter_map_clean _ Hks). destruct r; reflexivity.
  - exact Hne.
  - eapply List.Forall_impl; [|exact Hks]. now intros k [_ ?].
Qed.

Lemma parseLines_csvLines rows acc :
  forallb cleanRow rows = true ->
  parseLines (List.map csvLine rows) 0 1 acc = acc ++ rows.
Proof.
  revert acc. induction rows as [|r rows IH]; intros acc H.
  - simpl. now rewrite app_nil_r.
  - simpl in H. apply andb_prop in H. destruct H as [Hr Hrows].
    cbn [List.map]. rewrite (parseLines_csvLine _ _ _ Hr), (IH _ Hrows).
    now rewrite <- app_assoc.
Qed.

Lemma lacks_newline_csvLine r :
  cleanRow r = true -> lacks newline (csvLine r) = true.
Proof.
  intros Hr. destruct (cleanRow_parts r Hr) as (Hp & _ & Hks).
  destruct (cleanText_parts _ Hp) as (_ & _ & _ & _ & Hpn).
  assert (HK : lacks newline (String.concat "," (r_keywords r)) = true).
  { apply lacks_concat; [reflexivity|].
    eapply List.Forall_impl; [|exact Hks]. intros k [Hk _].
    now destruct (cleanText_parts k Hk) as (_ & _ & _ & _ & ?). }
  unfold csvLine, quoted.
  rewrite lacks_append. cbn [lacks]. rewrite !lacks_append. cbn [lacks].
  rewrite Hpn, HK. reflexivity.
Qed.

Lemma split_linesText a rows :
  lacks newline a = true ->
  forallb cleanRow rows = true ->
  split newline (a +:+ linesText rows) = a :: List.map csvLine rows.
Proof.
  revert a. induction rows as [|r rows IH]; intros a Ha H.
  - simpl. rewrite append_nil_r. now apply split_lacks.
  - simpl in H. apply andb_prop in H. destruct H as [Hr Hrows].
    cbn [linesText List.map]. rewrite (split_append _ _ _ Ha).
    now rewrite (IH _ (lacks_newline_csvLine r Hr) Hrows).
Qed.

Lemma trimEnd_linesText r rows :
  isEmpty (linesText (r :: rows)) = false
  /\ trimEnd (linesText (r :: rows)) = linesText (r :: rows).
Proof.
  revert r. induction rows as [|r' rows IH]; intros r.
  - cbn [linesText]. rewrite append_nil_r, csvLine_shape.
    split; [reflexivity|].
    rewrite <- (append_assoc (quoted _) _ (String dquote "")).
    rewrite <- append_cons. now apply trimEnd_append.
  - destruct (IH r') as [He Ht].
    change (linesText (r :: r' :: rows))
      with (String newline (csvLine r +:+ linesText (r' :: rows))).
    split; [reflexivity|].
    rewrite <- append_cons. now apply trimEnd_append.
Qed.

Lemma trim_csvOf rows : trim (csvOf rows) = csvOf rows.
Proof.
  unfold trim, csvOf.
  assert (Hs : trimStart ("prompt,keywords" +:+ linesText rows)
               = "prompt,keywords" +:+ linesText rows)
    by (now apply trimStart_append).
  rewrite Hs. destruct rows as [|r rows].
  - reflexivity.
  - destruct (trimEnd_linesText r rows) as [He Ht]. now apply trimEnd_append.
Qed.

(** X12: a table written in the format of the downloadable template (header
    [prompt,keywords], then one line per row with both cells quoted and the
    keywords joined by commas) is read back by [parseCSV] as exactly the
    rows it was written from, whenever each prompt and keyword is not
    empty, has no white space at its ends and holds no double quote or line
    break, keywords hold no comma, and every row has a keyword.  Commas
    inside a prompt survive.  Uploaded with between 1 and 50 rows, such a
    table is stored as it is, with no error. *)
Theorem template_format_round_trip (rows : list BatchRow) :
  forallb cleanRow rows = true ->
  parseCSV (csvOf rows) = Returned rows
  /\ (1 <= List.length rows <= 50 ->
      forall w, exists w1,
        handleFileUpload (Some (csvOf rows)) w = (Some tt, w1)
        /\ batchData (batch w1) = rows
        /\ batchError (batch w1) = None).
Proof.
  intros H.
  assert (Hparse : parseCSV (csvOf rows) = Returned rows).
  { unfold parseCSV. cbv zeta.
    rewrite trim_csvOf. unfold csvOf.
    rewrite (split_linesText "prompt,keywords" rows eq_refl H).
    cbn [nth tl].
    replace (List.map (fun h => removeQuotes (trim h))
                      (split comma "prompt,keywords"))
      with ["prompt"; "keywords"] by reflexivity.
    cbn -[parseLines].
    now rewrite (parseLines_csvLines _ _ H). }
  split; [exact Hparse|].
  intros [H1 H50] w. unfold handleFileUpload, checkedRows. rewrite Hparse.
  destruct (Nat.eqb_spec (List.length rows) 0) as [H0|_]; [lia|].
  destruct (Nat.ltb_spec 50 (List.length rows)) as [Hgt|_]; [lia|].
  unfold bind, setError, setBatchData, modifyBatch. simpl.
  eexists. split; [reflexivity|]. split; reflexivity.
Qed.

Lemma template_format_round_trip_witness :
  parseCSV (csvOf templateRows) = Returned templateRows
  /\ exists w1,
       handleFileUpload (Some (csvOf templateRows)) (freshWorld [] [])
       = (Some tt, w1)
       /\ batchData (batch w1) = templateRows
       /\ batchError (batch w1) = None.
Proof.
  destruct (template_format_round_trip templateRows eq_refl) as [Hp Hu].
  split; [exact Hp|]. apply Hu. simpl. lia.
Defined.

(* ===================================================================== *)
(** * Properties of the input components *)
(* ===================================================================== *)

Lemma isWhiteSpace_toLowerCaseChar c :
  isWhiteSpace (toLowerCaseChar c) = isWhiteSpace c.
Proof. destruct c as [[] [] [] [] [] [] [] []]; reflexivity. Qed.

Lemma toLowerCaseChar_fixed c :
  toLowerCaseChar (toLowerCaseChar c) = toLowerCaseChar c.
Proof. destruct c as [[] [] [] [] [] [] [] []]; reflexivity. Qed.

Lemma toLowerCase_fixed s : toLowerCase (toLowerCase s) = toLowerCase s.
Proof.
  induction s as [|c s IH]; [reflexivity|]. simpl.
  now rewrite toLowerCaseChar_fixed, IH.
Qed.

Lemma isEmpty_toLowerCase s : isEmpty (toLowerCase s) = isEmpty s.
Proof. now destruct s. Qed.

Lemma trimStart_toLowerCase s :
  trimStart (toLowerCase s) = toLowerCase (trimStart s).
Proof.
  induction s as [|c s IH]; [reflexivity|]. simpl.
  rewrite isWhiteSpace_toLowerCaseChar.
  destruct (isWhiteSpace c); [exact IH|reflexivity].
Qed.

Lemma trimEnd_toLowerCase s :
  trimEnd (toLowerCase s) = toLowerCase (trimEnd s).
Proof.
  induction s as [|c s IH]; [reflexivity|]. simpl.
  rewrite isWhiteSpace_toLowerCaseChar, IH, isEmpty_toLowerCase.
  now destruct (isWhiteSpace c && isEmpty (trimEnd s)).
Qed.

Lemma trim_toLowerCase s : trim (toLowerCase s) = toLowerCase (trim s).
Proof. unfold trim. now rewrite trimStart_toLowerCase, trimEnd_toLowerCase. Qed.

Lemma includes_false x l : includes x l = false <-> ~ In x l.
Proof.
  unfold includes. split.
  - intros H Hin. assert (existsb (String.eqb x) l = true); [|congruence].
    apply existsb_exists. exists x. split; [exact Hin|apply String.eqb_refl].
  - intros H. destruct (existsb (String.eqb x) l) eqn:He; [|reflexivity].
    apply existsb_exists in He. destruct He as [y [Hy Heq]].
    apply String.eqb_eq in Heq. now subst y.
Qed.

Lemma filterIndexed_length {A} (f : A -> nat -> bool) l i :
  List.length (filterIndexed f l i) <= List.length l.
Proof.
  revert i. induction l as [|x l IH]; intros i; simpl; [lia|].
  specialize (IH (S i)). destruct (f x i); simpl; lia.
Qed.

Lemma filterIndexed_Forall {A} (P : A -> Prop) (f : A -> nat -> bool) l i :
  Forall P l -> Forall P (filterIndexed f l i).
Proof.
  intros H. revert i. induction H as [|x l Hx Hl IH]; intros i; simpl.
  - constructor.
  - destruct (f x i); [constructor; [exact Hx|]|]; apply IH.
Qed.

Lemma filterIndexed_past {A} (l : list A) (t i : nat) :
  t < i -> filterIndexed (fun _ j => negb (j =? t)) l i = l.
Proof.
  revert i. induction l as [|x l IH]; intros i Hi; [reflexivity|].
  cbn [filterIndexed].
  destruct (Nat.eqb_spec i t) as [H|_]; [lia|]. cbn [negb].
  f_equal. apply IH. lia.
Qed.

Lemma filterIndexed_delete {A} (l : list A) (t i : nat) :
  i <= t -> filterIndexed (fun _ j => negb (j =? t)) l i = delete (t - i) l.
Proof.
  revert i. induction l as [|x l IH]; intros i Hi; [reflexivity|].
  cbn [filterIndexed].
  destruct (Nat.eqb_spec i t) as [->|Hne]; cbn [negb].
  - rewrite Nat.sub_diag. apply filterIndexed_past. lia.
  - replace (t - i) with (S (t - S i)) by lia.
    change (delete (S (t - S i)) (x :: l)) with (x :: delete (t - S i) l).
    f_equal. apply IH. lia.
Qed.

Lemma filter_new_last (k : string) (l : list string) :
  ~ In k l ->
  List.filter (fun x => negb (String.eqb x k)) (l ++ [k]) = l.
Proof.
  intros Hk. rewrite List.filter_app. cbn [List.filter].
  rewrite String.eqb_refl. cbn [negb]. rewrite app_nil_r.
  induction l as [|x l IH]; [reflexivity|]. cbn [List.filter].
  destruct (String.eqb_spec x k) as [->|_].
  - exfalso. apply Hk. now left.
  - cbn [negb]. f_equal. apply IH. intros H. apply Hk. now right.
Qed.

Lemma sameButInputs_refl w : sameButInputs w w.
Proof. unfold sameButInputs. tauto. Qed.

Lemma sameButInputs_trans w1 w2 w3 :
  sameButInputs w1 w2 -> sameButInputs w2 w3 -> sameButInputs w1 w3.
Proof.
  unfold sameButInputs.
  intros (?&?&?&?&?&?&?) (?&?&?&?&?&?&?). repeat split; congruence.
Qed.

Lemma handleInput_keeps (e : InputEvent) (w : World) :
  inputsOk (app w) ->
  exists w1, handleInput e w = (Some tt, w1)
             /\ inputsOk (app w1) /\ sameButInputs w w1.
Proof.
  intros (Hnd & Hks & Hlen & Hps).
  destruct e as [text|k|text|i]; unfold handleInput.
  - unfold addKeyword, bind, getApp. cbv zeta.
    destruct (isEmpty (toLowerCase (trim text))) eqn:He; cbn [negb andb].
    { eexists. split; [reflexivity|].
      split; [repeat split; assumption|apply sameButInputs_refl]. }
    destruct (includes (toLowerCase (trim text)) (keywords (app w))) eqn:Hi;
      cbn [negb].
    { eexists. split; [reflexivity|].
      split; [repeat split; assumption|apply sameButInputs_refl]. }
    eexists. split; [reflexivity|]. split; [|now repeat split].
    unfold inputsOk. cbn [app keywords prompts].
    split; [|split; [|split; assumption]].
    + apply NoDup_app. split; [exact Hnd|]. split; [|apply NoDup_singleton].
      intros x Hx Hx'. apply list_elem_of_singleton in Hx'. subst x.
      apply includes_false in Hi. apply Hi. now apply list_elem_of_In.
    + apply Forall_app. split; [exact Hks|]. constructor; [|constructor].
      split; [exact He|]. split.
      * now rewrite trim_toLowerCase, trim_fixed.
      * apply toLowerCase_fixed.
  - unfold removeKeyword, bind, getApp, setKeywords, modifyApp.
    eexists. split; [reflexivity|]. split; [|now repeat split].
    unfold inputsOk. cbn [app keywords prompts].
    split; [|split; [|split; assumption]].
    + apply NoDup_ListNoDup, List.NoDup_filter. now apply NoDup_ListNoDup.
    + apply List.Forall_forall. intros x Hx. apply filter_In in Hx.
      rewrite List.Forall_forall in Hks. now apply Hks.
  - unfold addPrompt, bind, getApp. 
    destruct (isEmpty (trim text)) eqn:He; cbn [negb andb].
    { eexists. split; [reflexivity|].
      split; [repeat split; assumption|apply sameButInputs_refl]. }
    destruct (Nat.ltb_spec (List.length (prompts (app w))) 10) as [Hlt|_].
    2:{ eexists. split; [reflexivity|].
        split; [repeat split; assumption|apply sameButInputs_refl]. }
    eexists. split; [reflexivity|]. split; [|now repeat split].
    unfold inputsOk. cbn [app keywords prompts].
    split; [assumption|]. split; [assumption|]. split.
    + rewrite length_app. simpl. lia.
    + apply Forall_app. split; [exact Hps|]. constructor; [|constructor].
      split; [exact He|apply trim_fixed].
  - unfold removePrompt, bind, getApp, setPrompts, modifyApp.
    eexists. split; [reflexivity|]. split; [|now repeat split].
    unfold inputsOk. cbn [app keywords prompts].
    split; [assumption|]. split; [assumption|]. split.
    + etransitivity; [apply filterIndexed_length|exact Hlen].
    + now apply filterIndexed_Forall.
Qed.

(** X13: whatever the user does in the two input components, in any order,
    the inputs of [App] stay well formed: the keywords are pairwise
    different, and each is not empty, trimmed and in lower case; there are
    at most 10 prompts, each not empty and trimmed.  The handlers always
    come back and touch nothing but the two input lists. *)
Theorem inputs_stay_well_formed (es : list InputEvent) (w : World) :
  inputsOk (app w) ->
  exists w1, handleInputs es w = (Some tt, w1)
             /\ inputsOk (app w1) /\ sameButInputs w w1.
Proof.
  revert w. induction es as [|e es IH]; intros w Hok.
  - exists w. split; [reflexivity|]. split; [exact Hok|apply sameButInputs_refl].
  - destruct (handleInput_keeps e w Hok) as (w1 & Hrun & Hok1 & Hs1).
    destruct (IH w1 Hok1) as (w2 & Hrun2 & Hok2 & Hs2).
    exists w2. split; [|split; [exact Hok2|]].
    + cbn [handleInputs]. unfold bind at 1. now rewrite Hrun.
    + exact (sameButInputs_trans _ _ _ Hs1 Hs2).
Qed.

Lemma inputs_stay_well_formed_witness :
  exists w1,
    handleInputs
      [AddKeyword " AI "; AddKeyword "Cloud"; AddKeyword "ai";
       RemoveKeyword "ai"; AddPrompt " hello "; RemovePrompt 0]
      (freshWorld ["first"] ["ai"]) = (Some tt, w1)
    /\ inputsOk (app w1)
    /\ sameButInputs (freshWorld ["first"] ["ai"]) w1.
Proof.
  apply (inputs_stay_well_formed _ (freshWorld ["first"] ["ai"])).
  unfold inputsOk. simpl. split; [apply NoDup_singleton|].
  split; [repeat constructor|]. split; [lia|repeat constructor].
Defined.

(** X14: a keyword that is typed is stored trimmed and in lower case at the
    end of the list, and the input is cleared, when it is not empty and not
    in the list yet; removing it again gives back the state before. *)
Theorem keyword_add_then_remove (text : string) (w : World) :
  isEmpty (trim text) = false ->
  ~ In (toLowerCase (trim text)) (keywords (app w)) ->
  exists w1,
    addKeyword text w = (Some EmptyString, w1)
    /\ keywords (app w1) = keywords (app w) ++ [toLowerCase (trim text)]
    /\ removeKeyword (toLowerCase (trim text)) w1 = (Some tt, w).
Proof.
  intros He Hin. unfold addKeyword, bind, getApp. cbv zeta.
  rewrite isEmpty_toLowerCase, He.
  rewrite (proj2 (includes_false _ _) Hin). cbn [negb andb].
  eexists. split; [reflexivity|]. split; [reflexivity|].
  unfold removeKeyword, bind, getApp, setKeywords, modifyApp.
  cbn [app keywords prompts analyses isRunning currentSession batch ticks
       calls history].
  rewrite (filter_new_last _ _ Hin).
  destruct w as [[ps ks an run cs] b t c h]. reflexivity.
Qed.

Lemma keyword_add_then_remove_witness :
  exists w1,
    addKeyword "  Machine Learning " (freshWorld ["first"] ["ai"])
    = (Some EmptyString, w1)
    /\ keywords (app w1)
       = keywords (app (freshWorld ["first"] ["ai"]))
         ++ [toLowerCase (trim "  Machine Learning ")]
    /\ removeKeyword (toLowerCase (trim "  Machine Learning ")) w1
       = (Some tt, freshWorld ["first"] ["ai"]).
Proof.
  apply (keyword_add_then_remove "  Machine Learning "
           (freshWorld ["first"] ["ai"])).
  - reflexivity.
  - simpl. intros [H|[]]. discriminate H.
Defined.

(** X15: a keyword that is empty after trimming, or that the list already
    holds once trimmed and lower-cased, is not added: the state is
    unchanged and the typed text stays in the input. *)
Theorem keyword_not_added (text : string) (w : World) :
  isEmpty (trim text) = true
  \/ In (toLowerCase (trim text)) (keywords (app w)) ->
  addKeyword text w = (Some text, w).
Proof.
  intros H. unfold addKeyword, bind, getApp. cbv zeta.
  rewrite isEmpty_toLowerCase.
  destruct (isEmpty (trim text)) eqn:He; [reflexivity|]. cbn [negb andb].
  destruct H as [H|H]; [discriminate|].
  destruct (includes (toLowerCase (trim text)) (keywords (app w))) eqn:Hi;
    [reflexivity|].
  apply includes_false in Hi. contradiction.
Qed.

Lemma keyword_not_added_witness :
  addKeyword " AI " (freshWorld ["first"] ["ai"])
  = (Some " AI ", freshWorld ["first"] ["ai"]).
Proof.
  apply (keyword_not_added " AI " (freshWorld ["first"] ["ai"])).
  right. simpl. now left.
Defined.

(** X16: [removePrompt] deletes the prompt at the given position and keeps
    the others in order; an index past the end changes nothing. *)
Theorem removePrompt_deletes_position (index : nat) (w : World) :
  exists w1,
    removePrompt index w = (Some tt, w1)
    /\ prompts (app w1)
       = take index (prompts (app w)) ++ drop (S index) (prompts (app w))
    /\ keywords (app w1) = keywords (app w)
    /\ (List.length (prompts (app w)) <= index ->
        prompts (app w1) = prompts (app w))
    /\ (index < List.length (prompts (app w)) ->
        S (List.length (prompts (app w1))) = List.length (prompts (app w))).
Proof.
  unfold removePrompt, bind, getApp, setPrompts, modifyApp.
  eexists. split; [reflexivity|]. cbn [app prompts keywords].
  rewrite (filterIndexed_delete _ index 0 (Nat.le_0_l _)), Nat.sub_0_r.
  rewrite delete_take_drop.
  split; [reflexivity|]. split; [reflexivity|]. split.
  - intros H. rewrite take_ge by lia. rewrite drop_ge by lia.
    apply app_nil_r.
  - intros H. rewrite length_app, length_take, length_drop. lia.
Qed.

Lemma removePrompt_deletes_position_witness :
  exists w1,
    removePrompt 1 (freshWorld ["first"; "second"; "third"] ["ai"])
    = (Some tt, w1)
    /\ prompts (app w1) = ["first"; "third"].
Proof.
  destruct (removePrompt_deletes_position 1
              (freshWorld ["first"; "second"; "third"] ["ai"]))
    as (w1 & Hrun & Hps & _).
  exists w1. split; [exact Hrun|exact Hps].
Defined.

(** X17: a prompt is stored trimmed at the end of the list, and the input
    cleared, when it is not blank and fewer than 10 prompts are entered;
    removing the last position again gives back the state before. *)
Theorem prompt_add_then_remove (text : string) (w : World) :
  isEmpty (trim text) = false ->
  List.length (prompts (app w)) < 10 ->
  exists w1,
    addPrompt text w = (Some EmptyString, w1)
    /\ prompts (app w1) = prompts (app w) ++ [trim text]
    /\ removePrompt (List.length (prompts (app w))) w1 = (Some tt, w).
Proof.
  intros He Hlen. unfold addPrompt, bind, getApp.
  rewrite He. cbn [negb andb].
  destruct (Nat.ltb_spec (List.length (prompts (app w))) 10) as [_|H];
    [|lia].
  eexists. split; [reflexivity|]. split; [reflexivity|].
  unfold removePrompt, bind, getApp, setPrompts, modifyApp.
  cbn [app keywords prompts analyses isRunning currentSession batch ticks
       calls history].
  rewrite (filterIndexed_delete _ _ 0 (Nat.le_0_l _)), Nat.sub_0_r.
  rewrite delete_take_drop, take_app_length.
  rewrite drop_ge by (rewrite length_app; simpl; lia).
  rewrite app_nil_r.
  destruct w as [[ps ks an run cs] b t c h]. reflexivity.
Qed.

Lemma prompt_add_then_remove_witness :
  exists w1,
    addPrompt " Tell me more  " (freshWorld ["first"] ["ai"])
    = (Some EmptyString, w1)
    /\ prompts (app w1)
       = prompts (app (freshWorld ["first"] ["ai"]))
         ++ [trim " Tell me more  "]
    /\ removePrompt (List.length (prompts (app (freshWorld ["first"] ["ai"]))))
                    w1
       = (Some tt, freshWorld ["first"] ["ai"]).
Proof.
  apply (prompt_add_then_remove " Tell me more  "
           (freshWorld ["first"] ["ai"])).
  - reflexivity.
  - simpl. lia.
Defined.

(** X18: a prompt that is blank, or typed when 10 prompts are entered, is
    not added: the state is unchanged and the typed text stays in the
    input. *)
Theorem prompt_not_added (text : string) (w : World) :
  isEmpty (trim text) = true \/ 10 <= List.length (prompts (app w)) ->
  addPrompt text w = (Some text, w).
Proof.
  intros H. unfold addPrompt, bind, getApp.
  destruct (isEmpty (trim text)) eqn:He; [reflexivity|]. cbn [negb andb].
  destruct (Nat.ltb_spec (List.length (prompts (app w))) 10) as [Hlt|_];
    [|reflexivity].
  destruct H as [H|H]; [discriminate|lia].
Qed.

Lemma prompt_not_added_witness :
  addPrompt "one more"
    (freshWorld ["1"; "2"; "3"; "4"; "5"; "6"; "7"; "8"; "9"; "10"] ["ai"])
  = (Some "one more",
     freshWorld ["1"; "2"; "3"; "4"; "5"; "6"; "7"; "8"; "9"; "10"] ["ai"]).
Proof.
  apply (prompt_not_added "one more"
           (freshWorld ["1"; "2"; "3"; "4"; "5"; "6"; "7"; "8"; "9"; "10"]
                       ["ai"])).
  right. simpl. lia.
Defined.

(** X19: a run started on inputs that came through the input components
    calls the provider at most 10 times and leaves at most 10 items. *)
Theorem manual_run_is_capped (E : Engine) (env : Env) (fuel : nat)
    (w w' : World) :
  inputsOk (app w) ->
  canStart w = true ->
  startAnalysis E env fuel w = (Some tt, w') ->
  calls w' <= calls w + 10 /\ List.length (analyses (app w')) <= 10.
Proof.
  intros (_ & _ & Hlen & _) Hgo Hrun.
  apply startAnalysis_run in Hrun; [|assumption].
  destruct Hrun as (_ & _ & _ & _ & (s & _ & _ & _ & _ & Hs) & _).
  destruct Hs as (_ & _ & _ & Han & Hcalls & Hres & _).
  rewrite Han, Hres, Hcalls. lia.
Qed.

Lemma manual_run_is_capped_witness :
  calls scenarioFirstRun <= calls scenarioWorld + 10
  /\ List.length (analyses (app scenarioFirstRun)) <= 10.
Proof.
  apply (manual_run_is_capped Fragment.engine scenarioEnv 40 scenarioWorld
           scenarioFirstRun).
  - unfold inputsOk. simpl. split.
    + apply NoDup_cons. split; [|apply NoDup_singleton].
      intros H. apply list_elem_of_singleton in H. discriminate H.
    + split; [repeat constructor|]. split; [lia|repeat constructor].
  - reflexivity.
  - vm_compute. reflexivity.
Defined.
